(** * Product service: a shallow embedding of the repository layer

    The development follows the Go packages of the service:
    - [GoInt]: Go's [int] on a 64-bit platform, with its wrap-around;
    - [models]: [Product], [ProductRequest], [ToProduct], and the
      environment a process reads (clock, ids, random source);
    - [memory]: [ProductMemoryRepository] over a slice of products;
    - [postgres]: [ProductRepository] over the [products] table;
    - [paging], [service], [contract]: callers of the two repositories,
      one call or a sequence of calls at a time;
    - [binary64], [utils]: [float64] arithmetic and the random product
      generator.
    The theorems about them come after all definitions.

    Every method of the in-memory repository runs under the repository's
    mutex, so a method is one atomic step on the slice it guards. *)

From Stdlib Require Import ZArith Lia SpecFloat.
From stdpp Require Import base list strings.

(** ** Go's [int] *)

Module GoInt.
Local Open Scope Z_scope.

Definition min_int : Z := - 2 ^ 63.
Definition max_int : Z := 2 ^ 63 - 1.

Definition is_int (z : Z) : Prop := min_int <= z <= max_int.

(** Two's complement reduction of a mathematical integer to 64 bits. *)
Definition wrap (z : Z) : Z := (z + 2 ^ 63) mod 2 ^ 64 - 2 ^ 63.

Definition int_add (a b : Z) : Z := wrap (a + b).
Definition int_sub (a b : Z) : Z := wrap (a - b).
Definition int_mul (a b : Z) : Z := wrap (a * b).
End GoInt.

(** ** Outcomes of a call

    A Go method returns a value or an [error], unless it panics. *)

Inductive error : Set :=
  | ErrProductNotFound      (* errors.New("product not found") *)
  | ErrNoProductWithID      (* errors.New("no product found with the given ID") *)
  | ErrNoRows               (* sql.ErrNoRows *)
  | ErrUniqueViolation      (* duplicate key value violates the primary key *)
  | ErrBadLimitOffset       (* LIMIT / OFFSET must not be negative *)
  | ErrDriver               (* connectivity, cancellation, timeout, refused value *)
  | ErrCounting (cause : error). (* fmt.Errorf("error counting products: %v", err) *)

Inductive runtime_panic : Set :=
  | MakesliceLenOutOfRange
  | SliceBoundsOutOfRange.

(** What a Go function of type [(T, error)] returns. *)
Inductive result (A : Type) : Type :=
  | Ok (a : A)
  | Err (e : error).
Arguments Ok {A} a.
Arguments Err {A} e.

(** A call returns or panics. *)
Inductive outcome (A : Type) : Type :=
  | Return (a : A)
  | Panic (p : runtime_panic).
Arguments Return {A} a.
Arguments Panic {A} p.

Definition returns_ok {A} (o : outcome (result A)) : bool :=
  match o with Return (Ok _) => true | _ => false end.

(** ** package models *)

Module models.
(** [uuid.UUID] is a 16-byte array compared by value. *)
Definition uuid : Set := N.
(** [time.Time]: a reading of the process clock, in nanoseconds. *)
Definition Time : Set := Z.
(** [float64]: IEEE 754 binary64. *)
Definition float64 : Set := spec_float.

Record Product : Set := mkProduct {
  ID : uuid;
  Name : string;
  Description : string;
  Price : float64;
  CreatedAt : Time;
  UpdatedAt : Time
}.

(** The projections of a record share one name space with those of
    [Product], hence the prefix. *)
Record ProductRequest : Set := mkRequest {
  ReqName : string;
  ReqDescription : string;
  ReqPrice : float64
}.

(** The zero value of [Product], as [make] fills a fresh slice with. *)
Definition zeroProduct : Product :=
  mkProduct 0%N "" "" (S754_zero false) 0%Z 0%Z.

#[global] Instance Product_inhabited : Inhabited Product :=
  populate zeroProduct.

(** What the process reads from its environment: the clock behind
    [time.Now], the generator behind [uuid.New], and the source behind
    [rand.Intn] and [rand.Float64].  The generators are read at a cursor
    that each call advances. *)
Record World : Type := mkWorld {
  clock : Time;
  uuid_src : nat -> uuid;
  uuid_pos : nat;
  intn_src : nat -> N;
  float_src : nat -> float64;
  rand_pos : nat
}.

Definition time_Now (w : World) : Time := clock w.

Definition uuid_New (w : World) : uuid * World :=
  (uuid_src w (uuid_pos w),
   mkWorld (clock w) (uuid_src w) (S (uuid_pos w))
           (intn_src w) (float_src w) (rand_pos w)).

(** Time passes between calls; the clock never runs backwards. *)
Definition elapse (d : N) (w : World) : World :=
  mkWorld (clock w + Z.of_N d)%Z (uuid_src w) (uuid_pos w)
          (intn_src w) (float_src w) (rand_pos w).

(** [func (pr *ProductRequest) ToProduct() Product] *)
Definition ToProduct (pr : ProductRequest) (w : World) : Product * World :=
  let now := time_Now w in
  let '(id, w') := uuid_New w in
  (mkProduct id (ReqName pr) (ReqDescription pr) (ReqPrice pr) now now, w').
End models.
Export models.

(** ** package repository: the in-memory backend *)

Module memory.
Import GoInt.
Local Open Scope Z_scope.

(** [sync.RWMutex] and the logger carry no data of the dataset. *)
Record ProductMemoryRepository : Set := mkRepo {
  products : list Product
}.

Definition NewProductMemoryRepository : ProductMemoryRepository :=
  mkRepo [].

Definition len (r : ProductMemoryRepository) : Z :=
  Z.of_nat (length (products r)).

(** *** Slices

    A [Product] occupies 104 bytes (16 for the id, 16 for each string
    header, 8 for the price, 24 for each [time.Time]); the runtime
    refuses to allocate more than [max_alloc] bytes for one slice.
    Running out of memory below that limit is not part of the model:
    [append] always finds room. *)
Definition sizeof_Product : Z := 104.
Definition max_alloc : Z := 2 ^ 48.

Definition fits (n : Z) : bool := n * sizeof_Product <=? max_alloc.

(** A repository whose slice the runtime could have allocated. *)
Definition well_formed (r : ProductMemoryRepository) : Prop :=
  fits (len r) = true.

(** [make([]models.Product, n)] *)
Definition make (n : Z) : outcome (list Product) :=
  if (n <? 0) || negb (fits n) then Panic MakesliceLenOutOfRange
  else Return (replicate (Z.to_nat n) zeroProduct).

(** [s[lo:hi]]; the upper bound Go checks is the capacity, which is at
    least the length: [List] never asks for more than the length. *)
Definition slice_expr (s : list Product) (lo hi : Z) : outcome (list Product) :=
  if (0 <=? lo) && (lo <=? hi) && (hi <=? Z.of_nat (length s))
  then Return (take (Z.to_nat (hi - lo)) (drop (Z.to_nat lo) s))
  else Panic SliceBoundsOutOfRange.

(** [copy(dst, src)] overwrites the first [min(len dst, len src)] slots. *)
Definition copy (dst src : list Product) : list Product :=
  take (length dst) src ++ drop (length src) dst.

(** *** The methods *)

(** [Create]: [r.products = append(r.products, *product)] *)
Definition Create (r : ProductMemoryRepository) (product : Product)
  : result unit * ProductMemoryRepository :=
  (Ok tt, mkRepo (products r ++ [product])).

(** [CreateBulk]: [r.products = append(r.products, products...)] *)
Definition CreateBulk (r : ProductMemoryRepository) (ps : list Product)
  : result unit * ProductMemoryRepository :=
  (Ok tt, mkRepo (products r ++ ps)).

(** The index the [for i, product := range r.products] loops of [GetByID],
    [Update] and [Delete] stop at: the first product with the id. *)
Fixpoint scan (id : uuid) (ps : list Product) : option nat :=
  match ps with
  | [] => None
  | product :: rest =>
      if N.eqb (ID product) id then Some 0%nat
      else option_map S (scan id rest)
  end.

(** A product that the scan for [id] passes over. *)
Definition other_id (id : uuid) (q : Product) : Prop := ID q ≠ id.

(** [GetByID]: the loop returns a copy of the first product with the id. *)
Fixpoint GetByID_loop (id : uuid) (ps : list Product) : result Product :=
  match ps with
  | [] => Err ErrProductNotFound
  | product :: rest =>
      if N.eqb (ID product) id then Ok product else GetByID_loop id rest
  end.

Definition GetByID (r : ProductMemoryRepository) (id : uuid) : result Product :=
  GetByID_loop id (products r).

(** The two indices [List] computes. *)
Definition startIndex (page pageSize : Z) : Z :=
  int_mul (int_sub page 1) pageSize.
Definition endIndex (page pageSize : Z) : Z :=
  int_add (startIndex page pageSize) pageSize.

(** The indices [List] reaches its slice expression with, after the two
    bounds checks; [None] when the first check returns early. *)
Definition List_indices (r : ProductMemoryRepository) (page pageSize : Z)
  : option (Z * Z) :=
  let startIndex := startIndex page pageSize in
  let endIndex := endIndex page pageSize in
  if len r <=? startIndex then None
  else
    let endIndex := if len r <? endIndex then len r else endIndex in
    Some (startIndex, endIndex).

(** [List] *)
Definition List (r : ProductMemoryRepository) (page pageSize : Z)
  : outcome (result (list Product)) :=
  match List_indices r page pageSize with
  | None => Return (Ok [])
  | Some (startIndex, endIndex) =>
      match make (int_sub endIndex startIndex) with
      | Return result =>
          match slice_expr (products r) startIndex endIndex with
          | Return src => Return (Ok (copy result src))
          | Panic p => Panic p
          end
      | Panic p => Panic p
      end
  end.

(** [GetAll] *)
Definition GetAll (r : ProductMemoryRepository)
  : outcome (result (list Product)) :=
  match make (len r) with
  | Return result => Return (Ok (copy result (products r)))
  | Panic p => Panic p
  end.

(** [Update]: the four assignments to [r.products[i]]. *)
Definition overwrite (req : ProductRequest) (now : Time) (p : Product) : Product :=
  mkProduct (ID p) (ReqName req) (ReqDescription req) (ReqPrice req)
            (CreatedAt p) now.

Definition Update (r : ProductMemoryRepository) (id : uuid)
    (req : ProductRequest) (w : World)
  : result unit * ProductMemoryRepository :=
  match scan id (products r) with
  | Some i => (Ok tt, mkRepo (alter (overwrite req (time_Now w)) i (products r)))
  | None => (Err ErrProductNotFound, r)
  end.

(** [Delete]: the last element is written over slot [i], then the slice
    is cut by one. *)
Definition Delete (r : ProductMemoryRepository) (id : uuid)
  : result unit * ProductMemoryRepository :=
  match scan id (products r) with
  | Some i =>
      let n := length (products r) in
      (Ok tt,
       mkRepo (take (n - 1)%nat (<[i := products r !!! (n - 1)%nat]> (products r))))
  | None => (Err ErrProductNotFound, r)
  end.

(** [DeleteAll] *)
Definition DeleteAll (r : ProductMemoryRepository)
  : result unit * ProductMemoryRepository :=
  (Ok tt, mkRepo []).

(** [Count] *)
Definition Count (r : ProductMemoryRepository) : result Z := Ok (len r).
End memory.


(** ** Calls on a repository

    The operations of the repository contract, with the arguments a caller
    supplies.  [OpCreate] is the handlers' pair of steps: the request is
    converted by [ToProduct] and the product handed to [Create]. *)

Inductive Op : Set :=
  | OpCreate (req : ProductRequest)
  | OpCreateBulk (ps : list Product)
  | OpGetByID (id : uuid)
  | OpList (page pageSize : Z)
  | OpGetAll
  | OpUpdate (id : uuid) (req : ProductRequest)
  | OpDelete (id : uuid)
  | OpDeleteAll
  | OpCount.

(** What a call hands back to its caller. *)
Inductive Output : Type :=
  | OutErr (o : outcome (result unit))
  | OutProduct (o : outcome (result Product))
  | OutPage (o : outcome (result (list Product)))
  | OutProducts (o : outcome (result (list Product)))
  | OutCount (o : outcome (result Z)).

(** What happens to a process: time passes, or a call is made. *)
Inductive Event : Set :=
  | Elapse (d : N)
  | Call (op : Op).

(** ** package repository: the persistent backend

    The [products] table is a list of rows keyed by [id], the primary key
    of the schema.  Every statement is one round trip to the server, and a
    round trip can fail for reasons this model does not compute
    (connectivity, cancellation, timeout): the environment decides through
    [faults], read at the number of the round trip.  A row holds what the
    columns of the table make of the values a statement sends. *)

Module postgres.
Import GoInt.
Local Open Scope Z_scope.

(** *** The columns of [InitSchema]
<<
    id          UUID PRIMARY KEY
    name        VARCHAR(255) NOT NULL
    description TEXT
    price       DECIMAL(10,2) NOT NULL
    created_at  TIMESTAMP WITH TIME ZONE
    updated_at  TIMESTAMP WITH TIME ZONE
>>
    An id is held as it is sent.  Every other column holds what its type
    makes of the value, which is also what a [SELECT] reads back into the
    Go value, or it refuses the value and the statement fails.  The
    conversions are the server's: [Columns] takes them as given, and
    [schema] records what the types of the columns bind them to. *)
Record Columns : Type := mkColumns {
  name_column : string -> option string;
  description_column : string -> option string;
  price_column : float64 -> option float64;
  time_column : Time -> option Time
}.

(** The characters of a string in UTF-8: its bytes but for the
    continuation bytes [10xxxxxx]. *)
Definition is_continuation (c : Ascii.ascii) : bool :=
  match c with Ascii.Ascii _ _ _ _ _ _ b6 b7 => b7 && negb b6 end.

Fixpoint characters (s : string) : nat :=
  match s with
  | EmptyString => 0%nat
  | String c rest =>
      ((if is_continuation c then 0 else 1) + characters rest)%nat
  end.

Fixpoint blanks (k : nat) : string :=
  match k with
  | O => EmptyString
  | S k' => String Ascii.Space (blanks k')
  end.

(** The [float64] that reading a number of cents gives: the nearest one
    to [k / 100]. *)
Definition cents (k : Z) : float64 :=
  SFdiv 53 1024 (binary_normalize 53 1024 k 0 false)
                (binary_normalize 53 1024 100 0 false).

(** [f] is infinite, or a number of magnitude [n] or more. *)
Definition magnitude_at_least (n : Z) (f : float64) : bool :=
  match f with
  | S754_infinity _ => true
  | S754_finite _ m e =>
      if 0 <=? e then n <=? Z.pos m * 2 ^ e else n * 2 ^ (- e) <=? Z.pos m
  | _ => false
  end.

(** What the column types stand for:
    - [VARCHAR(255)] holds at most 255 characters, and cuts nothing but
      blanks off the end of a name;
    - [TEXT] holds a string as it is;
    - [DECIMAL(10,2)] holds a whole number of cents below [10^8] in
      magnitude, or NaN, and refuses a price of [10^8] or more;
    - [TIMESTAMP WITH TIME ZONE] holds a whole number of microseconds, the
      nearest to the time it is sent. *)
Record schema (cols : Columns) : Prop := mkSchema {
  varchar_255 : forall s s',
    name_column cols s = Some s' ->
    (characters s' <= 255)%nat /\ exists k, s = (s' +:+ blanks k)%string;
  text_as_sent : forall s s',
    description_column cols s = Some s' -> s' = s;
  decimal_10_2 : forall f f',
    price_column cols f = Some f' ->
    f' = S754_nan \/ exists k, Z.abs k < 10 ^ 10 /\ f' = cents k;
  decimal_overflow : forall f,
    magnitude_at_least (10 ^ 8) f = true -> price_column cols f = None;
  timestamptz : forall t t',
    time_column cols t = Some t' ->
    t' mod 1000 = 0 /\ Z.abs (t' - t) <= 500
}.

(** The name, description and price of a statement, as the columns hold
    them. *)
Definition held_request (cols : Columns) (req : ProductRequest)
  : option ProductRequest :=
  match name_column cols (ReqName req),
        description_column cols (ReqDescription req),
        price_column cols (ReqPrice req) with
  | Some name, Some description, Some price =>
      Some (mkRequest name description price)
  | _, _, _ => None
  end.

(** The row the table holds for a product, when no column refuses its
    value. *)
Definition row_of (cols : Columns) (product : Product) : option Product :=
  match held_request cols
          (mkRequest (Name product) (Description product) (Price product)),
        time_column cols (CreatedAt product),
        time_column cols (UpdatedAt product) with
  | Some held, Some created_at, Some updated_at =>
      Some (mkProduct (ID product) (ReqName held) (ReqDescription held)
                      (ReqPrice held) created_at updated_at)
  | _, _, _ => None
  end.

(** [row] is what the table holds for [product]. *)
Definition held (cols : Columns) (product row : Product) : Prop :=
  row_of cols product = Some row.

Record ProductRepository : Type := mkDB {
  table : list Product;
  faults : nat -> bool;
  calls : nat;
  columns : Columns
}.

(** One round trip: whether it failed, and the connection after it. *)
Definition round_trip (db : ProductRepository) : bool * ProductRepository :=
  (faults db (calls db),
   mkDB (table db) (faults db) (S (calls db)) (columns db)).

Definition has_id (id : uuid) (rows : list Product) : bool :=
  existsb (fun row => N.eqb (ID row) id) rows.

(** [INSERT INTO products (...) VALUES (...)] on the rows a statement
    sees: the values are fitted to the columns, then the primary key is
    checked. *)
Definition insert_row (cols : Columns) (rows : list Product)
    (product : Product) : result (list Product) :=
  match row_of cols product with
  | None => Err ErrDriver
  | Some row =>
      if has_id (ID row) rows then Err ErrUniqueViolation
      else Ok (rows ++ [row])
  end.

(** [Create]: the insert, outside any transaction. *)
Definition Create (db : ProductRepository) (product : Product)
  : result unit * ProductRepository :=
  let '(failed, db1) := round_trip db in
  if failed then (Err ErrDriver, db1)
  else
    match insert_row (columns db1) (table db1) product with
    | Ok rows => (Ok tt, mkDB rows (faults db1) (calls db1) (columns db1))
    | Err e => (Err e, db1)
    end.

(** *** Transactions

    A transaction works on its own copy of the rows; [Commit] installs
    the copy, [Rollback] drops it. *)
Record Tx : Type := mkTx { tx_rows : list Product }.

Definition BeginTxx (db : ProductRepository) : result Tx * ProductRepository :=
  let '(failed, db1) := round_trip db in
  if failed then (Err ErrDriver, db1) else (Ok (mkTx (table db1)), db1).

(** [tx.NamedExecContext(ctx, query, product)] with the insert query. *)
Definition tx_insert (tx : Tx) (db : ProductRepository) (product : Product)
  : result Tx * ProductRepository :=
  let '(failed, db1) := round_trip db in
  if failed then (Err ErrDriver, db1)
  else
    match insert_row (columns db1) (tx_rows tx) product with
    | Ok rows => (Ok (mkTx rows), db1)
    | Err e => (Err e, db1)
    end.

(** [tx.Rollback()]; its error is not looked at. *)
Definition Rollback (tx : Tx) (db : ProductRepository) : ProductRepository :=
  snd (round_trip db).

(** [tx.Commit()] *)
Definition Commit (tx : Tx) (db : ProductRepository)
  : result unit * ProductRepository :=
  let '(failed, db1) := round_trip db in
  if failed then (Err ErrDriver, db1)
  else (Ok tt, mkDB (tx_rows tx) (faults db1) (calls db1) (columns db1)).

(** The loop of [CreateBulk]: it leaves at the first insert that fails,
    with the transaction as it was before that insert. *)
Fixpoint insert_loop (ps : list Product) (tx : Tx) (db : ProductRepository)
  : result Tx * Tx * ProductRepository :=
  match ps with
  | [] => (Ok tx, tx, db)
  | product :: rest =>
      match tx_insert tx db product with
      | (Ok tx1, db1) => insert_loop rest tx1 db1
      | (Err e, db1) => (Err e, tx, db1)
      end
  end.

(** [CreateBulk] *)
Definition CreateBulk (db : ProductRepository) (ps : list Product)
  : result unit * ProductRepository :=
  match BeginTxx db with
  | (Ok tx, db1) =>
      match insert_loop ps tx db1 with
      | (Ok tx1, _, db2) => Commit tx1 db2
      | (Err e, tx1, db2) => (Err e, Rollback tx1 db2)
      end
  | (Err e, db1) => (Err e, db1)
  end.

(** [SELECT * FROM products WHERE id = $1], read by [GetContext]: the
    first row, or [sql.ErrNoRows]. *)
Definition GetByID (db : ProductRepository) (id : uuid)
  : result Product * ProductRepository :=
  let '(failed, db1) := round_trip db in
  if failed then (Err ErrDriver, db1)
  else
    match filter (fun row => ID row = id) (table db1) with
    | row :: _ => (Ok row, db1)
    | [] => (Err ErrNoRows, db1)
    end.

(** [ORDER BY created_at DESC]: insertion into a list kept in descending
    order of [created_at]; rows with equal [created_at] come out in an
    order the engine is free to choose, here the order of the table. *)
Fixpoint insert_desc (row : Product) (sorted : list Product) : list Product :=
  match sorted with
  | [] => [row]
  | x :: rest =>
      if CreatedAt x <? CreatedAt row then row :: x :: rest
      else x :: insert_desc row rest
  end.

Definition order_by_created_at_desc (rows : list Product) : list Product :=
  foldr insert_desc [] rows.

(** [LIMIT $1 OFFSET $2]; the engine rejects a negative limit or offset. *)
Definition limit_offset (limit offset : Z) (rows : list Product)
  : result (list Product) :=
  if (limit <? 0) || (offset <? 0) then Err ErrBadLimitOffset
  else Ok (take (Z.to_nat limit) (drop (Z.to_nat offset) rows)).

(** [List] *)
Definition List (db : ProductRepository) (page pageSize : Z)
  : result (list Product) * ProductRepository :=
  let offset := int_mul (int_sub page 1) pageSize in
  let '(failed, db1) := round_trip db in
  if failed then (Err ErrDriver, db1)
  else (limit_offset pageSize offset (order_by_created_at_desc (table db1)), db1).

(** [GetAll] *)
Definition GetAll (db : ProductRepository)
  : result (list Product) * ProductRepository :=
  let '(failed, db1) := round_trip db in
  if failed then (Err ErrDriver, db1)
  else (Ok (order_by_created_at_desc (table db1)), db1).

(** [UPDATE products SET ... WHERE id = $5] on the rows: the four values
    are fitted to their columns, whether or not a row has the id. *)
Definition update_rows (cols : Columns) (id : uuid) (req : ProductRequest)
    (now : Time) (rows : list Product) : result (list Product) :=
  match held_request cols req, time_column cols now with
  | Some held, Some updated_at =>
      Ok ((fun row =>
             if N.eqb (ID row) id
             then mkProduct (ID row) (ReqName held) (ReqDescription held)
                            (ReqPrice held) (CreatedAt row) updated_at
             else row) <$> rows)
  | _, _ => Err ErrDriver
  end.

(** [Update]: the result of [ExecContext] is dropped, only its error is
    returned. *)
Definition Update (db : ProductRepository) (id : uuid)
    (req : ProductRequest) (w : World)
  : result unit * ProductRepository :=
  let now := time_Now w in
  let '(failed, db1) := round_trip db in
  if failed then (Err ErrDriver, db1)
  else
    match update_rows (columns db1) id req now (table db1) with
    | Ok rows => (Ok tt, mkDB rows (faults db1) (calls db1) (columns db1))
    | Err e => (Err e, db1)
    end.

(** [Delete]: [RowsAffected] is what the statement removed. *)
Definition Delete (db : ProductRepository) (id : uuid)
  : result unit * ProductRepository :=
  let '(failed, db1) := round_trip db in
  if failed then (Err ErrDriver, db1)
  else
    let kept := filter (fun row => ID row ≠ id) (table db1) in
    let rowsAffected := Z.of_nat (length (table db1) - length kept) in
    let db2 := mkDB kept (faults db1) (calls db1) (columns db1) in
    if rowsAffected =? 0 then (Err ErrNoProductWithID, db2)
    else (Ok tt, db2).

(** [DeleteAll] *)
Definition DeleteAll (db : ProductRepository)
  : result unit * ProductRepository :=
  let '(failed, db1) := round_trip db in
  if failed then (Err ErrDriver, db1)
  else (Ok tt, mkDB [] (faults db1) (calls db1) (columns db1)).

(** [Count] *)
Definition Count (db : ProductRepository) : result Z * ProductRepository :=
  let '(failed, db1) := round_trip db in
  if failed then (Err (ErrCounting ErrDriver), db1)
  else (Ok (Z.of_nat (length (table db1))), db1).

(** A connection on which no round trip fails. *)
Definition reliable (db : ProductRepository) : Prop :=
  forall n, faults db n = false.

(** An empty table behind a connection that never fails. *)
Definition reliable_empty (cols : Columns) : ProductRepository :=
  mkDB [] (fun _ => false) 0 cols.
End postgres.

(** ** Reading a whole dataset page by page *)

Module paging.
Import GoInt memory.
Local Open Scope Z_scope.

(** A client that asks for pages [page], [page + 1], ... of one size and
    stops at the first empty page; [None] when [fuel] calls were not
    enough or a call did not return a page. *)
Fixpoint list_until_empty (fuel : nat) (r : ProductMemoryRepository)
    (page pageSize : Z) : option (list Product) :=
  match fuel with
  | O => None
  | S fuel' =>
      match List r page pageSize with
      | Return (Ok []) => Some []
      | Return (Ok chunk) =>
          option_map (app chunk)
            (list_until_empty fuel' r (int_add page 1) pageSize)
      | _ => None
      end
  end.

(** The two readings of "[List] is total exactly under positivity" with
    no bound on the size of the arguments. *)
Definition indices_in_bounds_for_all_positive : Prop :=
  forall (r : ProductMemoryRepository) (page pageSize s e : Z),
    well_formed r -> is_int page -> is_int pageSize ->
    1 <= page -> 0 <= pageSize ->
    List_indices r page pageSize = Some (s, e) ->
    0 <= s <= e /\ e <= len r.

Definition panics_for_all_nonpositive : Prop :=
  forall (r : ProductMemoryRepository) (page pageSize : Z),
    well_formed r -> is_int page -> is_int pageSize ->
    page <= 0 -> 1 <= pageSize ->
    startIndex page pageSize < 0 /\
    exists p, List r page pageSize = Panic p.
End paging.

(** ** Sequences of calls *)

Module service.
Local Open Scope Z_scope.

(** One call on the in-memory backend. *)
Definition memory_exec (op : Op) (w : World) (r : memory.ProductMemoryRepository)
  : Output * World * memory.ProductMemoryRepository :=
  match op with
  | OpCreate req =>
      let '(product, w') := ToProduct req w in
      let '(res, r') := memory.Create r product in
      (OutErr (Return res), w', r')
  | OpCreateBulk ps =>
      let '(res, r') := memory.CreateBulk r ps in (OutErr (Return res), w, r')
  | OpGetByID id => (OutProduct (Return (memory.GetByID r id)), w, r)
  | OpList page pageSize => (OutPage (memory.List r page pageSize), w, r)
  | OpGetAll => (OutProducts (memory.GetAll r), w, r)
  | OpUpdate id req =>
      let '(res, r') := memory.Update r id req w in (OutErr (Return res), w, r')
  | OpDelete id =>
      let '(res, r') := memory.Delete r id in (OutErr (Return res), w, r')
  | OpDeleteAll =>
      let '(res, r') := memory.DeleteAll r in (OutErr (Return res), w, r')
  | OpCount => (OutCount (Return (memory.Count r)), w, r)
  end.

(** One call on the persistent backend. *)
Definition postgres_exec (op : Op) (w : World) (db : postgres.ProductRepository)
  : Output * World * postgres.ProductRepository :=
  match op with
  | OpCreate req =>
      let '(product, w') := ToProduct req w in
      let '(res, db') := postgres.Create db product in
      (OutErr (Return res), w', db')
  | OpCreateBulk ps =>
      let '(res, db') := postgres.CreateBulk db ps in (OutErr (Return res), w, db')
  | OpGetByID id =>
      let '(res, db') := postgres.GetByID db id in (OutProduct (Return res), w, db')
  | OpList page pageSize =>
      let '(res, db') := postgres.List db page pageSize in
      (OutPage (Return res), w, db')
  | OpGetAll =>
      let '(res, db') := postgres.GetAll db in (OutProducts (Return res), w, db')
  | OpUpdate id req =>
      let '(res, db') := postgres.Update db id req w in (OutErr (Return res), w, db')
  | OpDelete id =>
      let '(res, db') := postgres.Delete db id in (OutErr (Return res), w, db')
  | OpDeleteAll =>
      let '(res, db') := postgres.DeleteAll db in (OutErr (Return res), w, db')
  | OpCount =>
      let '(res, db') := postgres.Count db in (OutCount (Return res), w, db')
  end.

Section Runs.
Context {S : Type}.
Variable exec : Op -> World -> S -> Output * World * S.

(** The outputs of the calls of a sequence, in order, and where the
    sequence leaves the world and the backend. *)
Fixpoint run (evs : list Event) (w : World) (s : S) : list Output * World * S :=
  match evs with
  | [] => ([], w, s)
  | Elapse d :: rest => run rest (elapse d w) s
  | Call op :: rest =>
      let '(out, w1, s1) := exec op w s in
      let '(outs, w2, s2) := run rest w1 s1 in
      (out :: outs, w2, s2)
  end.

(** A condition on every call of a sequence, in the state the call is
    made in. *)
Fixpoint every_call (check : Op -> World -> S -> bool)
    (evs : list Event) (w : World) (s : S) : bool :=
  match evs with
  | [] => true
  | Elapse d :: rest => every_call check rest (elapse d w) s
  | Call op :: rest =>
      check op w s &&
      (let '(_, w1, s1) := exec op w s in every_call check rest w1 s1)
  end.
End Runs.

(** *** The invariants of a dataset *)

Definition id_absent (id : uuid) (ps : list Product) : bool :=
  forallb (fun p => negb (N.eqb (ID p) id)) ps.

Fixpoint distinct_ids (ps : list Product) : bool :=
  match ps with
  | [] => true
  | p :: rest => id_absent (ID p) rest && distinct_ids rest
  end.

Definition created_before_updated (p : Product) : bool :=
  CreatedAt p <=? UpdatedAt p.

(** [created_at <= updated_at] for every product, and no id twice. *)
Definition consistent (ps : list Product) : Prop :=
  Forall (fun p => CreatedAt p <= UpdatedAt p) ps /\ NoDup (ID <$> ps).

(** The invariant that holds between calls: the dataset is consistent,
    and no product was created after the present reading of the clock. *)
Definition settled (w : World) (ps : list Product) : Prop :=
  consistent ps /\ Forall (fun p => CreatedAt p <= clock w) ps.

(** [uuid.New] hands out an id that no product of the dataset has. *)
Definition fresh_create (op : Op) (w : World)
    (r : memory.ProductMemoryRepository) : bool :=
  match op with
  | OpCreate req => id_absent (ID (ToProduct req w).1) (memory.products r)
  | _ => true
  end.

(** The invariant as a property of every sequence of calls on a new
    in-memory repository, with nothing asked of the batches handed to
    [CreateBulk]. *)
Definition consistent_after_every_sequence : Prop :=
  forall (w : World) (evs : list Event),
    every_call memory_exec fresh_create evs w memory.NewProductMemoryRepository
    = true ->
    consistent (memory.products
                  (run memory_exec evs w memory.NewProductMemoryRepository).2).

(** A batch of new ids, all different, with timestamps in order and
    not ahead of the clock. *)
Definition stamped_batch (now : Time) (ps existing : list Product) : bool :=
  distinct_ids ps &&
  forallb (fun p => id_absent (ID p) existing) ps &&
  forallb (fun p => created_before_updated p && (CreatedAt p <=? now)) ps.

Definition fresh_create_and_batch (op : Op) (w : World)
    (r : memory.ProductMemoryRepository) : bool :=
  match op with
  | OpCreate req => id_absent (ID (ToProduct req w).1) (memory.products r)
  | OpCreateBulk ps => stamped_batch (time_Now w) ps (memory.products r)
  | _ => true
  end.
End service.

(** ** float64 arithmetic

    Go's [float64] operations are those of IEEE 754 binary64 with rounding
    to nearest, ties to even. *)

Module binary64.
Definition f64_add : float64 -> float64 -> float64 := SFadd 53 1024.
Definition f64_mul : float64 -> float64 -> float64 := SFmul 53 1024.
Definition f64_leb : float64 -> float64 -> bool := SFleb.
Definition f64_ltb : float64 -> float64 -> bool := SFltb.

Definition f64_0 : float64 := S754_zero false.
Definition f64_1 : float64 := S754_finite false 4503599627370496 (-52).
Definition f64_10 : float64 := S754_finite false 5629499534213120 (-49).
Definition f64_990 : float64 := S754_finite false 8708132091985920 (-43).
Definition f64_1000 : float64 := S754_finite false 8796093022208000 (-43).

(** A float64 of the half-open interval [0.0, 1.0). *)
Definition in_unit_interval (f : float64) : bool :=
  valid_binary 53 1024 f && f64_leb f64_0 f && f64_ltb f f64_1.

(** The value [m * 2 ^ e] of a finite float in units of [2 ^ -1200], an
    integer for every exponent the proofs below meet. *)
Definition scaled (m e : Z) : Z := (m * 2 ^ (e + 1200))%Z.

(** [mrs] is what is left of [M] after [n] shifts to the right: the
    quotient, and no remainder bit set when the division was exact. *)
Definition tracks (M n : Z) (mrs : shr_record) : Prop :=
  (shr_m mrs = M / 2 ^ n /\
   (M mod 2 ^ n = 0 -> shr_r mrs = false /\ shr_s mrs = false))%Z.

(** The float [binary_round_aux] ends with, from its last mantissa and
    exponent. *)
Definition finish (m e : Z) : float64 :=
  match m with
  | Z0 => S754_zero false
  | Zpos p => if (e <=? 971)%Z then S754_finite false p e else S754_infinity false
  | Zneg _ => S754_nan
  end.
End binary64.

(** ** package utils: the random product generator *)

Module utils.
Import binary64.

Definition adjectives : list string :=
  [ "Awesome"; "Cool"; "Smart"; "Innovative"; "Premium";
    "Classic"; "Elegant"; "Advanced"; "Ultimate"; "Pro" ].

Definition productTypes : list string :=
  [ "Gadget"; "Device"; "Tool"; "Accessory"; "Electronics";
    "Appliance"; "Instrument"; "Machine"; "Equipment"; "System" ].

Record RandomProduct : Set := mkRandomProduct {
  ID : uuid;
  Name : string;
  Description : string;
  Price : float64
}.

(** [rand.Intn(n)] for a positive [n]: some index below [n]. *)
Definition rand_Intn (n : nat) (w : World) : nat * World :=
  (N.to_nat (intn_src w (rand_pos w) mod N.of_nat n),
   mkWorld (clock w) (uuid_src w) (uuid_pos w)
           (intn_src w) (float_src w) (S (rand_pos w))).

(** [rand.Float64()]: the next float of the source, which math/rand
    promises to lie in [0.0, 1.0). *)
Definition rand_Float64 (w : World) : float64 * World :=
  (float_src w (rand_pos w),
   mkWorld (clock w) (uuid_src w) (uuid_pos w)
           (intn_src w) (float_src w) (S (rand_pos w))).

(** [strings.ToLower] on the bytes of an ASCII string: the letters
    ['A'..'Z'] move to ['a'..'z'], every other byte stays. *)
Definition lower_byte (c : Ascii.ascii) : Ascii.ascii :=
  let n := Ascii.N_of_ascii c in
  if (65 <=? n)%N && (n <=? 90)%N then Ascii.ascii_of_N (n + 32) else c.

Fixpoint strings_ToLower (s : string) : string :=
  match s with
  | EmptyString => EmptyString
  | String c rest => String (lower_byte c) (strings_ToLower rest)
  end.

(** [GenerateRandomProduct].  The generator that its first line builds
    and drops has no part in what follows: [rand.Intn] and [rand.Float64]
    read the shared source.  The price is computed as on amd64, the
    product rounded before the sum. *)
Definition GenerateRandomProduct (w : World) : RandomProduct * World :=
  let '(i, w1) := rand_Intn (length adjectives) w in
  let adj := adjectives !!! i in
  let '(j, w2) := rand_Intn (length productTypes) w1 in
  let prodType := productTypes !!! j in
  let name := adj +:+ " " +:+ prodType in
  let description := "A " +:+ strings_ToLower name +:+ " designed for modern needs." in
  let '(f, w3) := rand_Float64 w2 in
  let price := f64_add f64_10 (f64_mul f f64_990) in
  let '(id, w4) := uuid_New w3 in
  (mkRandomProduct id name description price, w4).

(** The loop of [GenerateRandomProducts], slot after slot. *)
Fixpoint generate_loop (n : nat) (w : World) : list RandomProduct * World :=
  match n with
  | O => ([], w)
  | S n' =>
      let '(p, w1) := GenerateRandomProduct w in
      let '(ps, w2) := generate_loop n' w1 in
      (p :: ps, w2)
  end.

(** A [RandomProduct] occupies 56 bytes. *)
Definition sizeof_RandomProduct : Z := 56.

(** [GenerateRandomProducts]: [make] panics on a negative count and on
    one the runtime cannot allocate. *)
Definition GenerateRandomProducts (count : Z) (w : World)
  : outcome (list RandomProduct) * World :=
  if ((count <? 0) || (memory.max_alloc <? count * sizeof_RandomProduct))%Z
  then (Panic MakesliceLenOutOfRange, w)
  else
    let '(ps, w') := generate_loop (Z.to_nat count) w in (Return ps, w').

(** What the generator promises of one record drawn in world [w]. *)
Definition generated (w : World) (p : RandomProduct) : Prop :=
  (exists adj noun,
      adj ∈ adjectives /\ noun ∈ productTypes /\
      Name p = adj +:+ " " +:+ noun) /\
  Description p
    = "A " +:+ strings_ToLower (Name p) +:+ " designed for modern needs." /\
  f64_leb f64_10 (Price p) = true /\
  f64_ltb (Price p) f64_1000 = true /\
  ID p = (uuid_New w).1.

(** The world after [n] draws of an id and [3 * n] of the random source:
    where the [n]-th record of a batch is generated. *)
Definition after_records (n : nat) (w : World) : World :=
  mkWorld (clock w) (uuid_src w) (n + uuid_pos w)
          (intn_src w) (float_src w) (3 * n + rand_pos w).
End utils.

(** ** The two backends side by side *)

Module contract.
Import GoInt service.
Local Open Scope Z_scope.

Definition value_of {A} (o : outcome (result A)) : option A :=
  match o with Return (Ok a) => Some a | _ => None end.

(** A product without its id and timestamps. *)
Definition payload (p : Product) : string * string * float64 :=
  (Name p, Description p, Price p).

(** Two outputs with the same success or failure and, on success, the
    same data up to ids and timestamps. *)
Definition same_output (a b : Output) : Prop :=
  match a, b with
  | OutErr x, OutErr y => returns_ok x = returns_ok y
  | OutProduct x, OutProduct y =>
      payload <$> value_of x = payload <$> value_of y
  | OutPage x, OutPage y =>
      fmap (M := list) payload <$> value_of x
      = fmap (M := list) payload <$> value_of y
  | OutProducts x, OutProducts y =>
      fmap (M := list) payload <$> value_of x
      = fmap (M := list) payload <$> value_of y
  | OutCount x, OutCount y => value_of x = value_of y
  | _, _ => False
  end.

(** Calls a caller of either backend can make without running into the
    limits of [int] or of memory: new ids on creation, pages within
    range. *)
Definition in_range_call (op : Op) (w : World)
    (r : memory.ProductMemoryRepository) : bool :=
  match op with
  | OpCreate req => id_absent (ID (ToProduct req w).1) (memory.products r)
  | OpCreateBulk ps =>
      distinct_ids ps && forallb (fun p => id_absent (ID p) (memory.products r)) ps
  | OpList page pageSize =>
      (1 <=? page) && (page <=? max_int) && (0 <=? pageSize) &&
      (page * pageSize <=? max_int) && memory.fits (memory.len r)
  | OpGetAll => memory.fits (memory.len r)
  | _ => true
  end.

Definition outputs {S : Type} (res : list Output * World * S) : list Output :=
  res.1.1.

(** The contract as one property: on every such sequence of calls, run
    on a new repository of either kind in the same world, the two
    backends give the same outputs, the persistent one on a connection
    that never fails to a table with the columns of the schema. *)
Definition backends_agree_on_every_sequence : Prop :=
  forall (cols : postgres.Columns) (w : World) (evs : list Event),
    postgres.schema cols ->
    every_call memory_exec in_range_call evs w memory.NewProductMemoryRepository
    = true ->
    Forall2 same_output
      (outputs (run memory_exec evs w memory.NewProductMemoryRepository))
      (outputs (run postgres_exec evs w (postgres.reliable_empty cols))).

(** The table holds a row for every product of the slice and no other,
    each id once, and the connection is reliable. *)
Definition related (cols : postgres.Columns)
    (r : memory.ProductMemoryRepository)
    (db : postgres.ProductRepository) : Prop :=
  (exists rows, Forall2 (postgres.held cols) (memory.products r) rows /\
                rows ≡ₚ postgres.table db) /\
  NoDup (ID <$> memory.products r) /\
  postgres.reliable db /\
  postgres.columns db = cols.

(** Agreement up to the columns and to the order of what is returned:
    the same success or failure; from [GetByID] the row of the product;
    the same count; from [GetAll] the rows of the products in some order;
    pages of the same length from [List]. *)
Definition same_up_to_order (cols : postgres.Columns) (a b : Output) : Prop :=
  match a, b with
  | OutErr x, OutErr y => returns_ok x = returns_ok y
  | OutProduct x, OutProduct y =>
      match value_of x, value_of y with
      | Some product, Some row => postgres.held cols product row
      | None, None => True
      | _, _ => False
      end
  | OutPage x, OutPage y =>
      length (A := Product) <$> value_of x = length (A := Product) <$> value_of y
  | OutProducts x, OutProducts y =>
      match value_of x, value_of y with
      | Some l, Some k =>
          exists rows, Forall2 (postgres.held cols) l rows /\ rows ≡ₚ k
      | None, None => True
      | _, _ => False
      end
  | OutCount x, OutCount y => value_of x = value_of y
  | _, _ => False
  end.

(** [Update] is only asked for ids the dataset has. *)
Definition update_of_present (op : Op) (w : World)
    (r : memory.ProductMemoryRepository) : bool :=
  match op with
  | OpUpdate id _ => negb (id_absent id (memory.products r))
  | _ => true
  end.

Definition in_range_and_present (op : Op) (w : World)
    (r : memory.ProductMemoryRepository) : bool :=
  in_range_call op w r && update_of_present op w r.

Definition accepts {A : Type} (held : option A) : bool :=
  match held with Some _ => true | None => false end.

(** No column refuses a value of the call. *)
Definition accepted (cols : postgres.Columns) (op : Op) (w : World)
    (r : memory.ProductMemoryRepository) : bool :=
  match op with
  | OpCreate req => accepts (postgres.row_of cols (ToProduct req w).1)
  | OpCreateBulk ps => forallb (fun p => accepts (postgres.row_of cols p)) ps
  | OpUpdate _ req =>
      accepts (postgres.held_request cols req) &&
      accepts (postgres.time_column cols (time_Now w))
  | _ => true
  end.

Definition in_range_present_accepted (cols : postgres.Columns) (op : Op)
    (w : World) (r : memory.ProductMemoryRepository) : bool :=
  in_range_and_present op w r && accepted cols op w r.
End contract.

(** ** Sample data *)

Module samples.
Import binary64.
Local Open Scope Z_scope.

(** *** A server

    Columns that meet the schema: a name is cut at 255 characters when
    what is cut is blank and refused otherwise; a price is rounded to the
    nearest cent, halves away from zero; a time is rounded to the
    nearest microsecond, one just between two to the later. *)
Fixpoint all_blank (s : string) : bool :=
  match s with
  | EmptyString => true
  | String c rest => Ascii.eqb c Ascii.Space && all_blank rest
  end.

Fixpoint varchar (n : nat) (s : string) : option string :=
  match s with
  | EmptyString => Some EmptyString
  | String c rest =>
      if postgres.is_continuation c then option_map (String c) (varchar n rest)
      else
        match n with
        | O => if all_blank s then Some EmptyString else None
        | S n' => option_map (String c) (varchar n' rest)
        end
  end.

(** The number of cents of a finite [float64].  The driver sends the
    shortest decimal that reads back as the [float64], and the column
    rounds that decimal.  No other [float64] lies as close to the decimal,
    so it rounds as the exact value of the [float64] does, unless it is
    half a cent itself: which is when half a cent above the cents [below]
    reads back as the [float64]. *)
Definition nearest_cent (f : float64) : option Z :=
  match f with
  | S754_zero _ => Some 0
  | S754_finite s m e =>
      let n := 100 * Z.pos m in
      let below := if 0 <=? e then n * 2 ^ e else n / 2 ^ (- e) in
      let exact := if 0 <=? e then n * 2 ^ e
                   else (2 * n + 2 ^ (- e)) / (2 * 2 ^ (- e)) in
      let half := SFdiv 53 1024
                    (binary_normalize 53 1024 (2 * below + 1) 0 false)
                    (binary_normalize 53 1024 200 0 false) in
      let k := if SFeqb half (binary_normalize 53 1024 (Z.pos m) e false)
               then below + 1 else exact in
      Some (if s then - k else k)
  | _ => None
  end.

Definition decimal (f : float64) : option float64 :=
  match f with
  | S754_nan => Some S754_nan
  | _ =>
      match nearest_cent f with
      | Some k => if Z.abs k <? 10 ^ 10 then Some (postgres.cents k) else None
      | None => None
      end
  end.

Definition microseconds (t : Time) : option Time :=
  Some (1000 * ((t + 500) / 1000)).

Definition server : postgres.Columns :=
  postgres.mkColumns (varchar 255) Some decimal microseconds.

(** 19.5 in binary64. *)
Definition f64_19_5 : float64 := S754_finite false 5488762045857792 (-48).

(** 0.125, 10^8 and the [float64] of 2.675, which lies below 2.675, in
    binary64. *)
Definition f64_0_125 : float64 := S754_finite false 4503599627370496 (-55).
Definition f64_1e8 : float64 := S754_finite false 6710886400000000 (-26).
Definition f64_2_675 : float64 := S754_finite false 6023564501608038 (-51).

Definition x16 : string := "xxxxxxxxxxxxxxxx".
Definition x64 : string := x16 +:+ x16 +:+ x16 +:+ x16.
(** A name of 256 characters. *)
Definition x256 : string := x64 +:+ x64 +:+ x64 +:+ x64.

Definition widget : ProductRequest := mkRequest "Widget" "" f64_1.
Definition widget_pro : ProductRequest := mkRequest "Widget Pro" "upgraded" f64_19_5.

(** A world whose clock reads 1000, whose ids count up from 1, and whose
    random source yields the halves of the unit interval. *)
Definition world0 : World :=
  mkWorld 1000%Z (fun n => N.of_nat (S n)) 0
          (fun n => N.of_nat n) (fun _ => S754_finite false 4503599627370496 (-53)) 0.

Definition gadget : Product := mkProduct 50%N "Cool Gadget" "" f64_1 900%Z 900%Z.
Definition device : Product := mkProduct 51%N "Smart Device" "" f64_1 950%Z 990%Z.
(** The rows the server holds for them, and a later row. *)
Definition gadget_row : Product :=
  mkProduct 50%N "Cool Gadget" "" f64_1 1000%Z 1000%Z.
Definition device_row : Product :=
  mkProduct 51%N "Smart Device" "" f64_1 1000%Z 1000%Z.
Definition late_row : Product :=
  mkProduct 52%N "Pro Tool" "" f64_19_5 3000%Z 4000%Z.
(** A second product under the id of [gadget]. *)
Definition gadget_twin : Product := mkProduct 50%N "Pro Tool" "" f64_19_5 900%Z 900%Z.

(** A product stamped ahead of the clock of [world0], one updated before
    it was created, and an update of the first. *)
Definition early_bird : Product := mkProduct 60%N "Pro System" "" f64_1 2000%Z 2000%Z.
Definition backdated : Product := mkProduct 61%N "Pro Machine" "" f64_1 900%Z 800%Z.
Definition stamp_then_update : list Event :=
  [ Call (OpCreateBulk [early_bird]); Call (OpUpdate 60%N widget_pro) ].

(** The same batch twice. *)
Definition batch_twice : list Event :=
  [ Call (OpCreateBulk [gadget]); Call (OpCreateBulk [gadget]) ].

(** Two creations five milliseconds apart, then the first page of size
    one. *)
Definition two_then_first_page : list Event :=
  [ Call (OpCreate widget); Elapse 5000000; Call (OpCreate widget_pro);
    Call (OpList 1 1) ].

(** A product at a price the price column cannot hold, a request under a
    name the name column cannot hold, and a request at an eighth. *)
Definition overpriced : Product :=
  mkProduct 70%N "Pro Gadget" "" f64_1e8 900%Z 900%Z.
Definition long_named : ProductRequest := mkRequest x256 "" f64_1.
Definition eighth : ProductRequest := mkRequest "Widget" "" f64_0_125.

Definition create_long_named : list Event := [ Call (OpCreate long_named) ].
Definition create_eighth_then_get : list Event :=
  [ Call (OpCreate eighth); Call (OpGetByID 1%N) ].

(** An update of an id that no product has. *)
Definition update_of_nothing : list Event := [ Call (OpUpdate 7%N widget_pro) ].

Definition session : list Event :=
  [ Call (OpCreate widget); Elapse 5; Call (OpUpdate 1%N widget_pro);
    Call (OpCreateBulk [gadget; device]); Call (OpGetByID 1%N);
    Call (OpList 1 10); Call OpGetAll; Call (OpDelete 50%N);
    Call OpCount; Call (OpCreate widget); Call OpDeleteAll ].
End samples.

(** ** package repository: bulk generation

    [GenerateAndSaveBulkProducts] of either backend draws [count] records
    from the generator, turns each into a [Product] in a slice made for
    them, and hands the batch to [CreateBulk]. *)

Module memory_generate.
Import memory.
Local Open Scope Z_scope.

(** The loop [for i, rp := range randomProducts { products[i] = ... }]
    from slot [i] on; every product is stamped with the one reading
    [now] of the clock. *)
Fixpoint convert_loop (i : nat) (randomProducts : list utils.RandomProduct)
    (now : Time) (products : list Product) : list Product :=
  match randomProducts with
  | [] => products
  | rp :: rest =>
      convert_loop (S i) rest now
        (<[i := mkProduct (utils.ID rp) (utils.Name rp) (utils.Description rp)
                          (utils.Price rp) now now]> products)
  end.

(** [GenerateAndSaveBulkProducts] of [ProductMemoryRepository] *)
Definition GenerateAndSaveBulkProducts (r : ProductMemoryRepository)
    (count : Z) (w : World)
  : outcome (result unit) * World * ProductMemoryRepository :=
  match utils.GenerateRandomProducts count w with
  | (Panic p, w1) => (Panic p, w1, r)
  | (Return randomProducts, w1) =>
      match make (Z.of_nat (length randomProducts)) with
      | Panic p => (Panic p, w1, r)
      | Return products =>
          let now := time_Now w1 in
          let products := convert_loop 0 randomProducts now products in
          let '(res, r') := CreateBulk r products in
          (Return res, w1, r')
      end
  end.
End memory_generate.

Module postgres_generate.
Import postgres.
Local Open Scope Z_scope.

(** The clock read once more within a call: before the [k]-th such
    reading [ticks k] nanoseconds pass. *)
Definition time_Now_again (ticks : nat -> N) (k : nat) (w : World)
  : Time * World :=
  let w' := elapse (ticks k) w in (time_Now w', w').

(** The loop [for i, rp := range randomProducts { products[i] = ... }]
    from slot [i] on; the struct literal reads the clock twice, first for
    [CreatedAt], then for [UpdatedAt]. *)
Fixpoint convert_loop (ticks : nat -> N) (i : nat)
    (randomProducts : list utils.RandomProduct) (w : World)
    (products : list Product) : list Product * World :=
  match randomProducts with
  | [] => (products, w)
  | rp :: rest =>
      let '(created, w1) := time_Now_again ticks (2 * i) w in
      let '(updated, w2) := time_Now_again ticks (2 * i + 1) w1 in
      convert_loop ticks (S i) rest w2
        (<[i := mkProduct (utils.ID rp) (utils.Name rp) (utils.Description rp)
                          (utils.Price rp) created updated]> products)
  end.

(** [GenerateAndSaveBulkProducts] of [ProductRepository] *)
Definition GenerateAndSaveBulkProducts (db : ProductRepository)
    (count : Z) (ticks : nat -> N) (w : World)
  : outcome (result unit) * World * ProductRepository :=
  match utils.GenerateRandomProducts count w with
  | (Panic p, w1) => (Panic p, w1, db)
  | (Return randomProducts, w1) =>
      match memory.make (Z.of_nat (length randomProducts)) with
      | Panic p => (Panic p, w1, db)
      | Return products =>
          let '(products, w2) := convert_loop ticks 0 randomProducts w1 products in
          let '(res, db') := CreateBulk db products in
          (Return res, w2, db')
      end
  end.
End postgres_generate.

(** ** package handler

    A handler reads its request through [echo.Context] and answers with
    [c.JSON(status, body)].  A request is given here by the outcomes of
    the library calls a handler makes on it; an answer is the status and
    the Go value handed to [c.JSON].  How that value is encoded and
    written, and what the loggers print, is not part of the model.  A
    handler is taken alone: no other request changes the dataset between
    two calls it makes on its repository. *)

Module echo.
Local Open Scope Z_scope.

(** What [strconv.Atoi] returned: the number, and whether [err != nil]. *)
Record Atoi : Set := mkAtoi { atoi_int : Z; atoi_err : bool }.

(** [Param_id] is [uuid.Parse(c.Param("id"))], [None] when it returns an
    error; [Bind] is the request that [c.Bind(&req)] fills, [None] when
    it returns an error; [Validate] is [c.Validate(&req)], [None] for
    [nil] and the [Error()] text otherwise; the last three are
    [strconv.Atoi] of the query parameters of those names. *)
Record Context : Type := mkContext {
  Param_id : option uuid;
  Bind : option ProductRequest;
  Validate : ProductRequest -> option string;
  QueryParam_page : Atoi;
  QueryParam_pageSize : Atoi;
  QueryParam_count : Atoi
}.

(** The values the handlers hand to [c.JSON]. *)
Inductive Body : Type :=
  | ErrorJSON (error : string)      (* map[string]string{"error": ...} *)
  | MessageJSON (message : string)  (* map[string]string{"message": ...} *)
  | ProductJSON (product : Product)
  | PageJSON (products : list Product) (page pageSize totalCount : Z)
  | ListJSON (products : list Product) (page pageSize : Z)
  | ProductsJSON (products : list Product)
  | GeneratedJSON (message : string) (count totalCount : Z)
  | CountJSON (totalCount : Z).

Record Response : Type := mkResponse { Status : Z; JSON : Body }.

Definition StatusOK : Z := 200.
Definition StatusCreated : Z := 201.
Definition StatusBadRequest : Z := 400.
Definition StatusNotFound : Z := 404.
Definition StatusUnprocessableEntity : Z := 422.
Definition StatusInternalServerError : Z := 500.

(** The page a list handler asks for: [if page < 1 { page = 1 }]. *)
Definition page_of (c : Context) : Z :=
  let page := atoi_int (QueryParam_page c) in
  if page <? 1 then 1 else page.

(** [if pageSize < 1 || pageSize > 100 { pageSize = 10 }] *)
Definition pageSize_of (c : Context) : Z :=
  let pageSize := atoi_int (QueryParam_pageSize c) in
  if (pageSize <? 1) || (100 <? pageSize) then 10 else pageSize.

(** [if err != nil || count < 1 || count > 10000 { count = 1000 }] *)
Definition count_of (c : Context) : Z :=
  let count := atoi_int (QueryParam_count c) in
  if atoi_err (QueryParam_count c) || (count <? 1) || (10000 <? count)
  then 1000 else count.
End echo.

(** *** [ProductMemoryHandler] *)

Module memory_handler.
Import echo memory.
Local Open Scope Z_scope.

Definition CreateProduct (c : Context) (w : World) (r : ProductMemoryRepository)
  : Response * World * ProductMemoryRepository :=
  match Bind c with
  | None =>
      (mkResponse StatusBadRequest (ErrorJSON "Invalid request payload"), w, r)
  | Some req =>
      match Validate c req with
      | Some msg => (mkResponse StatusUnprocessableEntity (ErrorJSON msg), w, r)
      | None =>
          let '(product, w') := ToProduct req w in
          match Create r product with
          | (Err _, r') =>
              (mkResponse StatusInternalServerError
                          (ErrorJSON "Failed to create product"), w', r')
          | (Ok _, r') => (mkResponse StatusCreated (ProductJSON product), w', r')
          end
      end
  end.

Definition GetProduct (c : Context) (r : ProductMemoryRepository) : Response :=
  match Param_id c with
  | None => mkResponse StatusBadRequest (ErrorJSON "Invalid product ID")
  | Some id =>
      match GetByID r id with
      | Err _ => mkResponse StatusNotFound (ErrorJSON "Product not found")
      | Ok product => mkResponse StatusOK (ProductJSON product)
      end
  end.

Definition ListProducts (c : Context) (r : ProductMemoryRepository)
  : outcome Response :=
  let page := page_of c in
  let pageSize := pageSize_of c in
  match List r page pageSize with
  | Panic p => Panic p
  | Return (Err _) =>
      Return (mkResponse StatusInternalServerError
                         (ErrorJSON "Failed to retrieve products"))
  | Return (Ok products) =>
      let totalCount := match Count r with Ok n => n | Err _ => 0 end in
      Return (mkResponse StatusOK (PageJSON products page pageSize totalCount))
  end.

Definition GetAllProducts (r : ProductMemoryRepository) : outcome Response :=
  match GetAll r with
  | Panic p => Panic p
  | Return (Err _) =>
      Return (mkResponse StatusInternalServerError
                         (ErrorJSON "Failed to retrieve products"))
  | Return (Ok products) =>
      let totalCount := Z.of_nat (length products) in
      Return (mkResponse StatusOK (PageJSON products 1 totalCount totalCount))
  end.

Definition UpdateProduct (c : Context) (w : World) (r : ProductMemoryRepository)
  : Response * ProductMemoryRepository :=
  match Param_id c with
  | None => (mkResponse StatusBadRequest (ErrorJSON "Invalid product ID"), r)
  | Some id =>
      match Bind c with
      | None =>
          (mkResponse StatusBadRequest (ErrorJSON "Invalid request payload"), r)
      | Some req =>
          match Validate c req with
          | Some msg => (mkResponse StatusUnprocessableEntity (ErrorJSON msg), r)
          | None =>
              match Update r id req w with
              | (Err _, r') =>
                  (mkResponse StatusInternalServerError
                              (ErrorJSON "Failed to update product"), r')
              | (Ok _, r') =>
                  match GetByID r' id with
                  | Err _ =>
                      (mkResponse StatusInternalServerError
                                  (ErrorJSON "Failed to retrieve updated product"),
                       r')
                  | Ok updatedProduct =>
                      (mkResponse StatusOK (ProductJSON updatedProduct), r')
                  end
              end
          end
      end
  end.

Definition DeleteProduct (c : Context) (r : ProductMemoryRepository)
  : Response * ProductMemoryRepository :=
  match Param_id c with
  | None => (mkResponse StatusBadRequest (ErrorJSON "Invalid product ID"), r)
  | Some id =>
      match Delete r id with
      | (Err _, r') =>
          (mkResponse StatusInternalServerError
                      (ErrorJSON "Failed to delete product"), r')
      | (Ok _, r') =>
          (mkResponse StatusOK
                      (MessageJSON "Product deleted successfully from memory"), r')
      end
  end.

Definition BulkGenerateProducts (c : Context) (w : World)
    (r : ProductMemoryRepository)
  : outcome Response * World * ProductMemoryRepository :=
  let count := count_of c in
  match memory_generate.GenerateAndSaveBulkProducts r count w with
  | (Panic p, w', r') => (Panic p, w', r')
  | (Return (Err _), w', r') =>
      (Return (mkResponse StatusInternalServerError
                          (ErrorJSON "Failed to generate products")), w', r')
  | (Return (Ok _), w', r') =>
      let totalCount := match Count r' with Ok n => n | Err _ => 0 end in
      (Return (mkResponse StatusCreated
                 (GeneratedJSON "Products generated successfully in memory"
                                count totalCount)), w', r')
  end.

Definition DeleteAllProducts (r : ProductMemoryRepository)
  : Response * ProductMemoryRepository :=
  match DeleteAll r with
  | (Err _, r') =>
      (mkResponse StatusInternalServerError
                  (ErrorJSON "Failed to delete all products"), r')
  | (Ok _, r') =>
      (mkResponse StatusOK
                  (MessageJSON "All products deleted successfully from memory"), r')
  end.

Definition GetProductCount (r : ProductMemoryRepository) : Response :=
  match Count r with
  | Err _ =>
      mkResponse StatusInternalServerError
                 (ErrorJSON "Failed to retrieve product count")
  | Ok totalCount => mkResponse StatusOK (CountJSON totalCount)
  end.
End memory_handler.

(** *** [ProductHandler] *)

Module handler.
Import echo postgres.
Local Open Scope Z_scope.

Definition CreateProduct (c : Context) (w : World) (db : ProductRepository)
  : Response * World * ProductRepository :=
  match Bind c with
  | None =>
      (mkResponse StatusBadRequest (ErrorJSON "Invalid request payload"), w, db)
  | Some req =>
      match Validate c req with
      | Some msg => (mkResponse StatusUnprocessableEntity (ErrorJSON msg), w, db)
      | None =>
          let '(product, w') := ToProduct req w in
          match Create db product with
          | (Err _, db') =>
              (mkResponse StatusInternalServerError
                          (ErrorJSON "Failed to create product"), w', db')
          | (Ok _, db') => (mkResponse StatusCreated (ProductJSON product), w', db')
          end
      end
  end.

Definition GetProduct (c : Context) (db : ProductRepository)
  : Response * ProductRepository :=
  match Param_id c with
  | None => (mkResponse StatusBadRequest (ErrorJSON "Invalid product ID"), db)
  | Some id =>
      match GetByID db id with
      | (Err _, db') =>
          (mkResponse StatusNotFound (ErrorJSON "Product not found"), db')
      | (Ok product, db') => (mkResponse StatusOK (ProductJSON product), db')
      end
  end.

Definition ListProducts (c : Context) (db : ProductRepository)
  : Response * ProductRepository :=
  let page := page_of c in
  let pageSize := pageSize_of c in
  match List db page pageSize with
  | (Err _, db') =>
      (mkResponse StatusInternalServerError
                  (ErrorJSON "Failed to retrieve products"), db')
  | (Ok products, db') =>
      (mkResponse StatusOK (ListJSON products page pageSize), db')
  end.

(** [GetAllProducts] asks [List] for page 1 of size 100000. *)
Definition GetAllProducts (db : ProductRepository)
  : Response * ProductRepository :=
  match List db 1 100000 with
  | (Err _, db') =>
      (mkResponse StatusInternalServerError
                  (ErrorJSON "Failed to retrieve products"), db')
  | (Ok products, db') => (mkResponse StatusOK (ProductsJSON products), db')
  end.

Definition UpdateProduct (c : Context) (w : World) (db : ProductRepository)
  : Response * ProductRepository :=
  match Param_id c with
  | None => (mkResponse StatusBadRequest (ErrorJSON "Invalid product ID"), db)
  | Some id =>
      match Bind c with
      | None =>
          (mkResponse StatusBadRequest (ErrorJSON "Invalid request payload"), db)
      | Some req =>
          match Validate c req with
          | Some msg => (mkResponse StatusUnprocessableEntity (ErrorJSON msg), db)
          | None =>
              match Update db id req w with
              | (Err _, db1) =>
                  (mkResponse StatusInternalServerError
                              (ErrorJSON "Failed to update product"), db1)
              | (Ok _, db1) =>
                  match GetByID db1 id with
                  | (Err _, db2) =>
                      (mkResponse StatusInternalServerError
                                  (ErrorJSON "Failed to retrieve updated product"),
                       db2)
                  | (Ok updatedProduct, db2) =>
                      (mkResponse StatusOK (ProductJSON updatedProduct), db2)
                  end
              end
          end
      end
  end.

Definition DeleteProduct (c : Context) (db : ProductRepository)
  : Response * ProductRepository :=
  match Param_id c with
  | None => (mkResponse StatusBadRequest (ErrorJSON "Invalid product ID"), db)
  | Some id =>
      match Delete db id with
      | (Err _, db') =>
          (mkResponse StatusInternalServerError
                      (ErrorJSON "Failed to delete product"), db')
      | (Ok _, db') =>
          (mkResponse StatusOK (MessageJSON "Product deleted successfully"), db')
      end
  end.

Definition BulkGenerateProducts (c : Context) (ticks : nat -> N) (w : World)
    (db : ProductRepository)
  : outcome Response * World * ProductRepository :=
  let count := count_of c in
  match postgres_generate.GenerateAndSaveBulkProducts db count ticks w with
  | (Panic p, w', db1) => (Panic p, w', db1)
  | (Return (Err _), w', db1) =>
      (Return (mkResponse StatusInternalServerError
                          (ErrorJSON "Failed to generate products")), w', db1)
  | (Return (Ok _), w', db1) =>
      let '(counted, db2) := Count db1 in
      let totalCount := match counted with Ok n => n | Err _ => 0 end in
      (Return (mkResponse StatusCreated
                 (GeneratedJSON "Products generated successfully"
                                count totalCount)), w', db2)
  end.

Definition DeleteAllProducts (db : ProductRepository)
  : Response * ProductRepository :=
  match DeleteAll db with
  | (Err _, db') =>
      (mkResponse StatusInternalServerError
                  (ErrorJSON "Failed to delete all products"), db')
  | (Ok _, db') =>
      (mkResponse StatusOK (MessageJSON "All products deleted successfully"), db')
  end.
End handler.

(** ** package database *)

Module database.
Local Open Scope Z_scope.

Record Config : Set := mkConfig {
  Host : string;
  Port : string;
  User : string;
  Password : string;
  DBName : string;
  SSLMode : string
}.

(** [getEnv]; [os_Getenv] is the environment of the process, which
    yields the empty string for a variable that is not set. *)
Definition getEnv (os_Getenv : string -> string) (key defaultValue : string)
  : string :=
  let value := os_Getenv key in
  if String.eqb value "" then defaultValue else value.

Definition config_of (os_Getenv : string -> string) : Config :=
  mkConfig (getEnv os_Getenv "DB_HOST" "localhost")
           (getEnv os_Getenv "DB_PORT" "5432")
           (getEnv os_Getenv "DB_USER" "productuser")
           (getEnv os_Getenv "DB_PASSWORD" "productpass")
           (getEnv os_Getenv "DB_NAME" "productdb")
           (getEnv os_Getenv "DB_SSLMODE" "disable").

(** [fmt.Sprintf("host=%s port=%s user=%s password=%s dbname=%s sslmode=%s", ...)] *)
Definition connStr (config : Config) : string :=
  "host=" +:+ Host config +:+ " port=" +:+ Port config +:+
  " user=" +:+ User config +:+ " password=" +:+ Password config +:+
  " dbname=" +:+ DBName config +:+ " sslmode=" +:+ SSLMode config.

(** One attempt to connect: whether [sqlx.Open] returned without error,
    and whether [db.Ping] did. *)
Record Attempt : Set := mkAttempt { opened : bool; pinged : bool }.

(** How [NewConnection] ends: with the connection of some attempt, or in
    [log.Fatalf]. *)
Inductive Connection : Set :=
  | Connected (attempt : nat)
  | Fatal.

Definition maxRetries : nat := 10.

(** The loop [for i := 0; i < maxRetries; i++] from attempt [i] on, with
    [remaining = maxRetries - i]; [slept] counts the seconds spent in
    [time.Sleep]. *)
Fixpoint retry_loop (dial : nat -> Attempt) (remaining i : nat) (slept : Z)
  : Connection * Z :=
  match remaining with
  | O => (Fatal, slept)
  | S remaining' =>
      if negb (opened (dial i)) then retry_loop dial remaining' (S i) (slept + 5)
      else if pinged (dial i) then (Connected i, slept)
      else retry_loop dial remaining' (S i) (slept + 5)
  end.

(** [NewConnection]; [dial] answers for the connection string and the
    number of the attempt. *)
Definition NewConnection (os_Getenv : string -> string)
    (dial : string -> nat -> Attempt) : Connection * Z :=
  retry_loop (dial (connStr (config_of os_Getenv))) maxRetries 0 0.
End database.

(** ** What the theorems on whole calls speak of *)

Module outcomes.
Import service echo.

(** A call that returned without an error. *)
Definition succeeded (out : Output) : bool :=
  match out with
  | OutErr o => returns_ok o
  | OutProduct o => returns_ok o
  | OutPage o => returns_ok o
  | OutProducts o => returns_ok o
  | OutCount o => returns_ok o
  end.

(** The calls that only read. *)
Definition reads (op : Op) : bool :=
  match op with
  | OpGetByID _ | OpList _ _ | OpGetAll | OpCount => true
  | _ => false
  end.

(** Newest first: no row is older than one after it. *)
Definition newest_first (rows : list Product) : Prop :=
  forall i j a b,
    (i < j)%nat -> rows !! i = Some a -> rows !! j = Some b ->
    (CreatedAt b <= CreatedAt a)%Z.

(** An answer that turns the request down: 400 or 422. *)
Definition rejected (resp : Response) : Prop :=
  Status resp = StatusBadRequest \/ Status resp = StatusUnprocessableEntity.
End outcomes.

(** * Theorems *)

(** ** Facts about Go's [int] *)

Module GoIntFacts.
Import GoInt.
Local Open Scope Z_scope.

(** Goals about the range of [int]. *)
Ltac int_range := unfold is_int, min_int, max_int in *; first [lia | nia].

Lemma wrap_small z : is_int z -> wrap z = z.
Proof.
  unfold is_int, wrap, min_int, max_int. intros H.
  rewrite Z.mod_small by lia. lia.
Qed.

Lemma wrap_is_int z : is_int (wrap z).
Proof.
  unfold is_int, wrap, min_int, max_int.
  pose proof (Z.mod_pos_bound (z + 2 ^ 63) (2 ^ 64)). lia.
Qed.
End GoIntFacts.

(** ** Pagination of the in-memory backend *)

Module memory_list.
Import GoInt GoIntFacts memory.
Local Open Scope Z_scope.

Lemma copy_fresh (n : nat) (src : list Product) :
  length src = n -> copy (replicate n zeroProduct) src = src.
Proof.
  intros <-. unfold copy. rewrite length_replicate.
  rewrite firstn_all, drop_ge by (rewrite length_replicate; lia).
  apply app_nil_r.
Qed.

Lemma fits_mono (a b : Z) : a <= b -> fits b = true -> fits a = true.
Proof. unfold fits, sizeof_Product. intros ? ?%Z.leb_le. apply Z.leb_le. lia. Qed.

Lemma make_ok (n : Z) :
  0 <= n -> fits n = true -> make n = Return (replicate (Z.to_nat n) zeroProduct).
Proof.
  intros Hn Hf. unfold make. rewrite Hf.
  destruct (Z.ltb_spec n 0); [lia | reflexivity].
Qed.

Lemma slice_expr_ok (s : list Product) (lo hi : Z) :
  0 <= lo <= hi -> hi <= Z.of_nat (length s) ->
  slice_expr s lo hi = Return (take (Z.to_nat (hi - lo)) (drop (Z.to_nat lo) s)).
Proof.
  intros [H1 H2] H3. unfold slice_expr.
  destruct (Z.leb_spec 0 lo); [| lia].
  destruct (Z.leb_spec lo hi); [| lia].
  destruct (Z.leb_spec hi (Z.of_nat (length s))); [reflexivity | lia].
Qed.

(** Without overflow the two indices are the mathematical ones. *)
Lemma startIndex_exact (page pageSize : Z) :
  is_int page -> is_int (page - 1) -> is_int ((page - 1) * pageSize) ->
  startIndex page pageSize = (page - 1) * pageSize.
Proof.
  intros Hp Hp1 Hm. unfold startIndex, int_mul, int_sub.
  rewrite (wrap_small (page - 1)) by assumption. now apply wrap_small.
Qed.

Lemma endIndex_exact (page pageSize : Z) :
  is_int page -> is_int (page - 1) -> is_int ((page - 1) * pageSize) ->
  is_int (page * pageSize) ->
  endIndex page pageSize = page * pageSize.
Proof.
  intros Hp Hp1 Hm He. unfold endIndex, int_add.
  rewrite startIndex_exact by assumption.
  replace ((page - 1) * pageSize + pageSize) with (page * pageSize) by lia.
  now apply wrap_small.
Qed.

(** What [List] returns when the page arithmetic does not overflow: the
    half-open slice of the collection, cut at its end. *)
Lemma List_in_range (r : ProductMemoryRepository) (page pageSize : Z) :
  well_formed r ->
  1 <= page -> is_int page -> 0 <= pageSize -> page * pageSize <= max_int ->
  List r page pageSize
  = Return (Ok (take (Z.to_nat pageSize)
                     (drop (Z.to_nat ((page - 1) * pageSize)) (products r)))).
Proof.
  intros Hwf Hpage Hint Hsize Hmax.
  assert (Hp1 : is_int (page - 1)) by int_range.
  assert (Hlo : 0 <= (page - 1) * pageSize) by nia.
  assert (Hm : is_int ((page - 1) * pageSize))
    by int_range.
  assert (He : is_int (page * pageSize))
    by int_range.
  unfold List, List_indices.
  rewrite endIndex_exact, startIndex_exact by assumption.
  set (s := (page - 1) * pageSize) in *.
  destruct (Z.leb_spec (len r) s) as [Hge | Hlt].
  - rewrite drop_ge by (unfold len in Hge; lia). now rewrite take_nil.
  - set (e := if len r <? page * pageSize then len r else page * pageSize).
    assert (Hs_e : s <= e <= len r /\ e <= page * pageSize).
    { unfold e. destruct (Z.ltb_spec (len r) (page * pageSize)); lia. }
    assert (He' : is_int (e - s))
      by int_range.
    unfold int_sub. rewrite (wrap_small _ He').
    rewrite make_ok; [| lia | apply (fits_mono _ (len r)); [lia | exact Hwf]].
    rewrite slice_expr_ok by (unfold len in *; lia).
    rewrite copy_fresh.
    + do 2 f_equal. unfold e.
      destruct (Z.ltb_spec (len r) (page * pageSize)) as [Hcut | Hfull].
      * rewrite !take_ge; [reflexivity | |]; rewrite length_drop;
          unfold len in *; lia.
      * f_equal. lia.
    + rewrite length_take, length_drop. unfold len in *. lia.
Qed.

(** The first page holds the whole collection when it is large enough,
    and a page that starts at or after the end is empty. *)
Lemma List_first_page_all (r : ProductMemoryRepository) (pageSize : Z) :
  well_formed r -> is_int pageSize -> len r <= pageSize ->
  List r 1 pageSize = Return (Ok (products r)).
Proof.
  intros Hwf Hint Hlen. pose proof (Nat2Z.is_nonneg (length (products r))).
  unfold len in Hlen.
  rewrite List_in_range by (try assumption; int_range).
  change (Z.to_nat ((1 - 1) * pageSize)) with 0%nat.
  rewrite drop_0, take_ge by lia. reflexivity.
Qed.

Lemma List_beyond_end (r : ProductMemoryRepository) (page pageSize : Z) :
  well_formed r ->
  1 <= page -> is_int page -> 0 <= pageSize -> page * pageSize <= max_int ->
  len r <= (page - 1) * pageSize ->
  List r page pageSize = Return (Ok []).
Proof.
  intros Hwf Hpage Hint Hsize Hmax Hlen. unfold len in Hlen.
  rewrite List_in_range by assumption.
  rewrite drop_ge by lia. now rewrite take_nil.
Qed.

Example List_five_of_five (a b c d e : Product) :
  List (mkRepo [a; b; c; d; e]) 1 10 = Return (Ok [a; b; c; d; e]).
Proof. reflexivity. Qed.

Example List_page_100_of_five (a b c d e : Product) :
  List (mkRepo [a; b; c; d; e]) 100 10 = Return (Ok []).
Proof. reflexivity. Qed.
End memory_list.

(** ** Where the page arithmetic of [List] leaves the range of [int] *)

Module memory_list_overflow.
Import GoInt GoIntFacts memory memory_list paging.
Local Open Scope Z_scope.

Lemma len_nonneg (r : ProductMemoryRepository) : 0 <= len r.
Proof. unfold len. lia. Qed.

(** C2: [List] does not return the empty page for every [page >= 1] and
    [pageSize >= 1].  At [page = 9223372036854775807], [pageSize = 100] the
    product [(page - 1) * pageSize] wraps to [-200]; neither bounds check
    catches a negative start, and the slice expression panics, whatever
    the repository holds. *)
Theorem List_panics_at_max_page (r : ProductMemoryRepository) :
  List r max_int 100 = Panic SliceBoundsOutOfRange.
Proof.
  unfold List, List_indices.
  change (startIndex max_int 100) with (-200).
  change (endIndex max_int 100) with (-100).
  pose proof (len_nonneg r) as Hlen.
  destruct (Z.leb_spec (len r) (-200)); [lia |].
  destruct (Z.ltb_spec (len r) (-100)); [lia |].
  reflexivity.
Qed.

(** C10, as stated, fails in both halves: a page beyond the range of the
    multiplication gives a negative start although [page >= 1], and the
    smallest [int] as page gives the largest start, so [List] returns the
    empty page although [page <= 0]. *)
Lemma List_total_iff_positive_fails :
  ~ indices_in_bounds_for_all_positive /\ ~ panics_for_all_nonpositive.
Proof.
  split.
  - intros H.
    assert (Hwf : well_formed NewProductMemoryRepository) by reflexivity.
    destruct (H NewProductMemoryRepository max_int 100 (-200) (-100) Hwf)
      as [Hs _]; try reflexivity; int_range.
  - intros H.
    assert (Hwf : well_formed NewProductMemoryRepository) by reflexivity.
    destruct (H NewProductMemoryRepository min_int 1 Hwf) as [Hs _];
      try int_range.
    vm_compute in Hs. discriminate.
Qed.

(** C10, amended: with products that stay within [int], [page >= 1] and
    [pageSize >= 0] give indices with [0 <= startIndex <= endIndex <= n]
    and [List] returns; [page <= 0] with [pageSize >= 1] gives a negative
    [startIndex] and [List] panics. *)
Theorem List_total_iff_positive (r : ProductMemoryRepository)
    (page pageSize : Z) :
  well_formed r -> is_int page -> is_int pageSize ->
  (1 <= page -> 0 <= pageSize -> page * pageSize <= max_int ->
     (forall s e, List_indices r page pageSize = Some (s, e) ->
                  0 <= s <= e /\ e <= len r) /\
     returns_ok (List r page pageSize) = true) /\
  (page <= 0 -> 1 <= pageSize -> min_int <= (page - 1) * pageSize ->
     startIndex page pageSize < 0 /\
     exists p, List r page pageSize = Panic p).
Proof.
  intros Hwf Hpage Hsize. split.
  - intros Hp Hs Hmax. split.
    + intros s e. unfold List_indices.
      assert (Hp1 : is_int (page - 1))
        by int_range.
      assert (Hm : is_int ((page - 1) * pageSize))
        by int_range.
      assert (He : is_int (page * pageSize))
        by int_range.
      rewrite endIndex_exact, startIndex_exact by assumption.
      destruct (Z.leb_spec (len r) ((page - 1) * pageSize)); [discriminate |].
      destruct (Z.ltb_spec (len r) (page * pageSize));
        intros [= <- <-]; nia.
    + now rewrite List_in_range.
  - intros Hp Hs Hmin.
    assert (Hp1 : is_int (page - 1))
      by int_range.
    assert (Hm : is_int ((page - 1) * pageSize))
      by int_range.
    assert (He : is_int (page * pageSize))
      by int_range.
    pose proof (len_nonneg r) as Hlen.
    unfold List, List_indices.
    rewrite endIndex_exact, startIndex_exact by assumption.
    split; [nia |].
    destruct (Z.leb_spec (len r) ((page - 1) * pageSize)); [nia |].
    destruct (Z.ltb_spec (len r) (page * pageSize)); [nia |].
    destruct (make _); [| eauto].
    unfold slice_expr.
    destruct (Z.leb_spec 0 ((page - 1) * pageSize)); [nia |].
    simpl. eauto.
Qed.

Lemma List_total_iff_positive_witness :
  ((forall s e, List_indices (mkRepo [zeroProduct]) 1 10 = Some (s, e) ->
                0 <= s <= e /\ e <= len (mkRepo [zeroProduct])) /\
   returns_ok (List (mkRepo [zeroProduct]) 1 10) = true) /\
  (startIndex 0 10 < 0 /\
   exists p, List (mkRepo [zeroProduct]) 0 10 = Panic p).
Proof.
  split.
  - apply (List_total_iff_positive (mkRepo [zeroProduct]) 1 10);
      try reflexivity; int_range.
  - apply (List_total_iff_positive (mkRepo [zeroProduct]) 0 10);
      try reflexivity; int_range.
Defined.
End memory_list_overflow.

(** ** The linear scans of the in-memory backend *)

Module memory_scan.
Import memory.

Lemma scan_found (id : uuid) (l1 l2 : list Product) (p : Product) :
  Forall (other_id id) l1 -> ID p = id ->
  scan id (l1 ++ p :: l2) = Some (length l1).
Proof.
  intros Hl1 Hp. induction Hl1 as [| q l1 Hq _ IH]; simpl.
  - now rewrite Hp, N.eqb_refl.
  - destruct (N.eqb_spec (ID q) id) as [Heq | _]; [now destruct Hq |].
    now rewrite IH.
Qed.

Lemma scan_absent (id : uuid) (ps : list Product) :
  Forall (other_id id) ps -> scan id ps = None.
Proof.
  induction 1 as [| q ps Hq _ IH]; simpl; [reflexivity |].
  destruct (N.eqb_spec (ID q) id) as [Heq | _]; [now destruct Hq |].
  now rewrite IH.
Qed.

(** The scan stops at the first product with the id, or not at all. *)
Lemma scan_cases (id : uuid) (ps : list Product) :
  (exists l1 p l2, ps = l1 ++ p :: l2 /\ Forall (other_id id) l1 /\ ID p = id)
  \/ Forall (other_id id) ps.
Proof.
  induction ps as [| q ps IH].
  - right. constructor.
  - destruct (N.eq_dec (ID q) id) as [Heq | Hne].
    + left. exists [], q, ps. auto.
    + destruct IH as [(l1 & p & l2 & -> & Hl1 & Hp) | Hall].
      * left. exists (q :: l1), p, l2. repeat split; auto.
      * right. now constructor.
Qed.

Lemma GetByID_loop_found (id : uuid) (l1 l2 : list Product) (p : Product) :
  Forall (other_id id) l1 -> ID p = id ->
  GetByID_loop id (l1 ++ p :: l2) = Ok p.
Proof.
  intros Hl1 Hp. induction Hl1 as [| q l1 Hq _ IH]; simpl.
  - now rewrite Hp, N.eqb_refl.
  - destruct (N.eqb_spec (ID q) id) as [Heq | _]; [now destruct Hq | exact IH].
Qed.

Lemma GetByID_loop_absent (id : uuid) (ps : list Product) :
  Forall (other_id id) ps -> GetByID_loop id ps = Err ErrProductNotFound.
Proof.
  induction 1 as [| q ps Hq _ IH]; simpl; [reflexivity |].
  destruct (N.eqb_spec (ID q) id) as [Heq | _]; [now destruct Hq | exact IH].
Qed.

(** In a dataset with pairwise distinct ids, every product but [p] has
    another id than [p]. *)
Lemma distinct_ids_split (l1 l2 : list Product) (p : Product) :
  NoDup (ID <$> (l1 ++ p :: l2)) ->
  Forall (other_id (ID p)) l1 /\ Forall (other_id (ID p)) l2.
Proof.
  rewrite fmap_app, fmap_cons. intros Hnd.
  apply NoDup_app in Hnd as (_ & Hdisj & Hnd2).
  apply NoDup_cons in Hnd2 as [Hnotin _].
  split; apply Forall_forall; intros q Hq Heq.
  - apply (Hdisj (ID q)).
    + apply list_elem_of_fmap. eauto.
    + rewrite Heq. left.
  - apply Hnotin. rewrite <- Heq. apply list_elem_of_fmap. eauto.
Qed.
End memory_scan.

(** ** [Update] of the in-memory backend *)

Module memory_update.
Import memory memory_scan.

(** C7: when a product with the id exists, [Update] succeeds and rewrites
    the name, description, price and [updated_at] of the first such
    product, keeping its id and [created_at], the length of the dataset
    and every other slot; when none exists, [Update] returns the
    not-found error and the repository is unchanged. *)
Theorem Update_frame (r : ProductMemoryRepository) (id : uuid)
    (req : ProductRequest) (w : World) :
  ((exists p, p ∈ products r /\ ID p = id) ->
     exists (i : nat) (old : Product) (r' : ProductMemoryRepository),
       Update r id req w = (Ok tt, r') /\
       products r !! i = Some old /\ ID old = id /\
       (forall j q, (j < i)%nat -> products r !! j = Some q -> ID q ≠ id) /\
       products r' !! i
         = Some (mkProduct (ID old) (ReqName req) (ReqDescription req)
                           (ReqPrice req) (CreatedAt old) (time_Now w)) /\
       length (products r') = length (products r) /\
       (forall j, j ≠ i -> products r' !! j = products r !! j))
  /\
  ((forall p, p ∈ products r -> ID p ≠ id) ->
     Update r id req w = (Err ErrProductNotFound, r)).
Proof.
  split.
  - intros (p & Hin & Hp).
    destruct (scan_cases id (products r))
      as [(l1 & old & l2 & Hps & Hl1 & Hold) | Hall].
    + exists (length l1), old,
        (mkRepo (alter (overwrite req (time_Now w)) (length l1) (products r))).
      unfold Update. rewrite Hps, scan_found by assumption.
      repeat split.
      * apply list_lookup_middle. reflexivity.
      * assumption.
      * intros j q Hj Hq. rewrite lookup_app_l in Hq by assumption.
        rewrite Forall_forall in Hl1. apply (Hl1 q).
        apply list_elem_of_lookup. eauto.
      * simpl. rewrite list_lookup_alter_eq.
        rewrite list_lookup_middle by reflexivity. reflexivity.
      * simpl. apply length_alter.
      * intros j Hj. simpl. apply list_lookup_alter_ne. congruence.
    + rewrite Forall_forall in Hall. now destruct (Hall p Hin).
  - intros Hall. unfold Update. rewrite scan_absent; [reflexivity |].
    apply Forall_forall. exact Hall.
Qed.

Lemma Update_frame_witness :
  (exists (i : nat) (old : Product) (r' : ProductMemoryRepository),
     Update (mkRepo [samples.gadget; samples.device]) 51%N samples.widget_pro
            samples.world0
     = (Ok tt, r') /\
     products (mkRepo [samples.gadget; samples.device]) !! i = Some old /\
     ID old = 51%N /\
     (forall j q, (j < i)%nat ->
                  products (mkRepo [samples.gadget; samples.device]) !! j = Some q ->
                  ID q ≠ 51%N) /\
     products r' !! i
       = Some (mkProduct (ID old) "Widget Pro" "upgraded" samples.f64_19_5
                         (CreatedAt old) 1000%Z) /\
     length (products r')
     = length (products (mkRepo [samples.gadget; samples.device])) /\
     (forall j, j ≠ i ->
                products r' !! j
                = products (mkRepo [samples.gadget; samples.device]) !! j))
  /\
  Update (mkRepo [samples.gadget]) 51%N samples.widget_pro samples.world0
  = (Err ErrProductNotFound, mkRepo [samples.gadget]).
Proof.
  split.
  - apply (Update_frame (mkRepo [samples.gadget; samples.device]) 51%N
             samples.widget_pro samples.world0).
    exists samples.device. split; [simpl; right; left | reflexivity].
  - apply (Update_frame (mkRepo [samples.gadget]) 51%N
             samples.widget_pro samples.world0).
    intros p Hp. apply list_elem_of_singleton in Hp. subst p. discriminate.
Defined.
End memory_update.

(** ** [Delete] of the in-memory backend *)

Module memory_delete.
Import memory memory_scan.

(** Writing the last element over slot [length l1] and cutting the slice
    by one removes exactly the element at that slot. *)
Lemma swap_with_last (l1 l2 : list Product) (p : Product) :
  let ps := l1 ++ p :: l2 in
  take (length ps - 1) (<[length l1 := ps !!! (length ps - 1)]> ps)
  ≡ₚ l1 ++ l2.
Proof.
  destruct l2 as [| z l2 _] using rev_ind; cbn zeta.
  - rewrite length_app. simpl.
    replace (length l1 + 1 - 1) with (length l1) by lia.
    rewrite list_lookup_total_middle by reflexivity.
    rewrite list_insert_id by (now apply list_lookup_middle).
    now rewrite take_app_length, app_nil_r.
  - replace (l1 ++ p :: l2 ++ [z]) with ((l1 ++ p :: l2) ++ [z])
      by (now rewrite <- app_assoc).
    rewrite length_app. simpl.
    replace (length (l1 ++ p :: l2) + 1 - 1) with (length (l1 ++ p :: l2)) by lia.
    rewrite list_lookup_total_middle by reflexivity.
    rewrite <- app_assoc. simpl.
    replace (length l1) with (length l1 + 0) at 1 by lia.
    rewrite insert_app_r. simpl.
    replace (l1 ++ z :: l2 ++ [z]) with ((l1 ++ z :: l2) ++ [z])
      by (now rewrite <- app_assoc).
    rewrite take_app_length'
      by (rewrite !length_app; simpl; lia).
    rewrite (app_assoc l1 l2 [z]).
    rewrite <- Permutation_middle. symmetry.
    rewrite <- Permutation_cons_append. reflexivity.
Qed.

(** C5: in a dataset with pairwise distinct ids, deleting a product that
    is present succeeds; the last element is written into its slot and
    the slice cut by one, so the dataset is the original multiset minus
    that product, one shorter; and [GetByID] on the id then fails with
    the not-found error. *)
Theorem Delete_then_GetByID (r : ProductMemoryRepository) (p : Product) :
  NoDup (ID <$> products r) -> p ∈ products r ->
  exists (i : nat) (r' : ProductMemoryRepository),
    Delete r (ID p) = (Ok tt, r') /\
    products r !! i = Some p /\
    products r'
      = take (length (products r) - 1)
             (<[i := products r !!! (length (products r) - 1)]> (products r)) /\
    p :: products r' ≡ₚ products r /\
    S (length (products r')) = length (products r) /\
    GetByID r' (ID p) = Err ErrProductNotFound.
Proof.
  intros Hnd Hin.
  apply list_elem_of_split in Hin as (l1 & l2 & Hps).
  rewrite Hps in Hnd. pose proof (distinct_ids_split _ _ _ Hnd) as [Hl1 Hl2].
  pose proof (swap_with_last l1 l2 p) as Hperm. cbn zeta in Hperm.
  exists (length l1). eexists. unfold Delete.
  rewrite Hps, scan_found by (assumption || reflexivity).
  split; [reflexivity |]. cbn [products].
  split; [now apply list_lookup_middle |].
  split; [reflexivity |].
  split; [rewrite Hperm; apply Permutation_middle |].
  split.
  - rewrite Hperm, !length_app. simpl. lia.
  - unfold GetByID. cbn [products]. apply GetByID_loop_absent.
    rewrite Hperm. now apply Forall_app.
Qed.

Lemma Delete_then_GetByID_witness :
  let r := mkRepo [samples.gadget; samples.device; samples.early_bird;
                   samples.backdated] in
  exists (i : nat) (r' : ProductMemoryRepository),
    Delete r 51%N = (Ok tt, r') /\
    products r !! i = Some samples.device /\
    products r'
      = take 3 (<[i := samples.backdated]>
                  [samples.gadget; samples.device; samples.early_bird;
                   samples.backdated]) /\
    samples.device :: products r'
      ≡ₚ [samples.gadget; samples.device; samples.early_bird;
          samples.backdated] /\
    S (length (products r')) = 4 /\
    GetByID r' 51%N = Err ErrProductNotFound.
Proof.
  apply (Delete_then_GetByID
           (mkRepo [samples.gadget; samples.device; samples.early_bird;
                    samples.backdated]) samples.device).
  - simpl. apply (bool_decide_unpack _). vm_compute. exact I.
  - simpl. right. left.
Defined.

(** In that dataset the last product takes the slot of the deleted one,
    and the three other products are still found. *)
Example Delete_of_second_of_four :
  let r := mkRepo [samples.gadget; samples.device; samples.early_bird;
                   samples.backdated] in
  products (Delete r 51%N).2
  = [samples.gadget; samples.backdated; samples.early_bird] /\
  GetByID (Delete r 51%N).2 50%N = Ok samples.gadget /\
  GetByID (Delete r 51%N).2 60%N = Ok samples.early_bird /\
  GetByID (Delete r 51%N).2 61%N = Ok samples.backdated.
Proof. repeat split. Qed.

(** The removal does not keep the order of what remains. *)
Example Delete_reorders (a b c : Product) :
  ID a = 1%N -> ID b = 2%N -> ID c = 3%N ->
  products (Delete (mkRepo [a; b; c]) 1%N).2 = [c; b].
Proof. intros Ha Hb Hc. unfold Delete. simpl. now rewrite Ha. Qed.
End memory_delete.

(** ** [Create] of the in-memory backend *)

Module memory_create.
Import memory memory_scan.

(** C4: for every creation payload, and so for every valid one, and every
    repository none of whose products has the id drawn for the new
    product, [ToProduct], [Create] and [GetByID] on the new id succeed and
    return a product with the payload's name, description and price, the
    drawn id, and [created_at] equal to [updated_at]. *)
Theorem Create_then_GetByID (r : ProductMemoryRepository)
    (req : ProductRequest) (w : World) :
  let product := (ToProduct req w).1 in
  (forall p, p ∈ products r -> ID p ≠ ID product) ->
  exists r' got,
    Create r product = (Ok tt, r') /\
    GetByID r' (ID product) = Ok got /\
    got = product /\
    Name got = ReqName req /\
    Description got = ReqDescription req /\
    Price got = ReqPrice req /\
    ID got = (uuid_New w).1 /\
    CreatedAt got = UpdatedAt got.
Proof.
  intros product Hfresh.
  exists (mkRepo (products r ++ [product])), product.
  split; [reflexivity |]. split.
  - unfold GetByID. cbn [products]. apply GetByID_loop_found; [| reflexivity].
    apply Forall_forall. exact Hfresh.
  - repeat split.
Qed.

Lemma Create_then_GetByID_witness :
  exists r' got,
    Create (mkRepo [samples.gadget]) (ToProduct samples.widget samples.world0).1
    = (Ok tt, r') /\
    GetByID r' 1%N = Ok got /\
    got = mkProduct 1%N "Widget" "" binary64.f64_1 1000%Z 1000%Z /\
    Name got = "Widget" /\ Description got = "" /\
    Price got = binary64.f64_1 /\ ID got = 1%N /\
    CreatedAt got = UpdatedAt got.
Proof.
  apply (Create_then_GetByID (mkRepo [samples.gadget]) samples.widget samples.world0).
  intros p Hp. apply list_elem_of_singleton in Hp. subst p. discriminate.
Defined.
End memory_create.

(** ** The invariants of the in-memory dataset *)

Module service_invariants.
Import memory memory_scan memory_delete service.
Local Open Scope Z_scope.

Lemma id_absent_other (id : uuid) (ps : list Product) :
  id_absent id ps = true <-> Forall (other_id id) ps.
Proof.
  unfold id_absent. induction ps as [| q ps IH]; simpl.
  - split; [constructor | reflexivity].
  - rewrite andb_true_iff, IH, Forall_cons. unfold other_id at 2.
    destruct (N.eqb_spec (ID q) id); simpl; intuition congruence.
Qed.

Lemma id_absent_not_elem (id : uuid) (ps : list Product) :
  id_absent id ps = true <-> id ∉ ID <$> ps.
Proof.
  rewrite id_absent_other, Forall_forall. split.
  - intros H (q & -> & Hq)%list_elem_of_fmap. now apply (H q).
  - intros H q Hq Heq. apply H. rewrite <- Heq.
    apply list_elem_of_fmap. eauto.
Qed.

Lemma distinct_ids_NoDup (ps : list Product) :
  distinct_ids ps = true <-> NoDup (ID <$> ps).
Proof.
  induction ps as [| q ps IH]; simpl.
  - split; [constructor | reflexivity].
  - rewrite andb_true_iff, IH, NoDup_cons, id_absent_not_elem. reflexivity.
Qed.

Lemma settled_elapse (d : N) (w : World) (ps : list Product) :
  settled w ps -> settled (elapse d w) ps.
Proof.
  intros [Hc Hnow]. split; [exact Hc |].
  eapply Forall_impl; [exact Hnow |]. simpl. intros p Hp. lia.
Qed.

Lemma settled_app (w : World) (ps qs : list Product) :
  settled w ps ->
  Forall (fun p => CreatedAt p <= UpdatedAt p /\ CreatedAt p <= clock w) qs ->
  NoDup (ID <$> qs) ->
  (forall q, q ∈ qs -> ID q ∉ ID <$> ps) ->
  settled w (ps ++ qs).
Proof.
  intros [[Hle Hnd] Hnow] Hqs Hndq Hfresh. repeat split.
  - apply Forall_app. split; [exact Hle |].
    eapply Forall_impl; [exact Hqs |]. now intros p [? ?].
  - rewrite fmap_app. apply NoDup_app. repeat split; [exact Hnd | | exact Hndq].
    intros id Hid (q & -> & Hq)%list_elem_of_fmap. now apply (Hfresh q).
  - apply Forall_app. split; [exact Hnow |].
    eapply Forall_impl; [exact Hqs |]. now intros p [? ?].
Qed.

Lemma settled_Permutation (w : World) (ps qs : list Product) :
  ps ≡ₚ qs -> settled w ps -> settled w qs.
Proof.
  intros Hperm [[Hle Hnd] Hnow]. repeat split.
  - now rewrite <- Hperm.
  - now rewrite <- Hperm.
  - now rewrite <- Hperm.
Qed.

Lemma settled_remove (w : World) (l1 l2 : list Product) (p : Product) :
  settled w (l1 ++ p :: l2) -> settled w (l1 ++ l2).
Proof.
  intros H. apply (settled_Permutation w _ (p :: l1 ++ l2)) in H.
  - destruct H as [[Hle Hnd] Hnow]. repeat split.
    + now apply Forall_cons in Hle.
    + rewrite fmap_cons in Hnd. now apply NoDup_cons in Hnd.
    + now apply Forall_cons in Hnow.
  - symmetry. apply Permutation_middle.
Qed.

Lemma ids_overwrite (req : ProductRequest) (now : Time) (i : nat)
    (ps : list Product) :
  ID <$> alter (overwrite req now) i ps = ID <$> ps.
Proof.
  revert i. induction ps as [| q ps IH]; intros [| i]; simpl; try reflexivity.
  f_equal. apply IH.
Qed.

Lemma settled_Update (w : World) (r : ProductMemoryRepository) (id : uuid)
    (req : ProductRequest) :
  settled w (products r) -> settled w (products (Update r id req w).2).
Proof.
  intros Hs. unfold Update. destruct (scan id (products r)) as [i |]; [| exact Hs].
  destruct Hs as [[Hle Hnd] Hnow]. cbn [snd products]. repeat split.
  - assert (Hboth : Forall (fun p => CreatedAt p <= UpdatedAt p /\
                                     CreatedAt p <= clock w) (products r)).
    { apply Forall_and. split; assumption. }
    eapply Forall_impl; [apply (Forall_alter _ _ _ _ Hboth) |].
    + intros old _ [_ Hold]. simpl. split; exact Hold.
    + now intros p [? ?].
  - now rewrite ids_overwrite.
  - apply Forall_alter; [exact Hnow |]. intros old _ Hold. exact Hold.
Qed.

Lemma settled_Delete (w : World) (r : ProductMemoryRepository) (id : uuid) :
  settled w (products r) -> settled w (products (Delete r id).2).
Proof.
  intros Hs. unfold Delete.
  destruct (scan_cases id (products r))
    as [(l1 & p & l2 & Hps & Hl1 & Hp) | Hall].
  - rewrite Hps in *. rewrite scan_found by assumption. cbn [snd products].
    apply (settled_Permutation w (l1 ++ l2)).
    + symmetry. apply swap_with_last.
    + now apply settled_remove in Hs.
  - now rewrite scan_absent.
Qed.

(** One admissible call keeps the invariant. *)
Lemma settled_exec (op : Op) (w : World) (r : ProductMemoryRepository) :
  fresh_create_and_batch op w r = true ->
  settled w (products r) ->
  let '(_, w', r') := memory_exec op w r in settled w' (products r').
Proof.
  intros Hok Hs. destruct op; simpl in *; try exact Hs.
  - (* Create *)
    apply (settled_app _ (products r)
             [mkProduct _ (ReqName req) (ReqDescription req) (ReqPrice req)
                        (clock w) (clock w)]).
    + exact Hs.
    + repeat constructor; simpl; unfold time_Now; lia.
    + simpl. apply NoDup_singleton.
    + intros q ->%list_elem_of_singleton. simpl.
      now apply id_absent_not_elem.
  - (* CreateBulk *)
    unfold stamped_batch in Hok.
    apply andb_true_iff in Hok as [[Hnd Hfresh]%andb_true_iff Hstamp].
    apply settled_app.
    + exact Hs.
    + apply Forall_forall. intros p Hp.
      rewrite forallb_forall in Hstamp.
      specialize (Hstamp p (proj1 (list_elem_of_In _ _) Hp)).
      apply andb_true_iff in Hstamp as [H1 H2]. unfold created_before_updated in H1.
      unfold time_Now in H2. split; now apply Z.leb_le.
    + now apply distinct_ids_NoDup.
    + intros q Hq. rewrite forallb_forall in Hfresh.
      apply id_absent_not_elem, Hfresh. now apply list_elem_of_In.
  - (* Update *)
    pose proof (settled_Update w r id req Hs) as H.
    now destruct (Update r id req w).
  - (* Delete *)
    pose proof (settled_Delete w r id Hs) as H.
    now destruct (Delete r id).
  - (* DeleteAll *)
    repeat split; constructor.
Qed.

Lemma settled_run (evs : list Event) :
  forall (w : World) (r : ProductMemoryRepository),
    every_call memory_exec fresh_create_and_batch evs w r = true ->
    settled w (products r) ->
    let '(_, w', r') := run memory_exec evs w r in settled w' (products r').
Proof.
  induction evs as [| [d | op] evs IH]; intros w r Hok Hs; cbn [run].
  - exact Hs.
  - apply IH; [exact Hok |]. now apply settled_elapse.
  - cbn [every_call] in Hok. apply andb_true_iff in Hok as [Hop Hrest].
    pose proof (settled_exec op w r Hop Hs) as Hstep.
    destruct (memory_exec op w r) as [[out w1] r1].
    specialize (IH w1 r1 Hrest Hstep).
    now destruct (run memory_exec evs w1 r1) as [[outs w2] r2].
Qed.
End service_invariants.

Module service_invariants_claims.
Import memory service service_invariants samples.
Local Open Scope Z_scope.

(** C3, as stated, fails: [CreateBulk] appends whatever batch it is
    given, and a batch with one id on two different products leaves two
    distinct products with that id in the dataset. *)
Lemma consistent_after_every_sequence_fails :
  ~ consistent_after_every_sequence.
Proof.
  intros H.
  specialize (H world0 [Call (OpCreateBulk [gadget; gadget_twin])] eq_refl).
  destruct H as [_ Hnd]. simpl in Hnd.
  apply NoDup_cons in Hnd as [Hnotin _]. apply Hnotin. left.
Qed.

(** Each condition on the batches is needed: an id the dataset has, a
    product updated before it was created, and a product stamped ahead of
    the clock, which the next [Update] leaves with [updated_at] before
    [created_at]. *)
Example unchecked_batches_break_consistency :
  ~ consistent (products (run memory_exec batch_twice world0
                            NewProductMemoryRepository).2) /\
  ~ consistent (products (run memory_exec [Call (OpCreateBulk [backdated])] world0
                            NewProductMemoryRepository).2) /\
  ~ consistent (products (run memory_exec stamp_then_update world0
                            NewProductMemoryRepository).2).
Proof.
  split; [| split].
  - intros [_ Hnd]. simpl in Hnd.
    apply NoDup_cons in Hnd as [Hnotin _]. apply Hnotin. left.
  - intros [Hle _]. simpl in Hle. apply Forall_cons in Hle as [Hle _].
    simpl in Hle. lia.
  - intros [Hle _]. vm_compute in Hle. apply Forall_cons in Hle as [Hle _].
    now apply Hle.
Qed.

(** C3, amended: after every sequence of calls on a new in-memory
    repository in which [Create] is given products built by [ToProduct]
    with an id no product of the dataset has, and [CreateBulk] is given
    batches of products with ids that differ from each other and from
    those of the dataset and with [created_at <= updated_at] and
    [created_at] not after the clock, every product of the dataset has
    [created_at <= updated_at] and no two products share an id. *)
Theorem consistent_after_stamped_sequences (w : World) (evs : list Event) :
  every_call memory_exec fresh_create_and_batch evs w NewProductMemoryRepository
  = true ->
  consistent (products (run memory_exec evs w NewProductMemoryRepository).2).
Proof.
  intros Hok.
  pose proof (settled_run evs w NewProductMemoryRepository Hok) as H.
  destruct (run memory_exec evs w NewProductMemoryRepository) as [[outs w'] r'].
  apply H. repeat split; constructor.
Qed.

Lemma consistent_after_stamped_sequences_witness :
  consistent (products (run memory_exec session world0 NewProductMemoryRepository).2).
Proof.
  apply (consistent_after_stamped_sequences world0 session).
  vm_compute. reflexivity.
Defined.
End service_invariants_claims.

(** ** [CreateBulk] is all or nothing *)

Module bulk_atomicity.
Import postgres.

Lemma round_trip_table (db : ProductRepository) :
  table (round_trip db).2 = table db.
Proof. reflexivity. Qed.

Lemma round_trip_columns (db : ProductRepository) :
  columns (round_trip db).2 = columns db.
Proof. reflexivity. Qed.

(** An insert inside a transaction never touches the table or the
    columns, and on success the row of the product is the last of the
    transaction's rows. *)
Lemma tx_insert_spec (tx : Tx) (db : ProductRepository) (p : Product) :
  table (tx_insert tx db p).2 = table db /\
  columns (tx_insert tx db p).2 = columns db /\
  forall tx1, (tx_insert tx db p).1 = Ok tx1 ->
              exists row, held (columns db) p row /\
                          tx_rows tx1 = tx_rows tx ++ [row].
Proof.
  unfold tx_insert, round_trip, insert_row, held.
  destruct (faults db (calls db)); simpl.
  - repeat split; discriminate.
  - destruct (row_of (columns db) p) as [row |]; simpl.
    + destruct (has_id (ID row) (tx_rows tx)); simpl.
      * repeat split; discriminate.
      * repeat split. intros tx1 [= <-]. now exists row.
    + repeat split; discriminate.
Qed.

Lemma insert_loop_spec (ps : list Product) :
  forall (tx : Tx) (db : ProductRepository),
    table (insert_loop ps tx db).2 = table db /\
    columns (insert_loop ps tx db).2 = columns db /\
    forall tx1, (insert_loop ps tx db).1.1 = Ok tx1 ->
                exists rows, Forall2 (held (columns db)) ps rows /\
                             tx_rows tx1 = tx_rows tx ++ rows.
Proof.
  induction ps as [| p ps IH]; intros tx db; cbn [insert_loop].
  - repeat split. simpl. intros tx1 [= <-]. exists [].
    split; [constructor | now rewrite app_nil_r].
  - pose proof (tx_insert_spec tx db p) as (Htab & Hcols & Hrow).
    destruct (tx_insert tx db p) as [[tx1 | e] db1]; simpl in *.
    + destruct (IH tx1 db1) as (Htab' & Hcols' & Hrows).
      split; [congruence | split; [congruence |]].
      intros tx2 Htx2.
      destruct (Hrow tx1 eq_refl) as (row & Hheld & Hrow1).
      destruct (Hrows tx2 Htx2) as (rows & Hall & Hrows2).
      exists (row :: rows). rewrite Hcols in Hall.
      split; [now constructor |].
      now rewrite Hrows2, Hrow1, <- app_assoc.
    + repeat split; try assumption. discriminate.
Qed.

(** C1: [CreateBulk] is all or nothing on both backends.  The in-memory
    backend always succeeds and holds the old dataset followed by the
    whole batch.  The persistent backend, whatever round trip fails and
    whatever row the table refuses, either succeeds with the table
    holding the old rows followed by a row for every product of the
    batch, in the order of the batch, or returns an error with the table
    exactly as it was. *)
Theorem CreateBulk_all_or_nothing :
  (forall (r : memory.ProductMemoryRepository) (ps : list Product),
     memory.CreateBulk r ps = (Ok tt, memory.mkRepo (memory.products r ++ ps)))
  /\
  (forall (db : ProductRepository) (ps : list Product),
     ((CreateBulk db ps).1 = Ok tt /\
      exists rows,
        Forall2 (held (columns db)) ps rows /\
        table (CreateBulk db ps).2 = table db ++ rows /\
        Forall (fun row => row ∈ table (CreateBulk db ps).2) rows)
     \/
     (exists e, (CreateBulk db ps).1 = Err e /\
                table (CreateBulk db ps).2 = table db)).
Proof.
  split; [reflexivity |].
  intros db ps. unfold CreateBulk, BeginTxx.
  destruct (round_trip db) as [failed db1] eqn:Hrt.
  assert (Htab1 : table db1 = table db)
    by (now rewrite <- (round_trip_table db), Hrt).
  assert (Hcols1 : columns db1 = columns db)
    by (now rewrite <- (round_trip_columns db), Hrt).
  destruct failed.
  - right. exists ErrDriver. now split.
  - pose proof (insert_loop_spec ps (mkTx (table db1)) db1)
      as (Htab2 & _ & Hrows).
    destruct (insert_loop ps (mkTx (table db1)) db1) as [[[tx1 | e] tx2] db2];
      simpl in Htab2, Hrows.
    + unfold Commit, round_trip. destruct (faults db2 (calls db2)); simpl.
      * right. exists ErrDriver. split; [reflexivity | congruence].
      * left. destruct (Hrows tx1 eq_refl) as (rows & Hall & Htx1).
        split; [reflexivity |]. exists rows. rewrite Htx1, Htab1.
        split; [now rewrite <- Hcols1 |]. split; [reflexivity |].
        apply Forall_forall. intros row Hrow.
        apply elem_of_app. now right.
    + right. exists e. split; [reflexivity |].
      unfold Rollback. cbn [snd]. rewrite round_trip_table. congruence.
Qed.

(** Both outcomes occur: a batch of new ids goes in whole, each product
    as the columns hold it; a batch with an id the table has goes in not
    at all, not even its first row, and neither does a batch with a value
    that a column refuses. *)
Example CreateBulk_commits :
  CreateBulk (reliable_empty samples.server) [samples.gadget; samples.device]
  = (Ok tt, mkDB [samples.gadget_row; samples.device_row] (fun _ => false) 4
                 samples.server).
Proof. reflexivity. Qed.

Example CreateBulk_rolls_back :
  let db := mkDB [samples.device_row] (fun _ => false) 0 samples.server in
  (CreateBulk db [samples.gadget; samples.device]).1 = Err ErrUniqueViolation /\
  table (CreateBulk db [samples.gadget; samples.device]).2
  = [samples.device_row].
Proof. split; reflexivity. Qed.

Example CreateBulk_refused_value :
  let db := mkDB [samples.device_row] (fun _ => false) 0 samples.server in
  (CreateBulk db [samples.gadget; samples.overpriced]).1 = Err ErrDriver /\
  table (CreateBulk db [samples.gadget; samples.overpriced]).2
  = [samples.device_row].
Proof. split; reflexivity. Qed.
End bulk_atomicity.

(** ** The persistent backend, statement by statement *)

Module postgres_facts.
Import postgres memory_scan.
Local Open Scope Z_scope.

Lemma reliable_round_trip (db : ProductRepository) :
  reliable db ->
  round_trip db
  = (false, mkDB (table db) (faults db) (S (calls db)) (columns db)).
Proof. intros H. unfold round_trip. now rewrite H. Qed.

(** A row has the id of its product. *)
Lemma held_ID (cols : Columns) (p row : Product) :
  held cols p row -> ID row = ID p.
Proof.
  unfold held, row_of. intros H.
  destruct (held_request cols _); [| discriminate].
  destruct (time_column cols (CreatedAt p)); [| discriminate].
  destruct (time_column cols (UpdatedAt p)); [| discriminate].
  now injection H as <-.
Qed.

Lemma held_all_ID (cols : Columns) (ps rows : list Product) :
  Forall2 (held cols) ps rows -> ID <$> rows = ID <$> ps.
Proof.
  induction 1 as [| p row ps rows Hp _ IH]; [reflexivity |].
  rewrite !fmap_cons, IH. f_equal. now apply held_ID in Hp.
Qed.

Lemma held_all_other_id (cols : Columns) (id : uuid) (ps rows : list Product) :
  Forall2 (held cols) ps rows ->
  Forall (memory.other_id id) ps -> Forall (memory.other_id id) rows.
Proof.
  induction 1 as [| p row ps rows Hp _ IH]; [constructor |].
  intros [Hq Hrest]%Forall_cons. constructor; [| now apply IH].
  unfold memory.other_id in *. now rewrite (held_ID _ _ _ Hp).
Qed.

Lemma has_id_absent (id : uuid) (rows : list Product) :
  Forall (memory.other_id id) rows -> has_id id rows = false.
Proof.
  unfold has_id. induction 1 as [| q rows Hq _ IH]; simpl; [reflexivity |].
  rewrite IH. destruct (N.eqb_spec (ID q) id); [now destruct Hq | reflexivity].
Qed.

Lemma filter_id_absent (id : uuid) (rows : list Product) :
  Forall (memory.other_id id) rows ->
  filter (fun row => ID row = id) rows = [] /\
  filter (fun row => ID row ≠ id) rows = rows.
Proof.
  induction 1 as [| q rows Hq _ [IH1 IH2]]; [split; reflexivity |].
  rewrite filter_cons_False, filter_cons_True by assumption.
  now rewrite IH1, IH2.
Qed.

Lemma filter_id_present (id : uuid) (l1 l2 : list Product) (p : Product) :
  Forall (memory.other_id id) l1 -> ID p = id -> Forall (memory.other_id id) l2 ->
  filter (fun row => ID row = id) (l1 ++ p :: l2) = [p] /\
  filter (fun row => ID row ≠ id) (l1 ++ p :: l2) = l1 ++ l2.
Proof.
  intros [H11 H12]%filter_id_absent Hp [H21 H22]%filter_id_absent.
  rewrite !filter_app, H11, H12.
  rewrite filter_cons_True, filter_cons_False by (unfold not; auto).
  now rewrite H21, H22.
Qed.

(** What [UPDATE] does to the rows, when the columns hold the values as
    [held] and [updated_at]. *)
Lemma update_rows_held (cols : Columns) (id : uuid) (req held : ProductRequest)
    (now updated_at : Time) (rows : list Product) :
  held_request cols req = Some held -> time_column cols now = Some updated_at ->
  update_rows cols id req now rows
  = Ok ((fun row => if N.eqb (ID row) id
                    then memory.overwrite held updated_at row else row)
        <$> rows).
Proof. unfold update_rows. now intros -> ->. Qed.

Lemma update_rows_refused (cols : Columns) (id : uuid) (req : ProductRequest)
    (now : Time) (rows : list Product) :
  held_request cols req = None \/ time_column cols now = None ->
  update_rows cols id req now rows = Err ErrDriver.
Proof.
  unfold update_rows. intros [-> | ->]; [reflexivity |].
  now destruct (held_request cols req).
Qed.

Lemma update_rows_absent (cols : Columns) (id : uuid)
    (req held : ProductRequest) (now updated_at : Time)
    (rows : list Product) :
  held_request cols req = Some held -> time_column cols now = Some updated_at ->
  Forall (memory.other_id id) rows ->
  update_rows cols id req now rows = Ok rows.
Proof.
  intros Hreq Hnow Hall.
  rewrite (update_rows_held _ _ _ _ _ _ _ Hreq Hnow). f_equal.
  induction Hall as [| q rows Hq _ IH]; [reflexivity |].
  rewrite fmap_cons, IH.
  destruct (N.eqb_spec (ID q) id); [now destruct Hq | reflexivity].
Qed.

Lemma update_rows_present (cols : Columns) (id : uuid)
    (req held : ProductRequest) (now updated_at : Time)
    (l1 l2 : list Product) (p : Product) :
  held_request cols req = Some held -> time_column cols now = Some updated_at ->
  Forall (memory.other_id id) l1 -> ID p = id -> Forall (memory.other_id id) l2 ->
  update_rows cols id req now (l1 ++ p :: l2)
  = Ok (l1 ++ memory.overwrite held updated_at p :: l2).
Proof.
  intros Hreq Hnow H1 Hp H2.
  pose proof (update_rows_absent cols id req held now updated_at l1
                Hreq Hnow H1) as E1.
  pose proof (update_rows_absent cols id req held now updated_at l2
                Hreq Hnow H2) as E2.
  rewrite (update_rows_held _ _ _ _ _ _ _ Hreq Hnow) in E1.
  rewrite (update_rows_held _ _ _ _ _ _ _ Hreq Hnow) in E2.
  rewrite (update_rows_held _ _ _ _ _ _ _ Hreq Hnow).
  injection E1 as E1. injection E2 as E2.
  rewrite fmap_app, fmap_cons, E1, E2.
  destruct (N.eqb_spec (ID p) id); [reflexivity | contradiction].
Qed.

Lemma insert_desc_Permutation (row : Product) (sorted : list Product) :
  insert_desc row sorted ≡ₚ row :: sorted.
Proof.
  induction sorted as [| x rest IH]; simpl; [reflexivity |].
  destruct (CreatedAt x <? CreatedAt row); [reflexivity |].
  rewrite IH. apply Permutation_swap.
Qed.

(** Sorting returns the rows of the table, each once. *)
Lemma order_by_Permutation (rows : list Product) :
  order_by_created_at_desc rows ≡ₚ rows.
Proof.
  unfold order_by_created_at_desc.
  induction rows as [| row rows IH]; simpl; [reflexivity |].
  now rewrite insert_desc_Permutation, IH.
Qed.

(** On a reliable connection a batch that the columns accept, of ids
    that are new and differ from each other, goes through the loop
    whole. *)
Lemma insert_loop_reliable (ps : list Product) :
  forall (rows : list Product) (tx : Tx) (db : ProductRepository),
    reliable db -> Forall2 (held (columns db)) ps rows ->
    NoDup (ID <$> (tx_rows tx ++ rows)) ->
    exists n,
      insert_loop ps tx db
      = (Ok (mkTx (tx_rows tx ++ rows)), mkTx (tx_rows tx ++ rows),
         mkDB (table db) (faults db) n (columns db)).
Proof.
  induction ps as [| p ps IH]; intros rows tx db Hrel Hall Hnd;
    cbn [insert_loop].
  - apply Forall2_nil_inv_l in Hall as ->.
    exists (calls db). rewrite app_nil_r. now destruct tx, db.
  - apply Forall2_cons_inv_l in Hall as (row & rows' & Hp & Hall & ->).
    unfold tx_insert. rewrite reliable_round_trip by assumption.
    unfold insert_row. cbn [columns]. unfold held in Hp. rewrite Hp.
    rewrite has_id_absent.
    + destruct (IH rows' (mkTx (tx_rows tx ++ [row]))
                  (mkDB (table db) (faults db) (S (calls db)) (columns db)))
        as [n Hn].
      * exact Hrel.
      * exact Hall.
      * simpl. now rewrite <- app_assoc.
      * exists n. rewrite Hn. simpl. now rewrite <- app_assoc.
    + now apply distinct_ids_split in Hnd as [H _].
Qed.
End postgres_facts.

(** ** Reading every page *)

Module paging_facts.
Import GoInt GoIntFacts memory memory_list paging.
Local Open Scope Z_scope.

Lemma well_formed_len (r : ProductMemoryRepository) :
  well_formed r -> len r * 104 <= 2 ^ 48.
Proof. unfold well_formed, fits, sizeof_Product, max_alloc. now intros ?%Z.leb_le. Qed.

(** From page [page] on, the client collects the rest of the collection. *)
Lemma list_until_empty_from (r : ProductMemoryRepository) (pageSize : Z)
    (fuel : nat) :
  well_formed r -> 1 <= pageSize <= 100 ->
  forall page : Z,
    1 <= page -> (page - 1) * pageSize < len r + pageSize ->
    (length (drop (Z.to_nat ((page - 1) * pageSize)) (products r)) < fuel)%nat ->
    list_until_empty fuel r page pageSize
    = Some (drop (Z.to_nat ((page - 1) * pageSize)) (products r)).
Proof.
  intros Hwf Hsize. pose proof (well_formed_len r Hwf) as Hlen.
  induction fuel as [| fuel IH]; intros page Hpage Hreach Hfuel; [lia |].
  assert (Hpint : is_int page) by int_range.
  cbn [list_until_empty].
  rewrite List_in_range by (try assumption; unfold max_int; nia).
  set (s := Z.to_nat ((page - 1) * pageSize)) in *.
  destruct (take (Z.to_nat pageSize) (drop s (products r))) as [| c cs] eqn:Hchunk.
  - destruct (drop s (products r)) as [| x rest] eqn:Hrest; [reflexivity |].
    replace (Z.to_nat pageSize) with (S (Z.to_nat (pageSize - 1))) in Hchunk by lia.
    discriminate.
  - assert (Hin : (s < length (products r))%nat).
    { destruct (decide (s < length (products r))%nat) as [| Hge]; [assumption |].
      rewrite drop_ge in Hchunk by lia. now rewrite take_nil in Hchunk. }
    assert (Hnext : int_add page 1 = page + 1).
    { apply wrap_small. int_range. }
    assert (Hs' : Z.to_nat ((page + 1 - 1) * pageSize) = (s + Z.to_nat pageSize)%nat).
    { unfold s. rewrite <- Z2Nat.inj_add by nia. f_equal. lia. }
    rewrite Hnext, IH.
    + cbn [option_map]. f_equal. rewrite Hs', <- Hchunk, <- drop_drop.
      apply take_drop.
    + lia.
    + unfold len, s in *. nia.
    + rewrite Hs'. rewrite length_drop in *. lia.
Qed.

(** C6: for every page size in [1, 100] the pages [List(1, pageSize)],
    [List(2, pageSize)], ... read until the first empty one concatenate
    to the dataset itself: the client stops, after at most one call more
    than there are products, and every product appears exactly once, at
    its own position. *)
Theorem list_until_empty_enumerates (r : ProductMemoryRepository)
    (pageSize : Z) (fuel : nat) :
  well_formed r -> 1 <= pageSize <= 100 ->
  (length (products r) < fuel)%nat ->
  list_until_empty fuel r 1 pageSize = Some (products r).
Proof.
  intros Hwf Hsize Hfuel.
  rewrite list_until_empty_from; try assumption.
  - reflexivity.
  - lia.
  - pose proof (Nat2Z.is_nonneg (length (products r))). unfold len. lia.
Qed.

Lemma list_until_empty_enumerates_witness :
  list_until_empty 4 (mkRepo [samples.gadget; samples.device; samples.gadget_twin]) 1 2
  = Some [samples.gadget; samples.device; samples.gadget_twin].
Proof.
  apply (list_until_empty_enumerates
           (mkRepo [samples.gadget; samples.device; samples.gadget_twin]) 2 4).
  - reflexivity.
  - lia.
  - simpl. lia.
Defined.
End paging_facts.

(** ** The two backends on the same calls *)

Module backend_simulation.
Import GoInt GoIntFacts memory_scan memory_list memory_delete.
Import service service_invariants contract postgres_facts.
Local Open Scope Z_scope.

Lemma present_split (id : uuid) (ps : list Product) :
  NoDup (ID <$> ps) -> id_absent id ps = false ->
  exists l1 p l2,
    ps = l1 ++ p :: l2 /\
    Forall (memory.other_id id) l1 /\ ID p = id /\ Forall (memory.other_id id) l2.
Proof.
  intros Hnd Habs.
  destruct (scan_cases id ps) as [(l1 & p & l2 & -> & Hl1 & Hp) | Hall].
  - exists l1, p, l2. apply distinct_ids_split in Hnd as [H1 H2].
    rewrite Hp in H2. auto.
  - apply id_absent_other in Hall. congruence.
Qed.

Lemma other_id_Permutation (id : uuid) (ps qs : list Product) :
  ps ≡ₚ qs -> Forall (memory.other_id id) ps -> Forall (memory.other_id id) qs.
Proof. now intros ->. Qed.

(** The rows of a slice split where the slice splits. *)
Lemma held_split (cols : postgres.Columns) (l1 l2 rows : list Product)
    (p : Product) :
  Forall2 (postgres.held cols) (l1 ++ p :: l2) rows ->
  exists r1 row r2,
    rows = r1 ++ row :: r2 /\
    Forall2 (postgres.held cols) l1 r1 /\ postgres.held cols p row /\
    Forall2 (postgres.held cols) l2 r2.
Proof.
  intros (r1 & r2' & H1 & H2 & ->)%Forall2_app_inv_l.
  apply Forall2_cons_inv_l in H2 as (row & r2 & Hp & H2 & ->).
  now exists r1, row, r2.
Qed.

Section Calls.
Variables (cols : postgres.Columns) (w : World)
          (r : memory.ProductMemoryRepository)
          (db : postgres.ProductRepository).
Hypothesis Hrel : related cols r db.

Lemma related_round_trip :
  related cols r (postgres.mkDB (postgres.table db) (postgres.faults db)
                                (S (postgres.calls db)) (postgres.columns db)).
Proof.
  pose proof Hrel as (Hrows & Hnd & Hreliable & Hcols).
  repeat split; assumption.
Qed.

Lemma agree_Create (req : ProductRequest) :
  id_absent (ID (ToProduct req w).1) (memory.products r) = true ->
  accepts (postgres.row_of cols (ToProduct req w).1) = true ->
  same_up_to_order cols (memory_exec (OpCreate req) w r).1.1
                        (postgres_exec (OpCreate req) w db).1.1 /\
  (memory_exec (OpCreate req) w r).1.2 = (postgres_exec (OpCreate req) w db).1.2 /\
  related cols (memory_exec (OpCreate req) w r).2
               (postgres_exec (OpCreate req) w db).2.
Proof.
  pose proof Hrel as ((rows & Hall & Hperm) & Hnd & Hreliable & Hcols).
  intros Hnew Hacc. simpl in *.
  destruct (postgres.row_of cols _) as [row |] eqn:Hrow; [| discriminate].
  unfold postgres.Create. rewrite reliable_round_trip by assumption.
  unfold postgres.insert_row. cbn [postgres.table postgres.faults postgres.columns].
  rewrite Hcols, Hrow.
  rewrite has_id_absent.
  - unfold related; simpl. repeat split; try assumption.
    + exists (rows ++ [row]). split; [| now rewrite Hperm].
      apply Forall2_app; [assumption | now repeat constructor].
    + rewrite fmap_app. apply NoDup_app. repeat split; [assumption | |].
      * intros id Hid ->%list_elem_of_singleton.
        now apply id_absent_not_elem in Hnew.
      * apply NoDup_singleton.
  - rewrite (held_ID _ _ _ Hrow).
    apply (other_id_Permutation _ _ _ Hperm).
    apply (held_all_other_id _ _ _ _ Hall). now apply id_absent_other.
Qed.

Lemma accepted_batch_rows (ps : list Product) :
  forallb (fun p => accepts (postgres.row_of cols p)) ps = true ->
  exists rows, Forall2 (postgres.held cols) ps rows.
Proof.
  induction ps as [| p ps IH]; simpl; [now exists [] |].
  intros [Hp Hps]%andb_true_iff. destruct (IH Hps) as [rows Hrows].
  destruct (postgres.row_of cols p) as [row |] eqn:Hrow; [| discriminate].
  exists (row :: rows). now constructor.
Qed.

Lemma agree_CreateBulk (ps : list Product) :
  distinct_ids ps = true ->
  forallb (fun p => id_absent (ID p) (memory.products r)) ps = true ->
  forallb (fun p => accepts (postgres.row_of cols p)) ps = true ->
  same_up_to_order cols (memory_exec (OpCreateBulk ps) w r).1.1
                        (postgres_exec (OpCreateBulk ps) w db).1.1 /\
  (memory_exec (OpCreateBulk ps) w r).1.2
  = (postgres_exec (OpCreateBulk ps) w db).1.2 /\
  related cols (memory_exec (OpCreateBulk ps) w r).2
               (postgres_exec (OpCreateBulk ps) w db).2.
Proof.
  pose proof Hrel as ((rows & Hall & Hperm) & Hnd & Hreliable & Hcols).
  intros Hdist Hnew [new Hheld]%accepted_batch_rows.
  assert (Hids : NoDup (ID <$> (memory.products r ++ ps))).
  { rewrite fmap_app. apply NoDup_app. repeat split.
    - assumption.
    - intros id Hid (q & -> & Hq)%list_elem_of_fmap.
      rewrite forallb_forall in Hnew.
      specialize (Hnew q (proj1 (list_elem_of_In _ _) Hq)).
      now apply id_absent_not_elem in Hnew.
    - now apply distinct_ids_NoDup. }
  simpl. unfold postgres.CreateBulk, postgres.BeginTxx.
  rewrite reliable_round_trip by assumption.
  destruct (insert_loop_reliable ps new (postgres.mkTx (postgres.table db))
              (postgres.mkDB (postgres.table db) (postgres.faults db)
                             (S (postgres.calls db)) (postgres.columns db)))
    as [n Hn].
  - exact Hreliable.
  - simpl. now rewrite Hcols.
  - simpl. rewrite <- Hperm, fmap_app, (held_all_ID _ _ _ Hall),
      (held_all_ID _ _ _ Hheld), <- fmap_app. exact Hids.
  - cbn [postgres.table postgres.faults] in *. rewrite Hn.
    unfold postgres.Commit. rewrite reliable_round_trip by assumption.
    unfold related; simpl. repeat split; try assumption.
    exists (rows ++ new). split; [now apply Forall2_app | now rewrite Hperm].
Qed.

Lemma agree_GetByID (id : uuid) :
  same_up_to_order cols (memory_exec (OpGetByID id) w r).1.1
                        (postgres_exec (OpGetByID id) w db).1.1 /\
  (memory_exec (OpGetByID id) w r).1.2 = (postgres_exec (OpGetByID id) w db).1.2 /\
  related cols (memory_exec (OpGetByID id) w r).2
               (postgres_exec (OpGetByID id) w db).2.
Proof.
  pose proof Hrel as ((rows & Hall & Hperm) & Hnd & Hreliable & Hcols).
  simpl. unfold postgres.GetByID, memory.GetByID.
  rewrite reliable_round_trip by assumption. cbn [postgres.table].
  destruct (id_absent id (memory.products r)) eqn:Habs.
  - apply id_absent_other in Habs.
    rewrite GetByID_loop_absent by assumption.
    destruct (filter_id_absent id (postgres.table db)) as [-> _].
    { apply (other_id_Permutation _ _ _ Hperm).
      now apply (held_all_other_id _ _ _ _ Hall). }
    simpl. split; [exact I | split; [reflexivity | apply related_round_trip]].
  - destruct (present_split id _ Hnd Habs) as (l1 & p & l2 & Hps & H1 & Hp & H2).
    rewrite Hps, GetByID_loop_found by assumption.
    rewrite Hps in Hall.
    apply held_split in Hall as (r1 & row & r2 & -> & Hr1 & Hrow & Hr2).
    assert (Hfilter : filter (fun row => ID row = id) (postgres.table db) = [row]).
    { apply Permutation_singleton_r. rewrite <- Hperm.
      destruct (filter_id_present id r1 r2 row) as [-> _]; try reflexivity.
      - now apply (held_all_other_id _ _ _ _ Hr1).
      - now rewrite (held_ID _ _ _ Hrow).
      - now apply (held_all_other_id _ _ _ _ Hr2). }
    rewrite Hfilter. simpl.
    split; [exact Hrow | split; [reflexivity | apply related_round_trip]].
Qed.

Lemma agree_List (page pageSize : Z) :
  1 <= page -> page <= max_int -> 0 <= pageSize ->
  page * pageSize <= max_int -> memory.fits (memory.len r) = true ->
  same_up_to_order cols (memory_exec (OpList page pageSize) w r).1.1
                        (postgres_exec (OpList page pageSize) w db).1.1 /\
  (memory_exec (OpList page pageSize) w r).1.2
  = (postgres_exec (OpList page pageSize) w db).1.2 /\
  related cols (memory_exec (OpList page pageSize) w r).2
               (postgres_exec (OpList page pageSize) w db).2.
Proof.
  pose proof Hrel as ((rows & Hall & Hperm) & Hnd & Hreliable & Hcols).
  intros Hp Hpmax Hs Hmax Hfits.
  assert (Hint : is_int page) by int_range.
  simpl. rewrite List_in_range by assumption.
  unfold postgres.List. rewrite reliable_round_trip by assumption.
  change (int_mul (int_sub page 1) pageSize) with (memory.startIndex page pageSize).
  rewrite startIndex_exact
    by (try assumption; int_range).
  unfold postgres.limit_offset.
  destruct (Z.ltb_spec pageSize 0); [lia |].
  destruct (Z.ltb_spec ((page - 1) * pageSize) 0); [nia |].
  simpl. split; [| split; [reflexivity | apply related_round_trip]].
  f_equal. rewrite !length_take, !length_drop.
  now rewrite order_by_Permutation, <- Hperm, (Forall2_length _ _ _ Hall).
Qed.

Lemma agree_GetAll :
  memory.fits (memory.len r) = true ->
  same_up_to_order cols (memory_exec OpGetAll w r).1.1
                        (postgres_exec OpGetAll w db).1.1 /\
  (memory_exec OpGetAll w r).1.2 = (postgres_exec OpGetAll w db).1.2 /\
  related cols (memory_exec OpGetAll w r).2 (postgres_exec OpGetAll w db).2.
Proof.
  pose proof Hrel as ((rows & Hall & Hperm) & Hnd & Hreliable & Hcols).
  intros Hfits. simpl. unfold memory.GetAll, postgres.GetAll.
  rewrite make_ok by (unfold memory.len; try assumption; lia).
  rewrite copy_fresh by (unfold memory.len; lia).
  rewrite reliable_round_trip by assumption.
  simpl. split; [| split; [reflexivity | apply related_round_trip]].
  exists rows. split; [assumption |].
  now rewrite order_by_Permutation.
Qed.

Lemma agree_Update (id : uuid) (req : ProductRequest) :
  id_absent id (memory.products r) = false ->
  accepts (postgres.held_request cols req) = true ->
  accepts (postgres.time_column cols (time_Now w)) = true ->
  same_up_to_order cols (memory_exec (OpUpdate id req) w r).1.1
                        (postgres_exec (OpUpdate id req) w db).1.1 /\
  (memory_exec (OpUpdate id req) w r).1.2
  = (postgres_exec (OpUpdate id req) w db).1.2 /\
  related cols (memory_exec (OpUpdate id req) w r).2
               (postgres_exec (OpUpdate id req) w db).2.
Proof.
  pose proof Hrel as ((rows & Hall & Hperm) & Hnd & Hreliable & Hcols).
  intros Habs Hreq Hnow.
  destruct (postgres.held_request cols req) as [held |] eqn:Hheld;
    [| discriminate].
  destruct (postgres.time_column cols (time_Now w)) as [updated_at |] eqn:Hat;
    [| discriminate].
  destruct (present_split id _ Hnd Habs) as (l1 & p & l2 & Hps & H1 & Hp & H2).
  rewrite Hps in Hall.
  apply held_split in Hall as (r1 & row & r2 & -> & Hr1 & Hrow & Hr2).
  pose proof (held_all_other_id _ _ _ _ Hr1 H1) as Ho1.
  pose proof (held_all_other_id _ _ _ _ Hr2 H2) as Ho2.
  assert (Hid : ID row = id) by (now rewrite (held_ID _ _ _ Hrow)).
  pose proof (update_rows_present cols id req held (time_Now w) updated_at
                r1 r2 row Hheld Hat Ho1 Hid Ho2) as Hupd.
  assert (Htable : exists rows',
             postgres.update_rows cols id req (time_Now w) (postgres.table db)
             = Ok rows' /\
             r1 ++ memory.overwrite held updated_at row :: r2 ≡ₚ rows').
  { rewrite (update_rows_held _ _ _ _ _ _ _ Hheld Hat) in Hupd.
    rewrite (update_rows_held _ _ _ _ _ _ _ Hheld Hat).
    injection Hupd as Hupd. eexists. split; [reflexivity |].
    now rewrite <- Hupd, Hperm. }
  destruct Htable as (rows' & Hrows' & Hperm').
  simpl. unfold memory.Update, postgres.Update.
  rewrite Hps, scan_found by assumption.
  rewrite reliable_round_trip by assumption.
  cbn [postgres.table postgres.faults postgres.columns postgres.calls].
  rewrite Hcols, Hrows'.
  replace (length l1) with (length l1 + 0)%nat by lia.
  rewrite alter_app_r. unfold related. simpl.
  split; [reflexivity | split; [reflexivity |]].
  split; [| split; [| split; [assumption | reflexivity]]].
  - exists (r1 ++ memory.overwrite held updated_at row :: r2).
    split; [| exact Hperm'].
    apply Forall2_app; [assumption |]. constructor; [| assumption].
    clear - Hrow Hheld Hat. unfold postgres.held, postgres.row_of in *.
    cbn [memory.overwrite Name Description Price CreatedAt UpdatedAt ID].
    replace (mkRequest (ReqName req) (ReqDescription req) (ReqPrice req))
      with req by (now destruct req).
    rewrite Hheld, Hat.
    destruct (postgres.held_request cols _); [| discriminate].
    destruct (postgres.time_column cols (CreatedAt p)); [| discriminate].
    destruct (postgres.time_column cols (UpdatedAt p)); [| discriminate].
    now injection Hrow as <-.
  - rewrite Hps in Hnd. now rewrite !fmap_app, !fmap_cons in *.
Qed.

Lemma agree_Delete (id : uuid) :
  same_up_to_order cols (memory_exec (OpDelete id) w r).1.1
                        (postgres_exec (OpDelete id) w db).1.1 /\
  (memory_exec (OpDelete id) w r).1.2 = (postgres_exec (OpDelete id) w db).1.2 /\
  related cols (memory_exec (OpDelete id) w r).2
               (postgres_exec (OpDelete id) w db).2.
Proof.
  pose proof Hrel as ((rows & Hall & Hperm) & Hnd & Hreliable & Hcols).
  simpl. unfold memory.Delete, postgres.Delete.
  rewrite reliable_round_trip by assumption.
  cbn [postgres.table postgres.faults postgres.columns postgres.calls].
  destruct (id_absent id (memory.products r)) eqn:Habs.
  - apply id_absent_other in Habs. rewrite scan_absent by assumption.
    destruct (filter_id_absent id (postgres.table db)) as [_ ->].
    { apply (other_id_Permutation _ _ _ Hperm).
      now apply (held_all_other_id _ _ _ _ Hall). }
    rewrite Nat.sub_diag. unfold related; simpl. repeat split; try assumption.
    now exists rows.
  - destruct (present_split id _ Hnd Habs) as (l1 & p & l2 & Hps & H1 & Hp & H2).
    rewrite Hps, scan_found by assumption.
    pose proof Hall as Hall0. rewrite Hps in Hall.
    apply held_split in Hall as (r1 & row & r2 & Hrows & Hr1 & Hrow & Hr2).
    pose proof (held_all_other_id _ _ _ _ Hr1 H1) as Ho1.
    pose proof (held_all_other_id _ _ _ _ Hr2 H2) as Ho2.
    assert (Hid : ID row = id) by (now rewrite (held_ID _ _ _ Hrow)).
    destruct (filter_id_present id r1 r2 row Ho1 Hid Ho2) as [_ Hkept].
    assert (Hk : filter (fun row => ID row ≠ id) (postgres.table db) ≡ₚ r1 ++ r2).
    { now rewrite <- Hperm, Hrows, Hkept. }
    assert (Hlen : length (postgres.table db) = S (length (r1 ++ r2))).
    { rewrite <- Hperm, Hrows, !length_app. simpl. lia. }
    rewrite Hlen, Hk.
    replace (S (length (r1 ++ r2)) - length (r1 ++ r2))%nat with 1%nat by lia.
    unfold related; simpl. repeat split; try assumption.
    + exists (take (length rows - 1)
                   (<[length l1 := rows !!! (length rows - 1)%nat]> rows)).
      split.
      * rewrite <- Hps, (Forall2_length _ _ _ Hall0).
        apply Forall2_take, Forall2_insert; [assumption |].
        destruct (rows !! (length rows - 1)%nat) as [z |] eqn:Hz.
        -- destruct (Forall2_lookup_r _ _ _ _ _ Hall0 Hz) as (y & Hy & Hyz).
           rewrite (list_lookup_total_correct _ _ _ Hy),
             (list_lookup_total_correct _ _ _ Hz). exact Hyz.
        -- apply lookup_ge_None in Hz. rewrite Hrows, length_app in Hz.
           simpl in Hz. lia.
      * rewrite Hk, Hrows, (Forall2_length _ _ _ Hr1). apply swap_with_last.
    + rewrite swap_with_last.
      rewrite Hps in Hnd. rewrite fmap_app, fmap_cons in Hnd.
      rewrite fmap_app. apply NoDup_app in Hnd as (Ha & Hb & Hc).
      apply NoDup_cons in Hc as [_ Hc]. apply NoDup_app. repeat split; auto.
      intros x Hx Hx2. apply (Hb x Hx). now right.
Qed.

Lemma agree_DeleteAll :
  same_up_to_order cols (memory_exec OpDeleteAll w r).1.1
                        (postgres_exec OpDeleteAll w db).1.1 /\
  (memory_exec OpDeleteAll w r).1.2 = (postgres_exec OpDeleteAll w db).1.2 /\
  related cols (memory_exec OpDeleteAll w r).2 (postgres_exec OpDeleteAll w db).2.
Proof.
  pose proof Hrel as (Hrows & Hnd & Hreliable & Hcols).
  simpl. unfold postgres.DeleteAll.
  rewrite reliable_round_trip by assumption. unfold related. simpl.
  split; [reflexivity | split; [reflexivity |]].
  split; [now exists [] | split; [apply NoDup_nil_2 | split; assumption]].
Qed.

Lemma agree_Count :
  same_up_to_order cols (memory_exec OpCount w r).1.1
                        (postgres_exec OpCount w db).1.1 /\
  (memory_exec OpCount w r).1.2 = (postgres_exec OpCount w db).1.2 /\
  related cols (memory_exec OpCount w r).2 (postgres_exec OpCount w db).2.
Proof.
  pose proof Hrel as ((rows & Hall & Hperm) & Hnd & Hreliable & Hcols).
  simpl. unfold postgres.Count, memory.Count, memory.len.
  rewrite reliable_round_trip by assumption. simpl.
  split; [| split; [reflexivity | apply related_round_trip]].
  now rewrite <- Hperm, (Forall2_length _ _ _ Hall).
Qed.

(** One call, made on related datasets: the outputs agree up to the
    columns and to order, the worlds stay the same, and the datasets stay
    related. *)
Lemma agree_exec (op : Op) :
  in_range_present_accepted cols op w r = true ->
  same_up_to_order cols (memory_exec op w r).1.1 (postgres_exec op w db).1.1 /\
  (memory_exec op w r).1.2 = (postgres_exec op w db).1.2 /\
  related cols (memory_exec op w r).2 (postgres_exec op w db).2.
Proof.
  unfold in_range_present_accepted, in_range_and_present.
  intros [[Hrange Hupd]%andb_true_iff Hacc]%andb_true_iff.
  destruct op; cbn [in_range_call update_of_present accepted] in Hrange, Hupd, Hacc.
  - now apply agree_Create.
  - apply andb_true_iff in Hrange as [? ?]. now apply agree_CreateBulk.
  - apply agree_GetByID.
  - repeat (apply andb_true_iff in Hrange as [Hrange ?]).
    apply agree_List; try assumption; now (apply Z.leb_le).
  - now apply agree_GetAll.
  - apply andb_true_iff in Hacc as [? ?].
    apply agree_Update; try assumption. now apply negb_true_iff.
  - apply agree_Delete.
  - apply agree_DeleteAll.
  - apply agree_Count.
Qed.
End Calls.

Lemma agree_run (cols : postgres.Columns) (evs : list Event) :
  forall (w : World) (r : memory.ProductMemoryRepository)
         (db : postgres.ProductRepository),
    related cols r db ->
    every_call memory_exec (in_range_present_accepted cols) evs w r = true ->
    Forall2 (same_up_to_order cols) (outputs (run memory_exec evs w r))
                                    (outputs (run postgres_exec evs w db)).
Proof.
  unfold outputs.
  induction evs as [| [d | op] evs IH]; intros w r db Hrel Hok; cbn [run].
  - constructor.
  - now apply IH.
  - cbn [every_call] in Hok. apply andb_true_iff in Hok as [Hop Hrest].
    pose proof (agree_exec cols w r db Hrel op Hop) as (Hout & Hw & Hrel').
    destruct (memory_exec op w r) as [[o1 w1] r1].
    destruct (postgres_exec op w db) as [[o2 w2] db2].
    simpl in Hout, Hw, Hrel'. subst w2.
    specialize (IH w1 r1 db2 Hrel' Hrest).
    destruct (run memory_exec evs w1 r1) as [[outs1 w1'] r1'].
    destruct (run postgres_exec evs w1 db2) as [[outs2 w2'] db2'].
    simpl in *. now constructor.
Qed.
End backend_simulation.

(** ** The sample server meets the schema *)

Module server_facts.
Import postgres samples.
Local Open Scope Z_scope.

Lemma all_blank_blanks (s : string) :
  all_blank s = true -> s = blanks (String.length s).
Proof.
  induction s as [| c rest IH]; simpl; [reflexivity |].
  intros [Hc Hrest]%andb_true_iff.
  apply Ascii.eqb_eq in Hc as ->. now rewrite <- IH.
Qed.

Lemma varchar_spec (s : string) :
  forall (n : nat) (s' : string),
    varchar n s = Some s' ->
    (characters s' <= n)%nat /\ exists k, s = (s' +:+ blanks k)%string.
Proof.
  induction s as [| c rest IH]; intros n s'; cbn [varchar].
  - intros [= <-]. split; [simpl; lia | now exists 0%nat].
  - destruct (is_continuation c) eqn:Hc.
    + destruct (varchar n rest) as [s'' |] eqn:Hrest; [| discriminate].
      intros [= <-]. destruct (IH n s'' Hrest) as (Hlen & k & ->).
      split; [cbn [characters]; rewrite Hc; lia | now exists k].
    + destruct n as [| n'].
      * destruct (all_blank (String c rest)) eqn:Hblank; [| discriminate].
        intros [= <-]. split; [simpl; lia |].
        exists (String.length (String c rest)).
        now apply all_blank_blanks in Hblank.
      * destruct (varchar n' rest) as [s'' |] eqn:Hrest; [| discriminate].
        intros [= <-]. destruct (IH n' s'' Hrest) as (Hlen & k & ->).
        split; [cbn [characters]; rewrite Hc; lia | now exists k].
Qed.

Lemma decimal_spec (f f' : float64) :
  decimal f = Some f' ->
  f' = S754_nan \/ exists k, Z.abs k < 10 ^ 10 /\ f' = cents k.
Proof.
  unfold decimal.
  destruct f as [s | s | | s m e]; cbn [nearest_cent].
  - destruct (Z.ltb_spec (Z.abs 0) (10 ^ 10)); [| discriminate].
    intros [= <-]. right. now exists 0.
  - discriminate.
  - intros [= <-]. now left.
  - match goal with
    | |- context [Z.abs ?k <? _] => destruct (Z.ltb_spec (Z.abs k) (10 ^ 10))
    end; [| discriminate].
    intros [= <-]. right. eexists. split; [eassumption | reflexivity].
Qed.

Lemma decimal_refuses (f : float64) :
  magnitude_at_least (10 ^ 8) f = true -> decimal f = None.
Proof.
  assert (Hpow : 10 ^ 10 = 100 * 10 ^ 8) by reflexivity.
  assert (Hpos : 0 < 10 ^ 8) by reflexivity.
  unfold decimal, magnitude_at_least.
  destruct f as [s | s | | s m e]; try discriminate; [reflexivity |].
  cbn [nearest_cent]. rewrite Hpow. generalize dependent (10 ^ 8).
  intros P _ HP Hbig. cbn zeta.
  set (below := if 0 <=? e then 100 * Z.pos m * 2 ^ e
                else 100 * Z.pos m / 2 ^ (- e)).
  set (exact := if 0 <=? e then 100 * Z.pos m * 2 ^ e
                else (2 * (100 * Z.pos m) + 2 ^ (- e)) / (2 * 2 ^ (- e))).
  assert (Hk : 100 * P <= below /\ 100 * P <= exact).
  { unfold below, exact. destruct (Z.leb_spec 0 e) as [He | He].
    - apply Z.leb_le in Hbig. lia.
    - apply Z.leb_le in Hbig.
      assert (Hd : 0 < 2 ^ (- e)) by (apply Z.pow_pos_nonneg; lia).
      split; apply Z.div_le_lower_bound; try lia; nia. }
  match goal with
  | |- context [if SFeqb ?a ?b then _ else _] => destruct (SFeqb a b)
  end.
  - destruct (Z.ltb_spec (Z.abs (if s then - (below + 1) else below + 1))
                (100 * P)); [| reflexivity].
    destruct s; lia.
  - destruct (Z.ltb_spec (Z.abs (if s then - exact else exact)) (100 * P));
      [| reflexivity].
    destruct s; lia.
Qed.

(** The [float64] of 2.675 lies below 2.675 and yet makes 2.68, as the
    decimal that the driver sends for it is 2.675; an eighth makes
    thirteen cents; and the largest [float64] below [10^8] is refused. *)
Example decimal_of_halves :
  decimal f64_2_675 = Some (cents 268) /\
  decimal f64_0_125 = Some (cents 13) /\
  decimal (S754_finite true 4503599627370496 (-55)) = Some (cents (-13)) /\
  decimal (S754_finite false 6710886399999999 (-26)) = None.
Proof. repeat split. Qed.

Lemma microseconds_spec (t t' : Time) :
  microseconds t = Some t' -> t' mod 1000 = 0 /\ Z.abs (t' - t) <= 500.
Proof.
  unfold microseconds. intros [= <-].
  split; [now rewrite Z.mul_comm, Z_mod_mult |].
  pose proof (Z.div_mod (t + 500) 1000 ltac:(lia)).
  pose proof (Z.mod_pos_bound (t + 500) 1000 ltac:(lia)). lia.
Qed.

Lemma server_schema : schema server.
Proof.
  constructor; cbn [server name_column description_column price_column
                    time_column].
  - intros s s'. apply varchar_spec.
  - now intros s s' [= <-].
  - apply decimal_spec.
  - apply decimal_refuses.
  - apply microseconds_spec.
Qed.
End server_facts.

Module contract_claims.
Import service contract backend_simulation samples.

(** C8, as stated, fails: the persistent backend returns pages in
    descending order of [created_at], the in-memory backend in the order
    of its slice.  After two creations a moment apart the first page of
    size one holds the first product in memory and the second in the
    table. *)
Lemma backends_agree_on_every_sequence_fails :
  ~ backends_agree_on_every_sequence.
Proof.
  intros H.
  specialize (H server world0 two_then_first_page server_facts.server_schema
                eq_refl).
  vm_compute in H.
  inversion H as [| ? ? ? ? _ H1]; subst.
  inversion H1 as [| ? ? ? ? _ H2]; subst.
  inversion H2 as [| ? ? ? ? Hpage _]; subst.
  discriminate Hpage.
Qed.

(** The two backends also part on an [Update] of an id no product has:
    not found in memory, success on the table. *)
Example Update_of_absent_id_differs :
  outputs (run memory_exec update_of_nothing world0 memory.NewProductMemoryRepository)
  = [OutErr (Return (Err ErrProductNotFound))] /\
  outputs (run postgres_exec update_of_nothing world0
             (postgres.reliable_empty server))
  = [OutErr (Return (Ok tt))].
Proof. split; reflexivity. Qed.

(** And on a creation under an id the dataset has: appended in memory,
    refused by the primary key of the table. *)
Example Create_of_present_id_differs :
  outputs (run memory_exec batch_twice world0 memory.NewProductMemoryRepository)
  = [OutErr (Return (Ok tt)); OutErr (Return (Ok tt))] /\
  outputs (run postgres_exec batch_twice world0
             (postgres.reliable_empty server))
  = [OutErr (Return (Ok tt)); OutErr (Return (Err ErrUniqueViolation))].
Proof. split; reflexivity. Qed.

(** And on a value that a column refuses, here a name of 256 characters:
    kept in memory, refused by the table. *)
Example Create_of_long_name_differs :
  outputs (run memory_exec create_long_named world0
             memory.NewProductMemoryRepository)
  = [OutErr (Return (Ok tt))] /\
  outputs (run postgres_exec create_long_named world0
             (postgres.reliable_empty server))
  = [OutErr (Return (Err ErrDriver))].
Proof. split; reflexivity. Qed.

(** And on what is read back: a price of an eighth comes back as it is
    from memory and as thirteen cents from the table. *)
Example GetByID_of_rounded_price_differs :
  outputs (run memory_exec create_eighth_then_get world0
             memory.NewProductMemoryRepository)
  = [OutErr (Return (Ok tt));
     OutProduct (Return (Ok (mkProduct 1%N "Widget" "" f64_0_125
                                       1000%Z 1000%Z)))] /\
  outputs (run postgres_exec create_eighth_then_get world0
             (postgres.reliable_empty server))
  = [OutErr (Return (Ok tt));
     OutProduct (Return (Ok (mkProduct 1%N "Widget" "" (postgres.cents 13)
                                       1000%Z 1000%Z)))].
Proof. split; reflexivity. Qed.

(** C8, amended: on a connection that never fails, for every sequence of
    calls with new ids on creation, values that the columns of the table
    accept, pages within the range of [int] and [Update] only of ids
    that are present, the two backends give call by call the same success
    or failure, the same count, and pages of the same length from
    [List]; [GetByID] gives the product on one side and its row, the
    product as the columns hold it, on the other; [GetAll] gives the
    products on one side and their rows in some order on the other.
    This holds whatever the columns make of the values. *)
Theorem backends_agree_up_to_order (cols : postgres.Columns) (w : World)
    (evs : list Event) :
  every_call memory_exec (in_range_present_accepted cols) evs w
    memory.NewProductMemoryRepository
  = true ->
  Forall2 (same_up_to_order cols)
    (outputs (run memory_exec evs w memory.NewProductMemoryRepository))
    (outputs (run postgres_exec evs w (postgres.reliable_empty cols))).
Proof.
  apply agree_run. split; [now exists [] |].
  split; [apply NoDup_nil_2 |]. split; [| reflexivity].
  intros n. reflexivity.
Qed.

Lemma backends_agree_up_to_order_witness :
  Forall2 (same_up_to_order server)
    (outputs (run memory_exec session world0 memory.NewProductMemoryRepository))
    (outputs (run postgres_exec session world0
                (postgres.reliable_empty server))).
Proof.
  apply (backends_agree_up_to_order server world0 session).
  vm_compute. reflexivity.
Defined.
End contract_claims.

(** ** Rounding in binary64 *)

Module binary64_rounding.
Import binary64.
Local Open Scope Z_scope.

Lemma fexp64 (x : Z) : fexp 53 1024 x = Z.max (x - 53) (-1074).
Proof. reflexivity. Qed.

Lemma pow2_pos (n : Z) : 0 <= n -> 0 < 2 ^ n.
Proof. intros. now apply Z.pow_pos_nonneg. Qed.

Lemma pow2_add (a b : Z) : 0 <= a -> 0 <= b -> 2 ^ (a + b) = 2 ^ a * 2 ^ b.
Proof. intros. now apply Z.pow_add_r. Qed.

(** *** The number of binary digits *)

Lemma digits2_pos_bounds (m : positive) :
  2 ^ (Zpos (digits2_pos m) - 1) <= Zpos m < 2 ^ Zpos (digits2_pos m).
Proof.
  induction m as [m IH | m IH |]; cbn [digits2_pos].
  - rewrite Pos2Z.inj_succ.
    replace (Z.succ (Zpos (digits2_pos m)) - 1) with (Z.succ (Zpos (digits2_pos m) - 1)) by lia.
    rewrite !Z.pow_succ_r by lia. lia.
  - rewrite Pos2Z.inj_succ.
    replace (Z.succ (Zpos (digits2_pos m)) - 1) with (Z.succ (Zpos (digits2_pos m) - 1)) by lia.
    rewrite !Z.pow_succ_r by lia. lia.
  - simpl. lia.
Qed.

Lemma Zdigits2_nonneg (q : Z) : 0 <= q -> 0 <= Zdigits2 q.
Proof. destruct q; simpl; lia. Qed.

Lemma Zdigits2_upper (q : Z) : 0 <= q -> q < 2 ^ Zdigits2 q.
Proof.
  destruct q as [| p | p]; simpl; [lia | | lia].
  intros _. apply digits2_pos_bounds.
Qed.

Lemma Zdigits2_le (q d : Z) : 0 <= q -> 0 <= d -> q < 2 ^ d -> Zdigits2 q <= d.
Proof.
  destruct q as [| p | p]; simpl; [lia | | lia].
  intros _ Hd Hq. pose proof (digits2_pos_bounds p) as [Hlow _].
  assert (H : 2 ^ (Zpos (digits2_pos p) - 1) < 2 ^ d) by lia.
  apply Z.pow_lt_mono_r_iff in H; lia.
Qed.

(** *** Shifting right *)

Lemma tracks_start (M : Z) : tracks M 0 (shr_record_of_loc M loc_Exact).
Proof. split; simpl; [now rewrite Z.div_1_r | auto]. Qed.

Lemma shr_1_tracks (M n : Z) (mrs : shr_record) :
  0 <= M -> 0 <= n -> tracks M n mrs -> tracks M (n + 1) (shr_1 mrs).
Proof.
  intros HM Hn [Hm Hexact]. destruct mrs as [m r s]. simpl in Hm, Hexact.
  pose proof (pow2_pos n Hn) as HP.
  assert (Hm0 : 0 <= m) by (rewrite Hm; apply Z.div_pos; lia).
  assert (Hdiv : M / 2 ^ (n + 1) = m / 2).
  { rewrite pow2_add, <- Z.div_div, <- Hm by lia. reflexivity. }
  assert (Hrem : M mod 2 ^ (n + 1) = 0 -> M mod 2 ^ n = 0 /\ m mod 2 = 0).
  { rewrite pow2_add by lia. change (2 ^ 1) with 2. intros H0.
    apply Z.mod_divide in H0 as [k Hk]; [| lia]. subst M. split.
    - replace (k * (2 ^ n * 2)) with (k * 2 * 2 ^ n) by lia.
      now apply Z.mod_mul; lia.
    - rewrite Hm. replace (k * (2 ^ n * 2)) with (k * 2 * 2 ^ n) by lia.
      rewrite Z.div_mul by lia. now apply Z.mod_mul. }
  unfold tracks. rewrite Hdiv.
  destruct m as [| [p | p |] | p]; simpl; try lia.
  - split; [reflexivity |]. intros H0. destruct (Hrem H0) as [He _].
    destruct (Hexact He) as [-> ->]. auto.
  - split; [rewrite Pos2Z.inj_xI; Z.div_mod_to_equations; lia |]. intros H0.
    destruct (Hrem H0) as [_ Hodd]. rewrite Pos2Z.inj_xI in Hodd.
    Z.div_mod_to_equations. lia.
  - split; [rewrite Pos2Z.inj_xO; Z.div_mod_to_equations; lia |]. intros H0.
    destruct (Hrem H0) as [He _]. destruct (Hexact He) as [-> ->]. auto.
  - split; [reflexivity |]. intros H0. destruct (Hrem H0) as [_ Hodd].
    discriminate Hodd.
Qed.

Lemma iter_pos_tracks (M : Z) (p : positive) :
  0 <= M ->
  forall (n : Z) (mrs : shr_record),
    0 <= n -> tracks M n mrs -> tracks M (n + Zpos p) (SpecFloat.iter_pos shr_1 p mrs).
Proof.
  intros HM. induction p as [p IH | p IH |]; intros n mrs Hn H; cbn [SpecFloat.iter_pos].
  - replace (n + Zpos p~1) with (n + 1 + Zpos p + Zpos p) by lia.
    apply IH; [lia |]. apply IH; [lia |]. now apply shr_1_tracks.
  - replace (n + Zpos p~0) with (n + Zpos p + Zpos p) by lia.
    apply IH; [lia |]. now apply IH.
  - now apply shr_1_tracks.
Qed.

(** [shr_fexp] on an exact non-negative mantissa: the exponent moves up to
    the one the format asks for, never down. *)
Lemma shr_fexp_exact (m e : Z) :
  0 <= m ->
  exists mrs,
    shr_fexp 53 1024 m e loc_Exact
    = (mrs, Z.max e (fexp 53 1024 (Zdigits2 m + e))) /\
    tracks m (Z.max e (fexp 53 1024 (Zdigits2 m + e)) - e) mrs.
Proof.
  intros Hm. unfold shr_fexp, shr.
  destruct (fexp 53 1024 (Zdigits2 m + e) - e) as [| p | p] eqn:Hn.
  - exists (shr_record_of_loc m loc_Exact).
    replace (Z.max e (fexp 53 1024 (Zdigits2 m + e))) with e by lia.
    rewrite Z.sub_diag. split; [reflexivity | apply tracks_start].
  - exists (SpecFloat.iter_pos shr_1 p (shr_record_of_loc m loc_Exact)).
    replace (Z.max e (fexp 53 1024 (Zdigits2 m + e))) with (e + Zpos p) by lia.
    split; [reflexivity |].
    replace (e + Zpos p - e) with (0 + Zpos p) by lia.
    apply iter_pos_tracks; [assumption | lia | apply tracks_start].
  - exists (shr_record_of_loc m loc_Exact).
    replace (Z.max e (fexp 53 1024 (Zdigits2 m + e))) with e by lia.
    rewrite Z.sub_diag. split; [reflexivity | apply tracks_start].
Qed.

(** Rounding to nearest moves the quotient up by at most one, and not at
    all when the division was exact. *)
Lemma round_tracks (M n : Z) (mrs : shr_record) :
  0 <= M -> 0 <= n -> tracks M n mrs ->
  let q := round_nearest_even (shr_m mrs) (loc_of_shr_record mrs) in
  0 <= q /\
  (forall C, M <= C * 2 ^ n -> q <= C) /\
  (forall C, C * 2 ^ n <= M -> C <= q).
Proof.
  intros HM Hn [Hm Hexact]. pose proof (pow2_pos n Hn) as HP.
  assert (Hm0 : 0 <= shr_m mrs) by (rewrite Hm; apply Z.div_pos; lia).
  assert (Hq : shr_m mrs <= round_nearest_even (shr_m mrs) (loc_of_shr_record mrs)
               <= shr_m mrs + 1).
  { destruct mrs as [m [|] [|]]; simpl; try lia.
    destruct (Z.even m); lia. }
  assert (Hqe : M mod 2 ^ n = 0 ->
                round_nearest_even (shr_m mrs) (loc_of_shr_record mrs) = shr_m mrs).
  { intros H0. destruct (Hexact H0) as [Hr Hs].
    destruct mrs as [m r s]. simpl in *. now subst. }
  pose proof (Z.div_mod M (2 ^ n) ltac:(lia)) as Hdm.
  pose proof (Z.mod_pos_bound M (2 ^ n) HP) as Hmod.
  cbn zeta. split; [lia |]. split.
  - intros C HC. destruct (Z.eq_dec (M mod 2 ^ n) 0) as [H0 | Hne].
    + rewrite (Hqe H0), Hm. apply Z.div_le_upper_bound; lia.
    + assert (shr_m mrs < C); [| lia]. rewrite Hm.
      apply Z.div_lt_upper_bound; [lia |].
      assert (M <> C * 2 ^ n) by (intros ->; apply Hne, Z.mod_mul; lia).
      lia.
  - intros C HC. assert (C <= shr_m mrs); [| lia]. rewrite Hm.
    apply Z.div_le_lower_bound; lia.
Qed.

(** *** Rounding an exact positive mantissa *)

Lemma binary_round_aux_spec (M : positive) (E : Z) :
  let e1 := Z.max E (fexp 53 1024 (Zpos (digits2_pos M) + E)) in
  exists q m e : Z,
    binary_round_aux 53 1024 false (Zpos M) E loc_Exact = finish m e /\
    0 <= q /\
    (forall C, Zpos M <= C * 2 ^ (e1 - E) -> q <= C) /\
    (forall C, C * 2 ^ (e1 - E) <= Zpos M -> C <= q) /\
    e = Z.max e1 (fexp 53 1024 (Zdigits2 q + e1)) /\
    m = q / 2 ^ (e - e1) /\
    0 <= m < 2 ^ 53.
Proof.
  intros e1. unfold binary_round_aux.
  destruct (shr_fexp_exact (Zpos M) E) as (mrs1 & H1 & T1); [lia |].
  change (Zdigits2 (Zpos M)) with (Zpos (digits2_pos M)) in H1, T1.
  fold e1 in H1, T1. rewrite H1.
  destruct (round_tracks (Zpos M) (e1 - E) mrs1) as (Hq0 & Hup & Hlow);
    [lia | lia | exact T1 |].
  set (q := round_nearest_even (shr_m mrs1) (loc_of_shr_record mrs1)) in *.
  destruct (shr_fexp_exact q e1 Hq0) as (mrs2 & H2 & [Hm2 _]).
  rewrite H2.
  set (e := Z.max e1 (fexp 53 1024 (Zdigits2 q + e1))) in *.
  exists q, (shr_m mrs2), e.
  split; [reflexivity |]. repeat (split; [assumption || reflexivity |]).
  rewrite Hm2.
  pose proof (Zdigits2_upper q Hq0) as Hdq.
  pose proof (Zdigits2_nonneg q Hq0) as Hd0.
  assert (Hk : 0 <= e - e1 /\ Zdigits2 q - 53 <= e - e1).
  { unfold e. rewrite fexp64. lia. }
  pose proof (pow2_pos (e - e1) (proj1 Hk)) as HP.
  split; [apply Z.div_pos; lia |].
  apply Z.div_lt_upper_bound; [lia |].
  rewrite <- pow2_add by lia.
  eapply Z.lt_le_trans; [exact Hdq |].
  apply Z.pow_le_mono_r; lia.
Qed.

(** *** Values, in units of [2 ^ -1200] *)

Lemma scaled_shift (m e k : Z) :
  -1200 <= e -> 0 <= k -> scaled (m * 2 ^ k) e = scaled m (e + k).
Proof.
  intros He Hk. unfold scaled.
  replace (e + k + 1200) with (k + (e + 1200)) by lia.
  rewrite (pow2_add k (e + 1200)) by lia. lia.
Qed.

Lemma scaled_le (a b e : Z) : -1200 <= e -> scaled a e <= scaled b e <-> a <= b.
Proof.
  intros He. unfold scaled. pose proof (pow2_pos (e + 1200) ltac:(lia)).
  split; [intros; nia | intros; nia].
Qed.

Lemma scaled_lt (a b e : Z) : -1200 <= e -> scaled a e < scaled b e <-> a < b.
Proof.
  intros He. unfold scaled. pose proof (pow2_pos (e + 1200) ltac:(lia)).
  split; [intros; nia | intros; nia].
Qed.

(** Rounding keeps a value between two bounds that lie on the grid of
    the result: with [lo <= x <= hi < 2 ^ t], both bounds multiples of
    the unit at the largest exponent [top] that a result below [2 ^ t]
    can have, the rounded value is again between [lo] and [hi], and its
    exponent at most [top]. *)
Lemma round_between (M : positive) (E Clo klo Chi khi t : Z) :
  -1200 <= E -> -1074 <= t ->
  let top := Z.max E (fexp 53 1024 t) in
  top <= khi -> top <= klo ->
  scaled Chi khi < scaled 1 t ->
  scaled Clo klo <= scaled (Zpos M) E <= scaled Chi khi ->
  exists m e : Z,
    binary_round_aux 53 1024 false (Zpos M) E loc_Exact = finish m e /\
    0 <= m < 2 ^ 53 /\ E <= e <= top /\
    scaled Clo klo <= scaled m e <= scaled Chi khi.
Proof.
  intros HE Ht top Hkhi Hklo Hhi [Hlo Hup].
  destruct (binary_round_aux_spec M E) as (q & m & e & Hres & Hq0 & Hqup & Hqlow & He & Hm & Hm53).
  set (e1 := Z.max E (fexp 53 1024 (Zpos (digits2_pos M) + E))) in *.
  assert (HtE : E < t).
  { destruct (Z.lt_ge_cases E t) as [| Hge]; [assumption | exfalso].
    assert (scaled 1 t <= scaled (Zpos M) E); [| lia].
    replace E with (t + (E - t)) by lia.
    rewrite <- scaled_shift by lia.
    apply scaled_le; [lia |].
    pose proof (pow2_pos (E - t) ltac:(lia)). nia. }
  assert (Htop : top <= t) by (unfold top; rewrite fexp64; lia).
  (* the input is below 2 ^ t, so its exponent is at most [top] *)
  assert (HM : Zpos M < 2 ^ (t - E)).
  { assert (H : scaled (Zpos M) E < scaled (1 * 2 ^ (t - E)) E).
    { rewrite scaled_shift by lia. replace (E + (t - E)) with t by lia. lia. }
    apply scaled_lt in H; lia. }
  assert (He1 : E <= e1 <= top).
  { unfold e1, top. rewrite !fexp64.
    pose proof (Zdigits2_le (Zpos M) (t - E) ltac:(lia) ltac:(lia) HM) as Hd.
    simpl in Hd. lia. }
  (* the first rounding stays below the upper bound *)
  assert (Hq : q <= Chi * 2 ^ (khi - e1)).
  { apply Hqup. rewrite <- Z.mul_assoc, <- pow2_add by lia.
    replace (khi - e1 + (e1 - E)) with (khi - E) by lia.
    apply (scaled_le _ _ E HE). rewrite scaled_shift by lia.
    replace (E + (khi - E)) with khi by lia. exact Hup. }
  assert (Hqs : scaled q e1 <= scaled Chi khi).
  { replace khi with (e1 + (khi - e1)) by lia.
    rewrite <- scaled_shift by lia. apply scaled_le; lia. }
  assert (Hqt : q < 2 ^ (t - e1)).
  { assert (H : scaled q e1 < scaled (1 * 2 ^ (t - e1)) e1).
    { rewrite scaled_shift by lia. replace (e1 + (t - e1)) with t by lia. lia. }
    apply scaled_lt in H; lia. }
  assert (Hetop : e1 <= e <= top).
  { rewrite He. unfold top in *. rewrite !fexp64 in *.
    pose proof (Zdigits2_le q (t - e1) Hq0 ltac:(lia) Hqt). lia. }
  pose proof (pow2_pos (e - e1) ltac:(lia)) as HP.
  pose proof (Z.div_mod q (2 ^ (e - e1)) ltac:(lia)) as Hdm.
  pose proof (Z.mod_pos_bound q (2 ^ (e - e1)) HP) as Hmod.
  exists m, e. split; [exact Hres |]. split; [exact Hm53 |]. split; [lia |].
  split.
  - (* lower bound *)
    assert (Hc : Clo * 2 ^ (klo - e) <= m).
    { rewrite Hm. apply Z.div_le_lower_bound; [lia |].
      apply Hqlow.
      replace (2 ^ (e - e1) * (Clo * 2 ^ (klo - e)) * 2 ^ (e1 - E))
        with (Clo * (2 ^ (klo - e) * 2 ^ (e - e1) * 2 ^ (e1 - E))) by lia.
      rewrite <- !pow2_add by lia.
      replace (klo - e + (e - e1) + (e1 - E)) with (klo - E) by lia.
      apply (scaled_le _ _ E HE). rewrite scaled_shift by lia.
      replace (E + (klo - E)) with klo by lia. exact Hlo. }
    replace klo with (e + (klo - e)) by lia.
    rewrite <- scaled_shift by lia. apply scaled_le; lia.
  - (* upper bound *)
    eapply Z.le_trans; [| exact Hqs].
    replace e with (e1 + (e - e1)) at 1 by lia.
    rewrite <- scaled_shift by lia. apply scaled_le; [lia |].
    rewrite Hm. nia.
Qed.
End binary64_rounding.

(** ** The price of a generated product *)

Module price_range.
Import binary64 binary64_rounding.
Local Open Scope Z_scope.

(** What [in_unit_interval] says of a finite float. *)
Lemma unit_interval_finite (s : bool) (m : positive) (e : Z) :
  in_unit_interval (S754_finite s m e) = true ->
  s = false /\ -1074 <= e < 0 /\ Zpos m < 2 ^ 53 /\ Zpos m < 2 ^ (- e).
Proof.
  unfold in_unit_interval, f64_leb, f64_ltb, SFleb, SFltb.
  intros [[Hvalid Hpos]%andb_true_iff Hlt]%andb_true_iff.
  destruct s; [discriminate Hpos |]. split; [reflexivity |].
  cbn [valid_binary] in Hvalid. unfold bounded, canonical_mantissa in Hvalid.
  apply andb_true_iff in Hvalid as [Hcanon _]. apply Z.eqb_eq in Hcanon.
  rewrite fexp64 in Hcanon.
  pose proof (digits2_pos_bounds m) as [_ Hm].
  assert (Hd : Zpos (digits2_pos m) <= 53) by lia.
  assert (Hm53 : Zpos m < 2 ^ 53).
  { eapply Z.lt_le_trans; [exact Hm |]. apply Z.pow_le_mono_r; lia. }
  cbn [SFcompare f64_1] in Hlt.
  destruct (Z.compare_spec e (-52)) as [-> | He | He]; [| | discriminate Hlt].
  - rewrite Pos.compare_cont_spec in Hlt. simpl in Hlt.
    destruct (Pos.compare_spec m 4503599627370496) as [| Hlt' |];
      try discriminate Hlt.
    apply Pos2Z.pos_lt_pos in Hlt'.
    split; [lia |]. split; [exact Hm53 |].
    change (2 ^ (- -52)) with 4503599627370496. exact Hlt'.
  - split; [lia |]. split; [exact Hm53 |].
    eapply Z.lt_le_trans; [exact Hm53 |]. apply Z.pow_le_mono_r; lia.
Qed.

(** Below one times 990 is at most the float before 990, but for the
    float before one. *)
Lemma below_one_times_990 (m e : Z) :
  0 < m < 2 ^ 53 -> e < 0 -> m < 2 ^ (- e) ->
  ~ (m = 2 ^ 53 - 1 /\ e = -53) ->
  m * 8708132091985920 <= 8708132091985919 * 2 ^ (- e).
Proof.
  intros Hm He Hlt Hnot.
  destruct (Z.le_gt_cases (- e) 52) as [Hsmall | Hbig].
  - assert (2 ^ (- e) <= 2 ^ 52) by (apply Z.pow_le_mono_r; lia).
    change (2 ^ 52) with 4503599627370496 in *. nia.
  - destruct (Z.eq_dec e (-53)) as [-> | Hne].
    + change (2 ^ (- -53)) with 9007199254740992 in *.
      change (2 ^ 53) with 9007199254740992 in *. lia.
    + assert (2 ^ 54 <= 2 ^ (- e)) by (apply Z.pow_le_mono_r; lia).
      change (2 ^ 54) with 18014398509481984 in *.
      change (2 ^ 53) with 9007199254740992 in *. nia.
Qed.

Lemma scaled_nonneg (m e : Z) : 0 <= m -> -1200 <= e -> 0 <= scaled m e.
Proof.
  intros Hm He. unfold scaled. pose proof (pow2_pos (e + 1200) ltac:(lia)). nia.
Qed.

Lemma scaled_0 (e : Z) : scaled 0 e = 0.
Proof. reflexivity. Qed.

Lemma scaled_add (a b e : Z) : scaled (a + b) e = scaled a e + scaled b e.
Proof. unfold scaled. lia. Qed.

Lemma top_10 (E : Z) : E <= -43 -> Z.max E (fexp 53 1024 10) = -43.
Proof. intros. rewrite fexp64. lia. Qed.

(** A float of the unit interval times 990.0: zero, or a positive float
    of at most the float before 990. *)
Lemma mul_990_range (f : float64) :
  in_unit_interval f = true ->
  (exists s, f64_mul f f64_990 = S754_zero s) \/
  (exists (p : positive) (e : Z),
      f64_mul f f64_990 = S754_finite false p e /\
      -1117 <= e <= -43 /\
      scaled (Zpos p) e <= scaled 8708132091985919 (-43)).
Proof.
  intros Hunit. destruct f as [s | s | | s m e].
  - left. eexists. reflexivity.
  - destruct s; discriminate Hunit.
  - discriminate Hunit.
  - apply unit_interval_finite in Hunit as (-> & He & Hm53 & Hm1).
    assert (Hcase : (Zpos m = 9007199254740991 /\ e = -53) \/
                    ~ (Zpos m = 2 ^ 53 - 1 /\ e = -53)).
    { change (2 ^ 53 - 1) with 9007199254740991. lia. }
    destruct Hcase as [[Hmax ->] | Hnot].
    + injection Hmax as ->. right.
      exists 8708132091985919%positive, (-43).
      split; [vm_compute; reflexivity |].
      split; [split; discriminate | apply Z.le_refl].
    + unfold f64_mul, f64_990. cbn [SFmul xorb].
      destruct (round_between (m * 8708132091985920) (e + -43)
                  0 (-43) 8708132091985919 (-43) 10)
        as (m' & e' & Hres & Hm' & He' & _ & Hup).
      * lia.
      * lia.
      * rewrite top_10 by lia. apply Z.le_refl.
      * rewrite top_10 by lia. apply Z.le_refl.
      * vm_compute. reflexivity.
      * rewrite Pos2Z.inj_mul. split.
        { rewrite scaled_0. apply scaled_nonneg; lia. }
        { replace (-43) with (e + -43 + - e) at 2 by lia.
          rewrite <- (scaled_shift 8708132091985919 (e + -43) (- e)) by lia.
          apply scaled_le; [lia |].
          apply below_one_times_990; try assumption; lia. }
      * rewrite top_10 in He' by lia. rewrite Hres.
        destruct m' as [| p | p]; [left; eexists; reflexivity | | lia].
        right. exists p, e'. unfold finish.
        destruct (Z.leb_spec e' 971); [| lia].
        split; [reflexivity |]. split; [lia | exact Hup].
Qed.

(** *** Aligning two mantissas *)

Lemma shl_align_spec (mx : positive) (ex ex' : Z) :
  snd (shl_align mx ex ex') = Z.min ex ex' /\
  Zpos (fst (shl_align mx ex ex'))
  = Zpos mx * 2 ^ (ex - snd (shl_align mx ex ex')).
Proof.
  unfold shl_align. destruct (ex' - ex) as [| d | d] eqn:Hd; cbn [fst snd].
  - rewrite Z.sub_diag. split; lia.
  - rewrite Z.sub_diag. split; lia.
  - split; [lia |].
    replace (ex - ex') with (Zpos d) by lia.
    change (Pos.iter xO mx d) with (shift_pos d mx).
    rewrite shift_pos_correct. change (Z.pow_pos 2 d) with (2 ^ Zpos d). lia.
Qed.

Lemma shl_align_scaled (mx : positive) (ex ex' : Z) :
  -1200 <= ex -> -1200 <= ex' ->
  scaled (Zpos (fst (shl_align mx ex ex'))) (snd (shl_align mx ex ex'))
  = scaled (Zpos mx) ex.
Proof.
  intros Hex Hex'. destruct (shl_align_spec mx ex ex') as [Hsnd Hfst].
  rewrite Hfst, scaled_shift by lia. f_equal. lia.
Qed.

Lemma switch_Eq_Eq (c : comparison) : Pos.switch_Eq Eq c = c.
Proof. now destruct c. Qed.

(** Ten plus a float of at most the float before 990 lies in
    [10.0, 1000.0). *)
Lemma add_10_range (p : positive) (e : Z) :
  -1117 <= e <= -43 ->
  scaled (Zpos p) e <= scaled 8708132091985919 (-43) ->
  f64_leb f64_10 (f64_add f64_10 (S754_finite false p e)) = true /\
  f64_ltb (f64_add f64_10 (S754_finite false p e)) f64_1000 = true.
Proof.
  intros He Hp. unfold f64_add, f64_10. cbn [SFadd cond_Zopp].
  set (ez := Z.min (-49) e).
  assert (Hez : -1117 <= ez <= -49) by (unfold ez; lia).
  pose proof (shl_align_spec 5629499534213120 (-49) ez) as [Ha1 Ha2].
  pose proof (shl_align_scaled 5629499534213120 (-49) ez) as Ha.
  pose proof (shl_align_spec p e ez) as [Hb1 Hb2].
  pose proof (shl_align_scaled p e ez) as Hb.
  set (a := fst (shl_align 5629499534213120 (-49) ez)) in *.
  set (b := fst (shl_align p e ez)) in *.
  rewrite Ha1 in Ha. rewrite Hb1 in Hb.
  replace (Z.min (-49) ez) with ez in Ha by lia.
  replace (Z.min e ez) with ez in Hb by (unfold ez; lia).
  rewrite <- Pos2Z.inj_add. cbn [binary_normalize]. unfold binary_round.
  pose proof (shl_align_spec (a + b) ez
                (fexp 53 1024 (Zpos (digits2_pos (a + b)) + ez))) as [Hc1 Hc2].
  pose proof (shl_align_scaled (a + b) ez
                (fexp 53 1024 (Zpos (digits2_pos (a + b)) + ez))) as Hc.
  destruct (shl_align (a + b) ez (fexp 53 1024 (Zpos (digits2_pos (a + b)) + ez)))
    as [mz ez'].
  cbn [fst snd] in Hc1, Hc2, Hc. rewrite fexp64 in Hc1.
  assert (Hez' : -1117 <= ez' <= -49) by lia.
  assert (Hx : scaled (Zpos mz) ez'
               = scaled 5629499534213120 (-49) + scaled (Zpos p) e).
  { rewrite Hc by (rewrite ?fexp64; lia).
    rewrite Pos2Z.inj_add, scaled_add, Ha, Hb by lia. reflexivity. }
  assert (Hlo : scaled 87960930222080 (-43) = scaled 5629499534213120 (-49))
    by (vm_compute; reflexivity).
  assert (Hhi : scaled 5629499534213120 (-49) + scaled 8708132091985919 (-43)
                = scaled 8796093022207999 (-43))
    by (vm_compute; reflexivity).
  destruct (round_between mz ez' 87960930222080 (-43) 8796093022207999 (-43) 10)
    as (m' & e' & Hres & Hm' & He' & Hlow & Hup).
  - lia.
  - lia.
  - rewrite top_10 by lia. apply Z.le_refl.
  - rewrite top_10 by lia. apply Z.le_refl.
  - vm_compute. reflexivity.
  - rewrite Hx, Hlo, <- Hhi.
    pose proof (scaled_nonneg (Zpos p) e ltac:(lia) ltac:(lia)). lia.
  - rewrite top_10 in He' by lia. rewrite Hres. clear Hres Hx Hc Hc2 Ha Hb.
    (* the bounds, at the exponent of the result *)
    set (k := -43 - e').
    assert (Hk0 : 0 <= k) by (unfold k; lia).
    assert (Hlow' : 87960930222080 * 2 ^ k <= m').
    { apply (scaled_le _ _ e'); [lia |]. rewrite scaled_shift by lia.
      replace (e' + k) with (-43) by (unfold k; lia). exact Hlow. }
    assert (Hup' : m' <= 8796093022207999 * 2 ^ k).
    { apply (scaled_le _ _ e'); [lia |]. rewrite scaled_shift by lia.
      replace (e' + k) with (-43) by (unfold k; lia). exact Hup. }
    assert (Hk6 : k <= 6).
    { destruct (Z.le_gt_cases k 6) as [| Hbig]; [assumption | exfalso].
      assert (2 ^ 7 <= 2 ^ k) by (apply Z.pow_le_mono_r; lia).
      change (2 ^ 7) with 128 in *. change (2 ^ 53) with 9007199254740992 in *.
      lia. }
    pose proof (pow2_pos k Hk0) as HPk.
    destruct m' as [| p' | p']; [lia | | lia].
    unfold finish. destruct (Z.leb_spec e' 971); [| lia].
    unfold f64_leb, f64_ltb, SFleb, SFltb, f64_1000. cbn [SFcompare].
    rewrite !Pos.compare_cont_spec, !switch_Eq_Eq, !Pos2Z.inj_compare. split.
    + destruct (Z.compare_spec (-49) e') as [Heq | Hlt | Hgt];
        [| reflexivity | unfold k in *; lia].
      unfold k in *. replace (-43 - e') with 6 in * by lia.
      change (2 ^ 6) with 64 in *.
      destruct (Z.compare_spec 5629499534213120 (Zpos p')); [reflexivity .. | lia].
    + destruct (Z.compare_spec e' (-43)) as [Heq | Hlt | Hgt];
        [| reflexivity | lia].
      unfold k in *. replace (-43 - e') with 0 in * by lia.
      change (2 ^ 0) with 1 in *.
      destruct (Z.compare_spec (Zpos p') 8796093022208000); [lia | reflexivity | lia].
Qed.
End price_range.

(** ** The random product generator *)

Module utils_facts.
Import binary64 price_range utils.

(** The price drawn from a float of the unit interval. *)
Lemma price_in_range (f : float64) :
  in_unit_interval f = true ->
  f64_leb f64_10 (f64_add f64_10 (f64_mul f f64_990)) = true /\
  f64_ltb (f64_add f64_10 (f64_mul f f64_990)) f64_1000 = true.
Proof.
  intros Hf. destruct (mul_990_range f Hf) as [[s ->] | (p & e & -> & He & Hp)].
  - split; reflexivity.
  - now apply add_10_range.
Qed.

Lemma word_drawn (words : list string) (x : N) :
  (0 < length words)%nat ->
  words !!! N.to_nat (x mod N.of_nat (length words)) ∈ words.
Proof.
  intros Hlen. apply list_elem_of_lookup_total_2.
  pose proof (N.mod_lt x (N.of_nat (length words)) ltac:(lia)). lia.
Qed.

(** One call of the generator: the record it returns, and the world it
    leaves. *)
Lemma GenerateRandomProduct_spec (w : World) :
  in_unit_interval (float_src w (S (S (rand_pos w)))) = true ->
  generated w (GenerateRandomProduct w).1 /\
  (GenerateRandomProduct w).2 = after_records 1 w.
Proof.
  intros Hf. unfold GenerateRandomProduct, rand_Intn, rand_Float64, uuid_New.
  cbn [fst snd clock uuid_src uuid_pos intn_src float_src rand_pos
       ID Name Description Price].
  split; [| reflexivity].
  unfold generated.
  cbn [fst snd clock uuid_src uuid_pos intn_src float_src rand_pos
       ID Name Description Price].
  split; [| split; [reflexivity | split; [| split; [| reflexivity]]]].
  - eexists _, _. split; [| split; [| reflexivity]].
    + apply word_drawn. simpl. lia.
    + apply word_drawn. simpl. lia.
  - now apply price_in_range.
  - now apply price_in_range.
Qed.

Lemma after_records_0 (w : World) : after_records 0 w = w.
Proof. now destruct w. Qed.

Lemma after_records_S (i : nat) (w : World) :
  after_records i (after_records 1 w) = after_records (S i) w.
Proof.
  unfold after_records. cbn [clock uuid_src uuid_pos intn_src float_src rand_pos].
  f_equal; lia.
Qed.

(** The loop fills [n] slots, the [i]-th with the record generated after
    [i] earlier ones. *)
Lemma generate_loop_spec (n : nat) :
  forall w : World,
    (forall k, in_unit_interval (float_src w k) = true) ->
    length (generate_loop n w).1 = n /\
    (forall i p, (generate_loop n w).1 !! i = Some p ->
                 generated (after_records i w) p).
Proof.
  induction n as [| n IH]; intros w Hsrc; cbn [generate_loop].
  - split; [reflexivity |]. intros i p Hp. destruct i; discriminate Hp.
  - destruct (GenerateRandomProduct_spec w (Hsrc _)) as [Hgen Hw].
    destruct (GenerateRandomProduct w) as [p1 w1]. cbn [fst snd] in Hgen, Hw.
    subst w1. destruct (IH (after_records 1 w) Hsrc) as [Hlen Hall].
    destruct (generate_loop n (after_records 1 w)) as [ps w2].
    cbn [fst snd] in *. split; [simpl; now rewrite Hlen |].
    intros [| i] p Hp.
    + injection Hp as <-. now rewrite after_records_0.
    + rewrite <- after_records_S. now apply Hall.
Qed.



(** A negative count does not return. *)
Example GenerateRandomProducts_negative :
  (GenerateRandomProducts (-1) samples.world0).1 = Panic MakesliceLenOutOfRange.
Proof. reflexivity. Qed.
End utils_facts.

(** ** Lookups in the in-memory backend *)

Module memory_lookup.
Import memory memory_scan memory_delete.

(** The loop of [GetByID] over two stretches of the slice. *)
Lemma GetByID_loop_app (id : uuid) (l1 l2 : list Product) :
  GetByID_loop id (l1 ++ l2)
  = match GetByID_loop id l1 with
    | Ok p => Ok p
    | Err _ => GetByID_loop id l2
    end.
Proof.
  induction l1 as [| q l1 IH]; simpl; [reflexivity |].
  destruct (N.eqb (ID q) id); [reflexivity | exact IH].
Qed.

(** A product with another id is not seen by the loop. *)
Lemma GetByID_loop_skip (id : uuid) (l1 l2 : list Product) (q : Product) :
  ID q ≠ id -> GetByID_loop id (l1 ++ q :: l2) = GetByID_loop id (l1 ++ l2).
Proof.
  intros Hq. rewrite !GetByID_loop_app. simpl.
  destruct (N.eqb_spec (ID q) id); [contradiction | reflexivity].
Qed.

(** With pairwise distinct ids the order of the slice does not matter
    to a lookup. *)
Lemma GetByID_loop_Permutation (id : uuid) (ps qs : list Product) :
  NoDup (ID <$> ps) -> ps ≡ₚ qs -> GetByID_loop id ps = GetByID_loop id qs.
Proof.
  intros Hnd Hperm.
  destruct (scan_cases id ps) as [(l1 & p & l2 & Hps & Hl1 & Hp) | Hall].
  - assert (Hin : p ∈ qs).
    { rewrite <- Hperm, Hps. apply elem_of_app. right. left. }
    apply list_elem_of_split in Hin as (k1 & k2 & Hqs).
    assert (Hndq : NoDup (ID <$> qs)) by now rewrite <- Hperm.
    rewrite Hqs in Hndq. apply distinct_ids_split in Hndq as [Hk1 Hk2].
    rewrite Hp in Hk1.
    rewrite Hps, Hqs, !GetByID_loop_found by assumption. reflexivity.
  - rewrite !GetByID_loop_absent; [reflexivity | | assumption].
    now rewrite <- Hperm.
Qed.

(** X1: [GetByID] returns a product exactly when it is the first one of
    the slice with the id, and fails exactly when no product has the id;
    its only error is the not-found error. *)
Theorem GetByID_first_match (r : ProductMemoryRepository) (id : uuid) :
  (forall p,
     GetByID r id = Ok p <->
     exists l1 l2,
       products r = l1 ++ p :: l2 /\ Forall (other_id id) l1 /\ ID p = id) /\
  (GetByID r id = Err ErrProductNotFound <-> Forall (other_id id) (products r)) /\
  (forall e, GetByID r id = Err e -> e = ErrProductNotFound).
Proof.
  unfold GetByID.
  destruct (scan_cases id (products r)) as [(l1 & p & l2 & Hps & Hl1 & Hp) | Hall].
  - assert (Hget : GetByID_loop id (products r) = Ok p)
      by (rewrite Hps; now apply GetByID_loop_found).
    rewrite Hget. repeat split.
    + intros [= <-]. eauto.
    + intros (k1 & k2 & Heq & Hk1 & Hp0).
      rewrite Heq, GetByID_loop_found in Hget by assumption. now symmetry.
    + discriminate.
    + intros Hall. rewrite Hps in Hall. apply Forall_app in Hall as [_ Hall].
      apply Forall_cons in Hall as [Hne _]. now destruct Hne.
    + discriminate.
  - rewrite GetByID_loop_absent by assumption. repeat split.
    + discriminate.
    + intros (k1 & k2 & Heq & Hk1 & Hp0). rewrite Heq in Hall.
      apply Forall_app in Hall as [_ Hall].
      apply Forall_cons in Hall as [Hne _]. now destruct Hne.
    + intros _. assumption.
    + now intros e [= <-].
Qed.

(** [Update] and [GetByID] find the same product, or both find none. *)
Lemma Update_GetByID_cases (r : ProductMemoryRepository) (id : uuid)
    (req : ProductRequest) (w : World) :
  match GetByID r id with
  | Ok old =>
      exists r',
        Update r id req w = (Ok tt, r') /\
        GetByID r' id = Ok (overwrite req (time_Now w) old)
  | Err _ => Update r id req w = (Err ErrProductNotFound, r)
  end.
Proof.
  unfold GetByID, Update.
  destruct (scan_cases id (products r)) as [(l1 & p & l2 & Hps & Hl1 & Hp) | Hall].
  - rewrite Hps, GetByID_loop_found, scan_found by assumption.
    eexists. split; [reflexivity |]. cbn [products].
    replace (length l1) with (length l1 + 0)%nat by lia.
    rewrite alter_app_r. simpl. now apply GetByID_loop_found.
  - now rewrite GetByID_loop_absent, scan_absent.
Qed.

(** [Update] of one id leaves the lookup of every other id alone. *)
Lemma Update_other_lookups (r : ProductMemoryRepository) (id id' : uuid)
    (req : ProductRequest) (w : World) :
  id' ≠ id -> GetByID (Update r id req w).2 id' = GetByID r id'.
Proof.
  intros Hne. unfold GetByID, Update.
  destruct (scan_cases id (products r)) as [(l1 & p & l2 & Hps & Hl1 & Hp) | Hall].
  - rewrite Hps, scan_found by assumption. cbn [snd products].
    replace (length l1) with (length l1 + 0)%nat by lia.
    rewrite alter_app_r. simpl. rewrite !GetByID_loop_app. simpl.
    destruct (N.eqb_spec (ID p) id'); [congruence | reflexivity].
  - now rewrite scan_absent.
Qed.

(** X2: when [GetByID] finds a product, [Update] of its id succeeds,
    [GetByID] then returns that product with the name, description and
    price of the request and [updated_at] set to the clock, its id and
    [created_at] kept; and the lookup of every other id gives what it
    gave before.  No uniqueness of ids is needed. *)
Theorem Update_then_GetByID (r : ProductMemoryRepository) (id : uuid)
    (req : ProductRequest) (w : World) (old : Product) :
  GetByID r id = Ok old ->
  exists r',
    Update r id req w = (Ok tt, r') /\
    GetByID r' id
    = Ok (mkProduct (ID old) (ReqName req) (ReqDescription req) (ReqPrice req)
                    (CreatedAt old) (time_Now w)) /\
    forall id', id' ≠ id -> GetByID r' id' = GetByID r id'.
Proof.
  intros Hget. pose proof (Update_GetByID_cases r id req w) as Hcases.
  rewrite Hget in Hcases. destruct Hcases as (r' & Hupd & Hget').
  exists r'. split; [exact Hupd |]. split; [exact Hget' |].
  intros id' Hne. pose proof (Update_other_lookups r id id' req w Hne) as H.
  now rewrite Hupd in H.
Qed.

Lemma Update_then_GetByID_witness :
  exists r',
    Update (mkRepo [samples.gadget; samples.gadget_twin]) 50%N samples.widget_pro
           samples.world0
    = (Ok tt, r') /\
    GetByID r' 50%N
    = Ok (mkProduct 50%N "Widget Pro" "upgraded" samples.f64_19_5 900%Z 1000%Z) /\
    forall id', id' ≠ 50%N ->
      GetByID r' id' = GetByID (mkRepo [samples.gadget; samples.gadget_twin]) id'.
Proof.
  apply (Update_then_GetByID (mkRepo [samples.gadget; samples.gadget_twin]) 50%N
           samples.widget_pro samples.world0 samples.gadget).
  reflexivity.
Defined.

(** X3: [Delete] either finds no product with the id, returns the
    not-found error and leaves the repository as it was, or removes
    exactly one product, the first of the slice with the id: what is left
    is the rest of the slice in some order, one product shorter.  With
    several products under one id the others stay. *)
Theorem Delete_removes_one (r : ProductMemoryRepository) (id : uuid) :
  (Forall (other_id id) (products r) /\
   Delete r id = (Err ErrProductNotFound, r))
  \/
  (exists l1 p l2 r',
     products r = l1 ++ p :: l2 /\ Forall (other_id id) l1 /\ ID p = id /\
     Delete r id = (Ok tt, r') /\
     products r' ≡ₚ l1 ++ l2 /\
     S (length (products r')) = length (products r)).
Proof.
  unfold Delete.
  destruct (scan_cases id (products r)) as [(l1 & p & l2 & Hps & Hl1 & Hp) | Hall].
  - right. exists l1, p, l2. eexists.
    rewrite Hps, scan_found by assumption.
    split; [reflexivity |]. split; [assumption |]. split; [assumption |].
    split; [reflexivity |]. cbn [products].
    pose proof (swap_with_last l1 l2 p) as Hperm. cbn zeta in Hperm.
    split; [exact Hperm |].
    rewrite Hperm, !length_app. simpl. lia.
  - left. split; [assumption |]. now rewrite scan_absent.
Qed.

(** X4: in a dataset with pairwise distinct ids, [Delete] of one id
    changes the lookup of no other id, whether it succeeds or not, and
    the ids stay pairwise distinct. *)
Theorem Delete_keeps_other_lookups (r : ProductMemoryRepository)
    (id id' : uuid) :
  NoDup (ID <$> products r) -> id' ≠ id ->
  GetByID (Delete r id).2 id' = GetByID r id' /\
  NoDup (ID <$> products (Delete r id).2).
Proof.
  intros Hnd Hne. unfold GetByID, Delete.
  destruct (scan_cases id (products r)) as [(l1 & p & l2 & Hps & Hl1 & Hp) | Hall].
  - rewrite Hps in *. rewrite scan_found by assumption. cbn [snd products].
    pose proof (swap_with_last l1 l2 p) as Hperm. cbn zeta in Hperm.
    assert (Hnd' : NoDup (ID <$> l1 ++ l2)).
    { rewrite fmap_app, fmap_cons in Hnd. rewrite fmap_app.
      apply NoDup_app in Hnd as (Ha & Hb & Hc).
      apply NoDup_cons in Hc as [_ Hc]. apply NoDup_app. repeat split; auto.
      intros x Hx Hx2. apply (Hb x Hx). now right. }
    split.
    + transitivity (GetByID_loop id' (l1 ++ l2)).
      * symmetry. apply GetByID_loop_Permutation; [assumption | now symmetry].
      * symmetry. apply GetByID_loop_skip. congruence.
    + now rewrite Hperm.
  - rewrite scan_absent by assumption. now split.
Qed.

Lemma Delete_keeps_other_lookups_witness :
  GetByID (Delete (mkRepo [samples.gadget; samples.device]) 50%N).2 51%N
  = GetByID (mkRepo [samples.gadget; samples.device]) 51%N /\
  NoDup (ID <$> products (Delete (mkRepo [samples.gadget; samples.device]) 50%N).2).
Proof.
  apply (Delete_keeps_other_lookups (mkRepo [samples.gadget; samples.device])
           50%N 51%N).
  - simpl. apply NoDup_cons. split; [| apply NoDup_singleton].
    intros H%list_elem_of_singleton. discriminate.
  - discriminate.
Defined.
End memory_lookup.

(** ** Pages of the in-memory backend, whatever the page number *)

Module memory_pages.
Import GoInt GoIntFacts memory memory_list.
Local Open Scope Z_scope.

(** The two things [List] can do once its start index is known. *)
Lemma List_start_cases (r : ProductMemoryRepository) (page pageSize : Z) :
  well_formed r -> 0 <= pageSize -> len r + pageSize <= max_int ->
  (0 <= startIndex page pageSize ->
     List r page pageSize
     = Return (Ok (take (Z.to_nat pageSize)
                        (drop (Z.to_nat (startIndex page pageSize)) (products r)))))
  /\
  (startIndex page pageSize < 0 -> exists p, List r page pageSize = Panic p).
Proof.
  intros Hwf Hsize Hroom.
  pose proof (Nat2Z.is_nonneg (length (products r))) as Hlen.
  unfold List, List_indices, endIndex, int_add.
  set (s := startIndex page pageSize).
  assert (Hs : is_int s) by apply wrap_is_int.
  unfold len in *. split.
  - intros Hpos. destruct (Z.leb_spec (Z.of_nat (length (products r))) s) as [Hge | Hlt].
    + rewrite drop_ge by lia. now rewrite take_nil.
    + rewrite (wrap_small (s + pageSize)) by int_range.
      set (e := if Z.of_nat (length (products r)) <? s + pageSize
                then Z.of_nat (length (products r)) else s + pageSize).
      assert (He : s <= e <= Z.of_nat (length (products r)) /\ e <= s + pageSize).
      { unfold e.
        destruct (Z.ltb_spec (Z.of_nat (length (products r))) (s + pageSize)); lia. }
      unfold int_sub. rewrite (wrap_small (e - s)) by int_range.
      rewrite make_ok;
        [| lia | apply (fits_mono _ (len r)); [unfold len; lia | exact Hwf]].
      rewrite slice_expr_ok by lia.
      rewrite copy_fresh.
      * do 2 f_equal. unfold e.
        destruct (Z.ltb_spec (Z.of_nat (length (products r))) (s + pageSize)).
        -- rewrite !take_ge; [reflexivity | |]; rewrite length_drop; lia.
        -- f_equal. lia.
      * rewrite length_take, length_drop. lia.
  - intros Hneg. destruct (Z.leb_spec (Z.of_nat (length (products r))) s); [lia |].
    destruct (make _); [| eauto].
    unfold slice_expr. destruct (Z.leb_spec 0 s); [lia |]. simpl. eauto.
Qed.

(** [List] has no error to return. *)
Lemma List_never_errs (r : ProductMemoryRepository) (page pageSize : Z) (e : error) :
  List r page pageSize ≠ Return (Err e).
Proof.
  unfold List. destruct (List_indices r page pageSize) as [[s t] |]; [| discriminate].
  destruct (make _); [| discriminate]. now destruct (slice_expr _ _ _).
Qed.

(** X5: what [List] does is decided by the start index as the 64-bit
    arithmetic leaves it.  With a page size from 0 up to what still fits
    over the length, a start index that is not negative gives the page
    that starts there (empty when it starts at or after the end), also
    when the multiplication wrapped around; a negative start index
    makes [List] panic.  An error is never returned. *)
Theorem List_by_wrapped_start (r : ProductMemoryRepository)
    (page pageSize : Z) :
  well_formed r -> 0 <= pageSize -> len r + pageSize <= max_int ->
  (0 <= startIndex page pageSize ->
     List r page pageSize
     = Return (Ok (take (Z.to_nat pageSize)
                        (drop (Z.to_nat (startIndex page pageSize)) (products r)))))
  /\
  (startIndex page pageSize < 0 -> exists p, List r page pageSize = Panic p)
  /\
  (forall e, List r page pageSize ≠ Return (Err e)).
Proof.
  intros Hwf Hsize Hroom.
  destruct (List_start_cases r page pageSize Hwf Hsize Hroom) as [Hpage Hpanic].
  split; [exact Hpage |]. split; [exact Hpanic |].
  intros e. apply List_never_errs.
Qed.

Lemma List_by_wrapped_start_witness :
  (0 <= startIndex (2 ^ 62 + 1) 4 ->
     List (mkRepo [samples.gadget; samples.device]) (2 ^ 62 + 1) 4
     = Return (Ok (take (Z.to_nat 4)
                        (drop (Z.to_nat (startIndex (2 ^ 62 + 1) 4))
                              (products (mkRepo [samples.gadget; samples.device]))))))
  /\
  (startIndex (2 ^ 62 + 1) 4 < 0 ->
     exists p, List (mkRepo [samples.gadget; samples.device]) (2 ^ 62 + 1) 4 = Panic p)
  /\
  (forall e,
     List (mkRepo [samples.gadget; samples.device]) (2 ^ 62 + 1) 4 ≠ Return (Err e)).
Proof.
  apply (List_by_wrapped_start (mkRepo [samples.gadget; samples.device])
           (2 ^ 62 + 1) 4).
  - reflexivity.
  - lia.
  - vm_compute. discriminate.
Defined.

(** Page [2 ^ 62 + 1] of size 4 is the first page again. *)
Example List_wraps_to_first_page (a b : Product) :
  List (mkRepo [a; b]) (2 ^ 62 + 1) 4 = Return (Ok [a; b]).
Proof. reflexivity. Qed.

(** X6: [GetAll] returns the whole slice, in its order, for every
    repository the runtime can hold, and so does the first page of
    [List] for every page size that is at least the length. *)
Theorem GetAll_whole (r : ProductMemoryRepository) :
  well_formed r ->
  GetAll r = Return (Ok (products r)) /\
  forall pageSize, is_int pageSize -> len r <= pageSize ->
    List r 1 pageSize = GetAll r.
Proof.
  intros Hwf.
  assert (Hall : GetAll r = Return (Ok (products r))).
  { unfold GetAll. rewrite make_ok by (unfold len; try assumption; lia).
    rewrite copy_fresh by (unfold len; lia). reflexivity. }
  split; [exact Hall |].
  intros pageSize Hint Hlen. rewrite Hall. now apply List_first_page_all.
Qed.

Lemma GetAll_whole_witness :
  GetAll (mkRepo [samples.gadget; samples.device])
  = Return (Ok (products (mkRepo [samples.gadget; samples.device]))) /\
  forall pageSize, is_int pageSize ->
    len (mkRepo [samples.gadget; samples.device]) <= pageSize ->
    List (mkRepo [samples.gadget; samples.device]) 1 pageSize
    = GetAll (mkRepo [samples.gadget; samples.device]).
Proof.
  apply (GetAll_whole (mkRepo [samples.gadget; samples.device])). reflexivity.
Defined.
End memory_pages.

(** ** Rows of the persistent backend *)

Module postgres_rows.
Import postgres memory_scan postgres_facts bulk_atomicity outcomes.
Local Open Scope Z_scope.

Lemma has_id_false (id : uuid) (rows : list Product) :
  has_id id rows = false -> Forall (memory.other_id id) rows.
Proof.
  unfold has_id. induction rows as [| q rows IH]; simpl; [constructor |].
  intros [Hq Hrest]%orb_false_iff. constructor; [| now apply IH].
  unfold memory.other_id. now destruct (N.eqb_spec (ID q) id).
Qed.

Lemma has_id_true (id : uuid) (rows : list Product) :
  has_id id rows = true -> exists row, row ∈ rows /\ ID row = id.
Proof.
  unfold has_id. induction rows as [| q rows IH]; simpl; [discriminate |].
  intros [Hq | Hrest]%orb_true_iff.
  - exists q. split; [left | now apply N.eqb_eq].
  - destruct (IH Hrest) as (row & Hin & Hid). exists row. split; [now right | exact Hid].
Qed.

Lemma other_id_not_elem (id : uuid) (rows : list Product) :
  Forall (memory.other_id id) rows <-> id ∉ ID <$> rows.
Proof.
  rewrite Forall_forall. split.
  - intros H (q & -> & Hq)%list_elem_of_fmap. now apply (H q).
  - intros H q Hq Heq. apply H. rewrite <- Heq. apply list_elem_of_fmap. eauto.
Qed.

(** A row goes in only under an id that no row has. *)
Lemma insert_row_NoDup (cols : Columns) (rows rows' : list Product)
    (p : Product) :
  NoDup (ID <$> rows) -> insert_row cols rows p = Ok rows' ->
  NoDup (ID <$> rows').
Proof.
  unfold insert_row. intros Hnd.
  destruct (row_of cols p) as [row |]; [| discriminate].
  destruct (has_id (ID row) rows) eqn:Hhas; [discriminate |].
  intros [= <-]. rewrite fmap_app. apply NoDup_app. repeat split.
  - exact Hnd.
  - intros id Hid ->%list_elem_of_singleton.
    now apply has_id_false, other_id_not_elem in Hhas.
  - apply NoDup_singleton.
Qed.

Lemma insert_loop_NoDup (ps : list Product) :
  forall (tx : Tx) (db : ProductRepository),
    NoDup (ID <$> tx_rows tx) ->
    forall tx1, (insert_loop ps tx db).1.1 = Ok tx1 -> NoDup (ID <$> tx_rows tx1).
Proof.
  induction ps as [| p ps IH]; intros tx db Hnd tx1; cbn [insert_loop].
  - simpl. now intros [= <-].
  - unfold tx_insert, round_trip.
    destruct (faults db (calls db)); [discriminate |].
    cbn [columns].
    destruct (insert_row (columns db) (tx_rows tx) p) as [rows | e] eqn:Hrow;
      [| discriminate].
    apply IH. simpl. now apply (insert_row_NoDup (columns db) (tx_rows tx) rows p).
Qed.

(** The two ways [CreateBulk] ends. *)
Lemma CreateBulk_cases (db : ProductRepository) (ps : list Product) :
  ((CreateBulk db ps).1 = Ok tt /\
   (exists rows, Forall2 (held (columns db)) ps rows /\
                 table (CreateBulk db ps).2 = table db ++ rows) /\
   (NoDup (ID <$> table db) -> NoDup (ID <$> table db ++ ps)))
  \/
  (exists e, (CreateBulk db ps).1 = Err e /\ table (CreateBulk db ps).2 = table db).
Proof.
  unfold CreateBulk, BeginTxx, round_trip.
  destruct (faults db (calls db)); [right; eauto |].
  set (db1 := mkDB (table db) (faults db) (S (calls db)) (columns db)).
  pose proof (insert_loop_spec ps (mkTx (table db1)) db1) as (Htab & _ & Hrows).
  pose proof (insert_loop_NoDup ps (mkTx (table db1)) db1) as Hnd.
  destruct (insert_loop ps (mkTx (table db1)) db1) as [[[tx1 | e] tx2] db2];
    simpl in Htab, Hrows, Hnd.
  - unfold Commit, round_trip. destruct (faults db2 (calls db2)); simpl.
    + right. eauto.
    + left. destruct (Hrows tx1 eq_refl) as (rows & Hall & Htx1).
      split; [reflexivity |]. split; [exists rows; now rewrite Htx1 |].
      intros H. specialize (Hnd H tx1 eq_refl).
      now rewrite Htx1, fmap_app, (held_all_ID _ _ _ Hall), <- fmap_app in Hnd.
  - right. exists e. split; [reflexivity |]. exact Htab.
Qed.

Lemma ids_update_rows (cols : Columns) (id : uuid) (req : ProductRequest)
    (now : Time) (rows rows' : list Product) :
  update_rows cols id req now rows = Ok rows' -> ID <$> rows' = ID <$> rows.
Proof.
  unfold update_rows.
  destruct (held_request cols req); [| discriminate].
  destruct (time_column cols now); [| discriminate].
  intros [= <-]. rewrite <- list_fmap_compose. apply list_fmap_ext.
  intros i row _. simpl. now destruct (N.eqb (ID row) id).
Qed.

Lemma ids_filter_NoDup (P : Product -> Prop) `{forall x, Decision (P x)}
    (rows : list Product) :
  NoDup (ID <$> rows) -> NoDup (ID <$> filter P rows).
Proof.
  intros Hnd. apply (sublist_NoDup _ (ID <$> rows)); [exact Hnd |].
  apply fmap_sublist, sublist_filter.
Qed.

(** A filter that keeps as many rows as there are keeps them all. *)
Lemma filter_keeps_all_or_less (id : uuid) (rows : list Product) :
  (Forall (memory.other_id id) rows /\
   filter (fun row => ID row ≠ id) rows = rows)
  \/
  ((exists row, row ∈ rows /\ ID row = id) /\
   (length (filter (fun row => ID row ≠ id) rows) < length rows)%nat).
Proof.
  destruct (scan_cases id rows) as [(l1 & p & l2 & -> & Hl1 & Hp) | Hall].
  - right. split.
    + exists p. split; [| exact Hp]. apply elem_of_app. right. left.
    + apply (length_filter_lt _ _ p).
      * apply elem_of_app. right. left.
      * intros Hne. now apply Hne.
  - left. split; [exact Hall |]. now apply filter_id_absent.
Qed.

(** Lookups by id in filtered and in updated rows. *)
Lemma filter_other_after_delete (id id' : uuid) (rows : list Product) :
  id' ≠ id ->
  filter (fun row => ID row = id') (filter (fun row => ID row ≠ id) rows)
  = filter (fun row => ID row = id') rows.
Proof.
  intros Hne. rewrite list_filter_filter. apply list_filter_iff.
  intros row. split; [now intros [? _] | intros Heq; split; congruence].
Qed.

Lemma filter_same_after_delete (id : uuid) (rows : list Product) :
  filter (fun row => ID row = id) (filter (fun row => ID row ≠ id) rows) = [].
Proof.
  rewrite list_filter_filter.
  induction rows as [| q rows IH]; [reflexivity |].
  rewrite filter_cons_False; [exact IH | now intros [? ?]].
Qed.

Lemma filter_update_rows (cols : Columns) (id id' : uuid)
    (req : ProductRequest) (now : Time) (rows rows' : list Product) :
  update_rows cols id req now rows = Ok rows' ->
  update_rows cols id req now (filter (fun row => ID row = id') rows)
  = Ok (filter (fun row => ID row = id') rows').
Proof.
  unfold update_rows.
  destruct (held_request cols req); [| discriminate].
  destruct (time_column cols now); [| discriminate].
  intros [= <-]. f_equal.
  induction rows as [| q rows IH]; [reflexivity |].
  rewrite fmap_cons.
  destruct (decide (ID q = id')) as [Heq | Hne].
  - rewrite (filter_cons_True _ q) by exact Heq.
    rewrite filter_cons_True by (now destruct (N.eqb (ID q) id)).
    rewrite fmap_cons. now rewrite IH.
  - rewrite (filter_cons_False _ q) by exact Hne.
    rewrite filter_cons_False by (now destruct (N.eqb (ID q) id)).
    exact IH.
Qed.

(** The rows of a batch whose every product the columns accept. *)
Lemma accepted_rows (cols : Columns) (ps : list Product) :
  Forall (fun p => is_Some (row_of cols p)) ps <->
  exists rows, Forall2 (held cols) ps rows.
Proof.
  split.
  - induction 1 as [| p ps [row Hp] _ [rows IH]]; [now exists [] |].
    exists (row :: rows). now constructor.
  - intros [rows Hall]. induction Hall as [| p row ps rows Hp _ IH];
      constructor; [now exists row | exact IH].
Qed.
End postgres_rows.

(** ** Calls on the persistent backend *)

Module postgres_calls.
Import postgres memory_scan postgres_facts bulk_atomicity postgres_rows.
Import service outcomes.
Local Open Scope Z_scope.

Lemma newest_first_cons (x : Product) (l : list Product) :
  newest_first (x :: l) <->
  Forall (fun b => CreatedAt b <= CreatedAt x) l /\ newest_first l.
Proof.
  unfold newest_first. split.
  - intros H. split.
    + apply Forall_lookup. intros j b Hb.
      apply (H 0%nat (S j) x b); [lia | reflexivity | exact Hb].
    + intros i j a b Hij Ha Hb.
      apply (H (S i) (S j) a b); [lia | exact Ha | exact Hb].
  - intros [Hall Hl] i j a b Hij Ha Hb.
    destruct j as [| j]; [lia |]. destruct i as [| i].
    + injection Ha as <-. rewrite Forall_lookup in Hall. now apply (Hall j b).
    + apply (Hl i j a b); [lia | exact Ha | exact Hb].
Qed.

Lemma newest_first_insert_desc (row : Product) (sorted : list Product) :
  newest_first sorted -> newest_first (insert_desc row sorted).
Proof.
  induction sorted as [| x rest IH]; simpl; intros Hs.
  - apply newest_first_cons. split; [constructor | exact Hs].
  - pose proof Hs as [Hall Hrest]%newest_first_cons.
    destruct (Z.ltb_spec (CreatedAt x) (CreatedAt row)).
    + apply newest_first_cons. split; [| exact Hs].
      constructor; [lia |]. eapply Forall_impl; [exact Hall |].
      simpl. intros b Hb. lia.
    + apply newest_first_cons. split; [| now apply IH].
      rewrite insert_desc_Permutation. constructor; [lia | exact Hall].
Qed.

Lemma order_by_newest_first (rows : list Product) :
  newest_first (order_by_created_at_desc rows).
Proof.
  unfold order_by_created_at_desc.
  induction rows as [| row rows IH]; simpl.
  - intros i j a b _ Ha. destruct i; discriminate Ha.
  - now apply newest_first_insert_desc.
Qed.

Lemma newest_first_take_drop (n k : nat) (rows : list Product) :
  newest_first rows -> newest_first (take n (drop k rows)).
Proof.
  intros H i j a b Hij [Ha Hi]%lookup_take_Some [Hb Hj]%lookup_take_Some.
  rewrite lookup_drop in Ha, Hb.
  apply (H (k + i)%nat (k + j)%nat a b); [lia | exact Ha | exact Hb].
Qed.

(** One call keeps the ids of the table pairwise distinct. *)
Lemma postgres_exec_NoDup (op : Op) (w : World) (db : ProductRepository) :
  NoDup (ID <$> table db) -> NoDup (ID <$> table (postgres_exec op w db).2).
Proof.
  intros Hnd. destruct op; simpl.
  - unfold Create, round_trip. destruct (faults db (calls db)); [exact Hnd |].
    cbn [table faults calls columns].
    destruct (insert_row (columns db) (table db) _) as [rows | e] eqn:Hrow;
      [| exact Hnd].
    now apply (insert_row_NoDup _ _ _ _ Hnd Hrow).
  - destruct (CreateBulk_cases db ps)
      as [(_ & (rows & Hall & Htab) & Hok) | (e & _ & Htab)];
      destruct (CreateBulk db ps) as [res db']; simpl in *; rewrite Htab;
      [| exact Hnd].
    rewrite fmap_app, (held_all_ID _ _ _ Hall), <- fmap_app. now apply Hok.
  - unfold GetByID, round_trip. destruct (faults db (calls db)); [exact Hnd |].
    cbn [table]. now destruct (filter _ (table db)).
  - unfold List, round_trip. now destruct (faults db (calls db)).
  - unfold GetAll, round_trip. now destruct (faults db (calls db)).
  - unfold Update, round_trip. destruct (faults db (calls db)); [exact Hnd |].
    cbn [table faults calls columns].
    destruct (update_rows (columns db) id req (time_Now w) (table db))
      as [rows | e] eqn:Hrows; [| exact Hnd].
    simpl. now rewrite (ids_update_rows _ _ _ _ _ _ Hrows).
  - unfold Delete, round_trip. destruct (faults db (calls db)); [exact Hnd |].
    cbn [table faults calls].
    assert (Hk : NoDup (ID <$> filter (fun row => ID row ≠ id) (table db)))
      by now apply ids_filter_NoDup.
    now destruct (Z.of_nat _ =? 0).
  - unfold DeleteAll, round_trip. destruct (faults db (calls db)); [exact Hnd |].
    simpl. apply NoDup_nil_2.
  - unfold Count, round_trip. now destruct (faults db (calls db)).
Qed.

(** X7: on both backends a call that returns an error, and every call
    that only reads, leaves the dataset exactly as it was: a write takes
    effect in full or not at all. *)
Theorem failed_calls_change_nothing (op : Op) (w : World) :
  (forall r : memory.ProductMemoryRepository,
     succeeded (memory_exec op w r).1.1 = false \/ reads op = true ->
     (memory_exec op w r).2 = r)
  /\
  (forall db : ProductRepository,
     succeeded (postgres_exec op w db).1.1 = false \/ reads op = true ->
     table (postgres_exec op w db).2 = table db).
Proof.
  split.
  - intros r. destruct op; simpl; intros [Hf | Hr]; try discriminate;
      try reflexivity.
    + unfold memory.Update in *. now destruct (memory.scan id (memory.products r)).
    + unfold memory.Delete in *. now destruct (memory.scan id (memory.products r)).
  - intros db. destruct op; simpl.
    + unfold Create, round_trip. destruct (faults db (calls db)); [reflexivity |].
      cbn [table faults calls columns].
      destruct (insert_row (columns db) (table db) _) as [rows | e];
        [| reflexivity].
      simpl. intros [Hf | Hr]; discriminate.
    + destruct (CreateBulk_cases db ps) as [(Hok & _) | (e & _ & Htab)];
        destruct (CreateBulk db ps) as [res db']; simpl in *.
      * subst res. intros [Hf | Hr]; discriminate.
      * intros _. exact Htab.
    + intros _. unfold GetByID, round_trip.
      destruct (faults db (calls db)); [reflexivity |].
      cbn [table]. now destruct (filter _ (table db)).
    + intros _. unfold List, round_trip. now destruct (faults db (calls db)).
    + intros _. unfold GetAll, round_trip. now destruct (faults db (calls db)).
    + unfold Update, round_trip. destruct (faults db (calls db)); [reflexivity |].
      cbn [table faults calls columns].
      destruct (update_rows (columns db) id req (time_Now w) (table db))
        as [rows | e]; [| reflexivity].
      simpl. intros [Hf | Hr]; discriminate.
    + unfold Delete, round_trip. destruct (faults db (calls db)); [reflexivity |].
      cbn [table faults calls].
      destruct (filter_keeps_all_or_less id (table db)) as [[_ Heq] | [_ Hlt]].
      * rewrite Heq. now destruct (Z.of_nat _ =? 0).
      * destruct (Z.eqb_spec (Z.of_nat (length (table db)
                    - length (filter (fun row => ID row ≠ id) (table db)))) 0);
          [lia |].
        simpl. intros [Hf | Hr]; discriminate.
    + unfold DeleteAll, round_trip. destruct (faults db (calls db)); [reflexivity |].
      simpl. intros [Hf | Hr]; discriminate.
    + intros _. unfold Count, round_trip. now destruct (faults db (calls db)).
Qed.

Lemma failed_calls_change_nothing_witness :
  (memory_exec (OpDelete 7%N) samples.world0 (memory.mkRepo [samples.gadget])).2
  = memory.mkRepo [samples.gadget]
  /\
  table (postgres_exec (OpCreateBulk [samples.device; samples.gadget]) samples.world0
           (mkDB [samples.gadget_row] (fun _ => false) 0 samples.server)).2
  = [samples.gadget_row].
Proof.
  split.
  - apply (proj1 (failed_calls_change_nothing (OpDelete 7%N) samples.world0)).
    left. reflexivity.
  - apply (proj2 (failed_calls_change_nothing
                    (OpCreateBulk [samples.device; samples.gadget]) samples.world0)
                 (mkDB [samples.gadget_row] (fun _ => false) 0 samples.server)).
    left. reflexivity.
Defined.

(** X8: whatever round trips fail and whatever calls are made, in any
    order and with any arguments, the table never holds two rows with
    one id, provided it held none to begin with. *)
Theorem primary_key_kept (evs : list Event) (w : World) (db : ProductRepository) :
  NoDup (ID <$> table db) ->
  NoDup (ID <$> table (run postgres_exec evs w db).2).
Proof.
  revert w db. induction evs as [| [d | op] evs IH]; intros w db Hnd; cbn [run].
  - exact Hnd.
  - now apply IH.
  - pose proof (postgres_exec_NoDup op w db Hnd) as Hstep.
    destruct (postgres_exec op w db) as [[out w1] db1]. simpl in Hstep.
    specialize (IH w1 db1 Hstep).
    now destruct (run postgres_exec evs w1 db1) as [[outs w2] db2].
Qed.

Lemma primary_key_kept_witness :
  NoDup (ID <$> table (run postgres_exec samples.batch_twice samples.world0
                         (mkDB [] (fun n => Nat.eqb n 1) 0 samples.server)).2).
Proof.
  apply (primary_key_kept samples.batch_twice samples.world0
           (mkDB [] (fun n => Nat.eqb n 1) 0 samples.server)).
  simpl. apply NoDup_nil_2.
Defined.

(** What [GetByID] reads when its round trip does not fail. *)
Lemma GetByID_rows (db : ProductRepository) (id : uuid) :
  faults db (calls db) = false ->
  (GetByID db id).1
  = match filter (fun row => ID row = id) (table db) with
    | row :: _ => Ok row
    | [] => Err ErrNoRows
    end.
Proof.
  intros Hf. unfold GetByID, round_trip. rewrite Hf. cbn [table].
  now destruct (filter _ (table db)).
Qed.

Lemma filter_id_nil (id : uuid) (rows : list Product) :
  filter (fun row => ID row = id) rows = [] -> Forall (memory.other_id id) rows.
Proof.
  intros Hnil. apply Forall_forall. intros row Hrow Heq.
  assert (Hin : row ∈ filter (fun row => ID row = id) rows)
    by now apply list_elem_of_filter.
  rewrite Hnil in Hin. now apply elem_of_nil in Hin.
Qed.

Lemma filter_id_all (id : uuid) (rows : list Product) :
  Forall (fun row => ID row = id) (filter (fun row => ID row = id) rows).
Proof. apply Forall_forall. now intros row [? _]%list_elem_of_filter. Qed.

(** What [Update] returns and leaves when its round trip does not
    fail. *)
Lemma Update_rows_cases (db : ProductRepository) (id : uuid)
    (req : ProductRequest) (w : World) :
  faults db (calls db) = false ->
  Update db id req w
  = match update_rows (columns db) id req (time_Now w) (table db) with
    | Ok rows => (Ok tt, mkDB rows (faults db) (S (calls db)) (columns db))
    | Err e => (Err e, mkDB (table db) (faults db) (S (calls db)) (columns db))
    end.
Proof. intros Hf. unfold Update, round_trip. now rewrite Hf. Qed.

(** X9: on a connection that does not fail, [Update] returns no error
    whenever the columns accept the name, description and price of the
    request and the time of the call, whether or not a row has the id.
    When [GetByID] found a row before, it then finds that row with the
    name, description and price as the columns hold them and [updated_at]
    the reading of the clock as its column holds it, id and [created_at]
    as they were; when no row has the id the table is unchanged, and
    [GetByID] still finds nothing although [Update] reported success.
    When a column refuses one of the four values, [Update] returns the
    driver's error and the table is unchanged, whether or not a row has
    the id.  The lookup of every other id is unchanged in every case. *)
Theorem Update_row_then_GetByID (db : ProductRepository) (id : uuid)
    (req : ProductRequest) (w : World) :
  reliable db ->
  (forall held updated_at,
     held_request (columns db) req = Some held ->
     time_column (columns db) (time_Now w) = Some updated_at ->
     (Update db id req w).1 = Ok tt /\
     (forall old,
        (GetByID db id).1 = Ok old ->
        (GetByID (Update db id req w).2 id).1
        = Ok (memory.overwrite held updated_at old)) /\
     ((GetByID db id).1 = Err ErrNoRows ->
        table (Update db id req w).2 = table db /\
        (GetByID (Update db id req w).2 id).1 = Err ErrNoRows)) /\
  (held_request (columns db) req = None \/
   time_column (columns db) (time_Now w) = None ->
     (Update db id req w).1 = Err ErrDriver /\
     table (Update db id req w).2 = table db) /\
  (forall id', id' ≠ id ->
     (GetByID (Update db id req w).2 id').1 = (GetByID db id').1).
Proof.
  intros Hrel. rewrite Update_rows_cases by apply Hrel.
  split; [| split].
  - intros held updated_at Hreq Hnow.
    pose proof (update_rows_held (columns db) id req held (time_Now w)
                  updated_at) as Hupd.
    rewrite (Hupd (table db)) by assumption. cbn [fst snd table].
    split; [reflexivity |].
    assert (Hget : forall rows,
               filter (fun row => ID row = id) (table db) = rows ->
               (GetByID (mkDB ((fun row => if N.eqb (ID row) id
                                  then memory.overwrite held updated_at row
                                  else row) <$> table db)
                              (faults db) (S (calls db)) (columns db)) id).1
               = match (fun row => if N.eqb (ID row) id
                           then memory.overwrite held updated_at row
                           else row) <$> rows with
                 | row :: _ => Ok row
                 | [] => Err ErrNoRows
                 end).
    { intros rows <-. rewrite GetByID_rows by apply Hrel. cbn [table].
      pose proof (filter_update_rows (columns db) id id req (time_Now w)
                    (table db) _ (Hupd (table db) Hreq Hnow)) as Hfilter.
      rewrite (Hupd _ Hreq Hnow) in Hfilter. now injection Hfilter as <-. }
    split.
    + intros old. rewrite GetByID_rows by apply Hrel.
      pose proof (filter_id_all id (table db)) as Hall.
      destruct (filter (fun row => ID row = id) (table db)) as [| row rest]
        eqn:Hrows; [discriminate |].
      intros [= ->]. rewrite (Hget _ eq_refl). rewrite fmap_cons.
      apply Forall_cons in Hall as [Hid _].
      apply N.eqb_eq in Hid. now rewrite Hid.
    + rewrite GetByID_rows by apply Hrel.
      destruct (filter (fun row => ID row = id) (table db)) as [| row rest]
        eqn:Hrows; [| discriminate].
      intros _. split; [| now rewrite (Hget _ eq_refl)].
      pose proof (update_rows_absent (columns db) id req held (time_Now w)
                    updated_at (table db) Hreq Hnow
                    (filter_id_nil _ _ Hrows)) as Hsame.
      rewrite (Hupd _ Hreq Hnow) in Hsame. now injection Hsame.
  - intros Hrefused.
    now rewrite (update_rows_refused _ id req (time_Now w) (table db) Hrefused).
  - intros id' Hne.
    destruct (update_rows (columns db) id req (time_Now w) (table db))
      as [rows | e] eqn:Hrows; cbn [fst snd];
      rewrite !GetByID_rows by apply Hrel; cbn [table]; [| reflexivity].
    pose proof (filter_update_rows (columns db) id id' req (time_Now w)
                  (table db) rows Hrows) as Hfilter.
    unfold update_rows in Hrows, Hfilter.
    destruct (held_request (columns db) req) as [held |]; [| discriminate].
    destruct (time_column (columns db) (time_Now w)) as [updated_at |];
      [| discriminate].
    pose proof (update_rows_absent (columns db) id req held (time_Now w)
                  updated_at (filter (fun row => ID row = id') (table db)))
      as Hsame.
    injection Hfilter as <-.
    assert (Hother : Forall (memory.other_id id)
                       (filter (fun row => ID row = id') (table db))).
    { eapply Forall_impl; [apply filter_id_all |].
      simpl. intros row Hrow. unfold memory.other_id. congruence. }
    clear - Hother.
    induction Hother as [| q rest Hq _ IH]; [reflexivity |].
    rewrite fmap_cons.
    now destruct (N.eqb_spec (ID q) id); [destruct Hq |].
Qed.

Lemma Update_row_then_GetByID_witness :
  let db := mkDB [samples.gadget_row; samples.late_row] (fun _ => false) 0
                 samples.server in
  (Update db 50%N samples.eighth (elapse 5 samples.world0)).1 = Ok tt /\
  (forall old,
     (GetByID db 50%N).1 = Ok old ->
     (GetByID (Update db 50%N samples.eighth (elapse 5 samples.world0)).2
        50%N).1
     = Ok (memory.overwrite (mkRequest "Widget" "" (cents 13)) 1000 old)) /\
  ((GetByID db 50%N).1 = Err ErrNoRows ->
     table (Update db 50%N samples.eighth (elapse 5 samples.world0)).2
     = table db /\
     (GetByID (Update db 50%N samples.eighth (elapse 5 samples.world0)).2
        50%N).1 = Err ErrNoRows).
Proof.
  apply (proj1 (Update_row_then_GetByID
                  (mkDB [samples.gadget_row; samples.late_row] (fun _ => false)
                        0 samples.server)
                  50%N samples.eighth (elapse 5 samples.world0)
                  (fun n => eq_refl))).
  - reflexivity.
  - reflexivity.
Defined.

(** A price of an eighth is read back as thirteen cents, and a clock
    reading of 1005 ns as one microsecond. *)
Example Update_rounds :
  let db := mkDB [samples.gadget_row; samples.late_row] (fun _ => false) 0
                 samples.server in
  (GetByID (Update db 50%N samples.eighth (elapse 5 samples.world0)).2 50%N).1
  = Ok (mkProduct 50%N "Widget" "" (cents 13) 1000 1000).
Proof. reflexivity. Qed.

(** A name of 256 characters is refused, for an id that no row has as
    for one that a row has. *)
Example Update_refused :
  let db := mkDB [samples.gadget_row] (fun _ => false) 0 samples.server in
  (Update db 50%N samples.long_named samples.world0).1 = Err ErrDriver /\
  (Update db 7%N samples.long_named samples.world0).1 = Err ErrDriver.
Proof. split; reflexivity. Qed.

(** X10: on a connection that does not fail, [Delete] succeeds exactly
    when some row has the id and returns the no-product error exactly
    when none has; either way the table then holds the rows of the other
    ids, in their order, [GetByID] of the id finds nothing, and the
    lookup of every other id is unchanged. *)
Theorem Delete_row_then_GetByID (db : ProductRepository) (id : uuid) :
  reliable db ->
  ((Delete db id).1 = Ok tt <-> exists row, row ∈ table db /\ ID row = id) /\
  ((Delete db id).1 = Err ErrNoProductWithID <->
   Forall (memory.other_id id) (table db)) /\
  table (Delete db id).2 = filter (fun row => ID row ≠ id) (table db) /\
  (GetByID (Delete db id).2 id).1 = Err ErrNoRows /\
  (forall id', id' ≠ id ->
     (GetByID (Delete db id).2 id').1 = (GetByID db id').1).
Proof.
  intros Hrel. set (kept := filter (fun row => ID row ≠ id) (table db)).
  assert (Hdel : Delete db id
                 = (if Z.of_nat (length (table db) - length kept) =? 0
                    then Err ErrNoProductWithID else Ok tt,
                    mkDB kept (faults db) (S (calls db)) (columns db))).
  { unfold Delete, round_trip. rewrite Hrel. cbn [table faults calls columns].
    fold kept. now destruct (Z.of_nat _ =? 0). }
  rewrite Hdel. cbn [fst snd table].
  assert (Hcases :
            (Forall (memory.other_id id) (table db) /\
             Z.of_nat (length (table db) - length kept) = 0)
            \/
            ((exists row, row ∈ table db /\ ID row = id) /\
             Z.of_nat (length (table db) - length kept) ≠ 0)).
  { destruct (filter_keeps_all_or_less id (table db)) as [[Hall Heq] | [Hex Hlt]].
    - left. split; [exact Hall |]. unfold kept. rewrite Heq. lia.
    - right. split; [exact Hex |]. unfold kept. lia. }
  split; [| split; [| split; [reflexivity | split]]].
  - destruct Hcases as [[Hall ->] | [Hex Hne]].
    + simpl. split; [discriminate |].
      intros (row & Hin & Hid). rewrite Forall_forall in Hall.
      now destruct (Hall row Hin).
    + destruct (Z.eqb_spec (Z.of_nat (length (table db) - length kept)) 0);
        [contradiction |]. split; [now intros _ | reflexivity].
  - destruct Hcases as [[Hall ->] | [Hex Hne]].
    + simpl. split; [now intros _ | reflexivity].
    + destruct (Z.eqb_spec (Z.of_nat (length (table db) - length kept)) 0);
        [contradiction |]. split; [discriminate |].
      intros Hall. destruct Hex as (row & Hin & Hid).
      rewrite Forall_forall in Hall. now destruct (Hall row Hin).
  - rewrite GetByID_rows by apply Hrel. cbn [table]. unfold kept.
    now rewrite filter_same_after_delete.
  - intros id' Hne. rewrite !GetByID_rows by apply Hrel. cbn [table]. unfold kept.
    now rewrite filter_other_after_delete.
Qed.

Lemma Delete_row_then_GetByID_witness :
  let db := mkDB [samples.gadget_row; samples.late_row] (fun _ => false) 0
                 samples.server in
  ((Delete db 50%N).1 = Ok tt <-> exists row, row ∈ table db /\ ID row = 50%N) /\
  ((Delete db 50%N).1 = Err ErrNoProductWithID <->
   Forall (memory.other_id 50%N) (table db)) /\
  table (Delete db 50%N).2 = filter (fun row => ID row ≠ 50%N) (table db) /\
  (GetByID (Delete db 50%N).2 50%N).1 = Err ErrNoRows /\
  (forall id', id' ≠ 50%N ->
     (GetByID (Delete db 50%N).2 id').1 = (GetByID db id').1).
Proof.
  apply (Delete_row_then_GetByID
           (mkDB [samples.gadget_row; samples.late_row] (fun _ => false) 0
                 samples.server) 50%N).
  intros n. reflexivity.
Defined.

(** X11: when its round trip does not fail, [List] returns an error for
    a negative page size and for an offset [(page - 1) * pageSize] that
    the 64-bit arithmetic leaves negative; otherwise it returns at most
    [pageSize] rows, all of them rows of the table, newest first, and no
    row twice when the table holds none twice. *)
Theorem List_rows_newest_first (db : ProductRepository) (page pageSize : Z) :
  faults db (calls db) = false ->
  (pageSize < 0 \/ GoInt.int_mul (GoInt.int_sub page 1) pageSize < 0 ->
     (List db page pageSize).1 = Err ErrBadLimitOffset) /\
  (0 <= pageSize -> 0 <= GoInt.int_mul (GoInt.int_sub page 1) pageSize ->
     exists rows,
       (List db page pageSize).1 = Ok rows /\
       newest_first rows /\
       Z.of_nat (length rows) <= pageSize /\
       (forall row, row ∈ rows -> row ∈ table db) /\
       (NoDup (ID <$> table db) -> NoDup (ID <$> rows))).
Proof.
  intros Hf. unfold List, round_trip, limit_offset. rewrite Hf. cbn [fst table].
  set (offset := GoInt.int_mul (GoInt.int_sub page 1) pageSize).
  split.
  - intros [Hneg | Hneg].
    + destruct (Z.ltb_spec pageSize 0); [reflexivity | lia].
    + destruct (Z.ltb_spec offset 0); [| lia]. now rewrite orb_true_r.
  - intros Hsize Hoff.
    destruct (Z.ltb_spec pageSize 0); [lia |].
    destruct (Z.ltb_spec offset 0); [lia |]. cbn [orb].
    set (sorted := order_by_created_at_desc (table db)).
    assert (Hsub : take (Z.to_nat pageSize) (drop (Z.to_nat offset) sorted)
                   `sublist_of` sorted).
    { etransitivity; [apply sublist_take | apply sublist_drop]. }
    eexists. split; [reflexivity |]. split; [| split; [| split]].
    + apply newest_first_take_drop, order_by_newest_first.
    + rewrite length_take. lia.
    + intros row Hrow. rewrite <- (order_by_Permutation (table db)).
      fold sorted. eapply elem_of_sublist; [exact Hrow | exact Hsub].
    + intros Hnd. apply (sublist_NoDup _ (ID <$> sorted)).
      * unfold sorted. now rewrite order_by_Permutation.
      * now apply fmap_sublist.
Qed.

Lemma List_rows_newest_first_witness :
  let db := mkDB [samples.gadget_row; samples.late_row] (fun _ => false) 0
                 samples.server in
  (1 < 0 \/ GoInt.int_mul (GoInt.int_sub 1 1) 1 < 0 ->
     (List db 1 1).1 = Err ErrBadLimitOffset) /\
  (0 <= 1 -> 0 <= GoInt.int_mul (GoInt.int_sub 1 1) 1 ->
     exists rows,
       (List db 1 1).1 = Ok rows /\
       newest_first rows /\
       Z.of_nat (length rows) <= 1 /\
       (forall row, row ∈ rows -> row ∈ table db) /\
       (NoDup (ID <$> table db) -> NoDup (ID <$> rows))).
Proof.
  apply (List_rows_newest_first
           (mkDB [samples.gadget_row; samples.late_row] (fun _ => false) 0
                 samples.server) 1 1).
  reflexivity.
Defined.

(** The newest row comes first, not the first one inserted. *)
Example List_newest_row :
  (List (mkDB [samples.gadget_row; samples.late_row] (fun _ => false) 0
                 samples.server) 1 1).1
  = Ok [samples.late_row].
Proof. reflexivity. Qed.

(** X12: [GetAll] returns the driver's error when its round trip fails,
    and otherwise every row of the table exactly once, newest first. *)
Theorem GetAll_rows_newest_first (db : ProductRepository) :
  (faults db (calls db) = true -> (GetAll db).1 = Err ErrDriver) /\
  (faults db (calls db) = false ->
     exists rows,
       (GetAll db).1 = Ok rows /\ rows ≡ₚ table db /\ newest_first rows).
Proof.
  unfold GetAll, round_trip. split; intros ->; [reflexivity |].
  eexists. split; [reflexivity |]. cbn [table].
  split; [apply order_by_Permutation | apply order_by_newest_first].
Qed.

Lemma GetAll_rows_newest_first_witness :
  let db := mkDB [samples.gadget_row; samples.late_row] (fun _ => false) 0
                 samples.server in
  exists rows, (GetAll db).1 = Ok rows /\ rows ≡ₚ table db /\ newest_first rows.
Proof.
  apply (proj2 (GetAll_rows_newest_first
                  (mkDB [samples.gadget_row; samples.late_row] (fun _ => false) 0
                 samples.server))).
  reflexivity.
Defined.

Lemma insert_loop_calls (ps : list Product) :
  forall (tx : Tx) (db : ProductRepository),
    (calls db <= calls (insert_loop ps tx db).2 <= calls db + length ps)%nat /\
    (forall tx1, (insert_loop ps tx db).1.1 = Ok tx1 ->
                 calls (insert_loop ps tx db).2 = (calls db + length ps)%nat) /\
    faults (insert_loop ps tx db).2 = faults db.
Proof.
  induction ps as [| p ps IH]; intros tx db; cbn [insert_loop].
  - simpl. split; [lia |]. split; [intros _ _; lia | reflexivity].
  - unfold tx_insert, round_trip.
    destruct (faults db (calls db));
      [simpl; split; [lia | split; [discriminate | reflexivity]] |].
    cbn [columns].
    destruct (insert_row (columns db) (tx_rows tx) p) as [rows | e];
      [| simpl; split; [lia | split; [discriminate | reflexivity]]].
    destruct (IH (mkTx rows)
                (mkDB (table db) (faults db) (S (calls db)) (columns db)))
      as (Hle & Heq & Hfaults).
    cbn [calls faults length] in *. split; [lia |]. split; [| exact Hfaults].
    intros tx1 Htx1. rewrite (Heq tx1 Htx1). lia.
Qed.

(** The connection after [CreateBulk]: the same faults ahead, and one
    round trip more for each statement sent. *)
Lemma CreateBulk_connection (db : ProductRepository) (ps : list Product) :
  (calls db < calls (CreateBulk db ps).2 <= calls db + length ps + 2)%nat /\
  ((CreateBulk db ps).1 = Ok tt ->
   calls (CreateBulk db ps).2 = (calls db + length ps + 2)%nat) /\
  faults (CreateBulk db ps).2 = faults db.
Proof.
  unfold CreateBulk, BeginTxx, round_trip.
  destruct (faults db (calls db));
    [simpl; split; [lia | split; [discriminate | reflexivity]] |].
  set (db1 := mkDB (table db) (faults db) (S (calls db)) (columns db)).
  pose proof (insert_loop_calls ps (mkTx (table db1)) db1) as (Hle & Heq & Hfaults).
  destruct (insert_loop ps (mkTx (table db1)) db1) as [[[tx1 | e] tx2] db2];
    unfold db1 in *; cbn [fst snd calls faults] in *.
  - specialize (Heq tx1 eq_refl). unfold Commit, round_trip.
    destruct (faults db2 (calls db2)); cbn [fst snd calls faults];
      (split; [lia | split; [intros _; lia | exact Hfaults]]).
  - unfold Rollback, round_trip. cbn [snd calls faults].
    split; [lia | split; [discriminate | exact Hfaults]].
Qed.

(** X13: [CreateBulk] sends one statement for each product it inserts,
    between the one that begins the transaction and the one that ends
    it: at most [length ps + 2] round trips, and exactly that many when
    it succeeds.  Every other call is one round trip, whether it succeeds
    or not. *)
Theorem round_trips_per_call (w : World) (db : ProductRepository) :
  (forall ps,
     (calls db < calls (CreateBulk db ps).2 <= calls db + length ps + 2)%nat /\
     ((CreateBulk db ps).1 = Ok tt ->
      calls (CreateBulk db ps).2 = (calls db + length ps + 2)%nat))
  /\
  (forall op,
     (forall ps, op ≠ OpCreateBulk ps) ->
     calls (postgres_exec op w db).2 = S (calls db)).
Proof.
  split.
  - intros ps. destruct (CreateBulk_connection db ps) as (Hle & Heq & _).
    now split.
  - intros op Hop. destruct op; simpl.
    + unfold Create, round_trip. destruct (faults db (calls db)); [reflexivity |].
      cbn [table faults calls columns].
      now destruct (insert_row (columns db) (table db) _).
    + now destruct (Hop ps).
    + unfold GetByID, round_trip. destruct (faults db (calls db)); [reflexivity |].
      cbn [table]. now destruct (filter _ (table db)).
    + unfold List, round_trip. now destruct (faults db (calls db)).
    + unfold GetAll, round_trip. now destruct (faults db (calls db)).
    + unfold Update, round_trip. destruct (faults db (calls db)); [reflexivity |].
      cbn [table faults calls columns].
      now destruct (update_rows (columns db) id req (time_Now w) (table db)).
    + unfold Delete, round_trip. destruct (faults db (calls db)); [reflexivity |].
      cbn [table faults calls]. now destruct (Z.of_nat _ =? 0).
    + unfold DeleteAll, round_trip. now destruct (faults db (calls db)).
    + unfold Count, round_trip. now destruct (faults db (calls db)).
Qed.

Lemma round_trips_per_call_witness :
  calls (postgres_exec (OpDelete 7%N) samples.world0
           (reliable_empty samples.server)).2
  = S (calls (reliable_empty samples.server)).
Proof.
  apply (proj2 (round_trips_per_call samples.world0
                  (reliable_empty samples.server)) (OpDelete 7%N)).
  discriminate.
Defined.

(** What [Create] returns and leaves when its round trip does not
    fail. *)
Lemma Create_rows_cases (db : ProductRepository) (product : Product) :
  faults db (calls db) = false ->
  Create db product
  = match row_of (columns db) product with
    | Some row =>
        if has_id (ID product) (table db)
        then (Err ErrUniqueViolation,
              mkDB (table db) (faults db) (S (calls db)) (columns db))
        else (Ok tt,
              mkDB (table db ++ [row]) (faults db) (S (calls db)) (columns db))
    | None =>
        (Err ErrDriver, mkDB (table db) (faults db) (S (calls db)) (columns db))
    end.
Proof.
  intros Hf. unfold Create, round_trip, insert_row. rewrite Hf.
  cbn [table faults calls columns].
  destruct (row_of (columns db) product) as [row |] eqn:Hrow; [| reflexivity].
  rewrite (held_ID _ _ _ Hrow).
  now destruct (has_id (ID product) (table db)).
Qed.

(** The lookup of a row that was appended under a new id. *)
Lemma GetByID_appended (db : ProductRepository) (row : Product) (n : nat) :
  reliable db -> Forall (memory.other_id (ID row)) (table db) ->
  (GetByID (mkDB (table db ++ [row]) (faults db) n (columns db)) (ID row)).1
  = Ok row.
Proof.
  intros Hrel Hnew. rewrite GetByID_rows by apply Hrel. cbn [table].
  destruct (filter_id_absent (ID row) (table db) Hnew) as [Hnone _].
  rewrite filter_app, Hnone. simpl. now rewrite filter_cons_True.
Qed.

(** X14: on a connection that does not fail, [Create] of a product that
    the columns accept and whose id no row has puts the row of the
    product, the product as the columns hold it, last in the table, and
    [GetByID] of its id then returns that row; [Create] of a product that
    the columns accept and whose id a row has is refused with the
    unique-violation error; [Create] of a product with a value that a
    column refuses returns the driver's error; and a refused [Create]
    leaves the table unchanged. *)
Theorem Create_row_then_GetByID (db : ProductRepository) (product : Product) :
  reliable db ->
  (forall row,
     held (columns db) product row ->
     (Forall (memory.other_id (ID product)) (table db) ->
        (Create db product).1 = Ok tt /\
        table (Create db product).2 = table db ++ [row] /\
        (GetByID (Create db product).2 (ID product)).1 = Ok row) /\
     ((exists row', row' ∈ table db /\ ID row' = ID product) ->
        (Create db product).1 = Err ErrUniqueViolation /\
        table (Create db product).2 = table db))
  /\
  (row_of (columns db) product = None ->
     (Create db product).1 = Err ErrDriver /\
     table (Create db product).2 = table db).
Proof.
  intros Hrel. rewrite Create_rows_cases by apply Hrel. split.
  - intros row Hrow. pose proof (held_ID _ _ _ Hrow) as Hid.
    unfold held in Hrow. rewrite Hrow. split.
    + intros Hnew. rewrite has_id_absent by assumption. cbn [fst snd table].
      split; [reflexivity |]. split; [reflexivity |].
      rewrite <- Hid in Hnew |- *. now apply GetByID_appended.
    + intros (row' & Hin & Hid').
      destruct (has_id (ID product) (table db)) eqn:Hhas; [now split |].
      apply has_id_false in Hhas. rewrite Forall_forall in Hhas.
      now destruct (Hhas row' Hin).
  - now intros ->.
Qed.

Lemma Create_row_then_GetByID_witness :
  let db := mkDB [samples.gadget_row] (fun _ => false) 0 samples.server in
  (Create db samples.device).1 = Ok tt /\
  table (Create db samples.device).2 = table db ++ [samples.device_row] /\
  (GetByID (Create db samples.device).2 (ID samples.device)).1
  = Ok samples.device_row.
Proof.
  apply (proj1 (proj1 (Create_row_then_GetByID
                         (mkDB [samples.gadget_row] (fun _ => false) 0
                               samples.server)
                         samples.device (fun n => eq_refl))
                 samples.device_row eq_refl)).
  simpl. repeat constructor. discriminate.
Defined.

(** The three refusals: an id that a row has, a price of [10^8], and
    both at once, where the price is what the server reports. *)
Example Create_refused :
  let db := mkDB [samples.gadget_row] (fun _ => false) 0 samples.server in
  (Create db samples.gadget).1 = Err ErrUniqueViolation /\
  (Create db samples.overpriced).1 = Err ErrDriver /\
  (Create db (mkProduct 50%N "Pro Gadget" "" samples.f64_1e8 0 0)).1
  = Err ErrDriver.
Proof. repeat split. Qed.

(** What [Delete] returns and leaves when its round trip does not fail. *)
Lemma Delete_rows_cases (db : ProductRepository) (id : uuid) :
  faults db (calls db) = false ->
  (Forall (memory.other_id id) (table db) /\
   Delete db id
   = (Err ErrNoProductWithID,
      mkDB (table db) (faults db) (S (calls db)) (columns db)))
  \/
  ((exists row, row ∈ table db /\ ID row = id) /\
   Delete db id
   = (Ok tt, mkDB (filter (fun row => ID row ≠ id) (table db)) (faults db)
                  (S (calls db)) (columns db))).
Proof.
  intros Hf. unfold Delete, round_trip. rewrite Hf.
  cbn [table faults calls columns].
  destruct (filter_keeps_all_or_less id (table db)) as [[Hall Heq] | [Hex Hlt]].
  - left. split; [exact Hall |]. now rewrite Heq, Nat.sub_diag.
  - right. split; [exact Hex |].
    destruct (Z.eqb_spec (Z.of_nat (length (table db)
                - length (filter (fun row => ID row ≠ id) (table db)))) 0);
      [lia | reflexivity].
Qed.

(** Rows with pairwise distinct [created_at] have one order only that
    is newest first. *)
Lemma newest_first_unique (l1 : list Product) :
  forall l2,
    NoDup (CreatedAt <$> l1) -> newest_first l1 -> newest_first l2 ->
    l1 ≡ₚ l2 -> l1 = l2.
Proof.
  induction l1 as [| x1 l1 IH]; intros l2 Hnd H1 H2 Hperm.
  - symmetry. now apply Permutation_nil.
  - destruct l2 as [| x2 l2]; [now apply Permutation_nil_r in Hperm |].
    apply newest_first_cons in H1 as [Hall1 H1].
    apply newest_first_cons in H2 as [Hall2 H2].
    rewrite fmap_cons in Hnd. apply NoDup_cons in Hnd as [Hnotin Hnd].
    assert (Heq : x1 = x2).
    { assert (Hx2 : x2 ∈ x1 :: l1) by (rewrite Hperm; left).
      assert (Hx1 : x1 ∈ x2 :: l2) by (rewrite <- Hperm; left).
      apply elem_of_cons in Hx2 as [-> | Hx2]; [reflexivity |].
      apply elem_of_cons in Hx1 as [-> | Hx1]; [reflexivity |].
      rewrite Forall_forall in Hall1, Hall2.
      pose proof (Hall1 x2 Hx2). pose proof (Hall2 x1 Hx1).
      destruct Hnotin. replace (CreatedAt x1) with (CreatedAt x2) by lia.
      apply list_elem_of_fmap. eauto. }
    subst x2. f_equal. apply IH; try assumption.
    now apply Permutation_cons_inv in Hperm.
Qed.

(** X28: when no two rows of the table have the same [created_at], the
    pages of [List] are the consecutive stretches of what [GetAll]
    returns: with [all] the rows of the table ordered newest first, page
    [page] of size [pageSize] is [all] without its first
    [(page - 1) * pageSize] rows, cut after [pageSize] rows.  So the
    pages of one size hold every row exactly once.  The page arithmetic
    is within [int] and the round trip does not fail. *)
Theorem List_page_of_GetAll (db : ProductRepository) (page pageSize : Z)
    (all : list Product) :
  faults db (calls db) = false ->
  NoDup (CreatedAt <$> table db) ->
  all ≡ₚ table db -> newest_first all ->
  1 <= page <= GoInt.max_int -> 0 <= pageSize ->
  page * pageSize <= GoInt.max_int ->
  (GetAll db).1 = Ok all /\
  (List db page pageSize).1
  = Ok (take (Z.to_nat pageSize) (drop (Z.to_nat ((page - 1) * pageSize)) all)).
Proof.
  intros Hf Hnd Hperm Hall Hpage Hsize Hmax.
  assert (Hsorted : order_by_created_at_desc (table db) = all).
  { apply newest_first_unique.
    - now rewrite order_by_Permutation.
    - apply order_by_newest_first.
    - exact Hall.
    - now rewrite order_by_Permutation. }
  unfold GetAll, List, round_trip, limit_offset. rewrite Hf. cbn [fst table].
  rewrite Hsorted. split; [reflexivity |].
  change (GoInt.int_mul (GoInt.int_sub page 1) pageSize)
    with (memory.startIndex page pageSize).
  rewrite memory_list.startIndex_exact
    by (unfold GoInt.is_int, GoInt.min_int, GoInt.max_int in *; nia).
  destruct (Z.ltb_spec pageSize 0); [lia |].
  destruct (Z.ltb_spec ((page - 1) * pageSize) 0); [nia | reflexivity].
Qed.

Lemma List_page_of_GetAll_witness :
  let db := mkDB [samples.gadget_row; samples.late_row] (fun _ => false) 0
                 samples.server in
  (GetAll db).1 = Ok [samples.late_row; samples.gadget_row] /\
  (List db 2 1).1
  = Ok (take (Z.to_nat 1) (drop (Z.to_nat ((2 - 1) * 1))
                                [samples.late_row; samples.gadget_row])).
Proof.
  apply (List_page_of_GetAll
           (mkDB [samples.gadget_row; samples.late_row] (fun _ => false) 0
                 samples.server) 2 1
           [samples.late_row; samples.gadget_row]).
  - reflexivity.
  - simpl. apply NoDup_cons. split; [| apply NoDup_singleton].
    intros H%list_elem_of_singleton. discriminate.
  - simpl. apply Permutation_swap.
  - intros [| [| i]] [| [| [| j]]] a b Hij Ha Hb; simpl in Ha, Hb;
      try lia; try discriminate.
    injection Ha as <-. injection Hb as <-. simpl. lia.
  - unfold GoInt.max_int. lia.
  - lia.
  - vm_compute. discriminate.
Defined.

(** On a connection that does not fail the loop of [CreateBulk] can only
    stop at a product with a value that a column refuses, or at one whose
    id is taken. *)
Lemma insert_loop_refusal (ps : list Product) :
  forall (tx : Tx) (db : ProductRepository) (e : error),
    reliable db -> (insert_loop ps tx db).1.1 = Err e ->
    (e = ErrDriver /\ ~ Forall (fun p => is_Some (row_of (columns db) p)) ps) \/
    (e = ErrUniqueViolation /\ ~ NoDup (ID <$> tx_rows tx ++ ps)).
Proof.
  induction ps as [| p ps IH]; intros tx db e Hrel; cbn [insert_loop].
  - discriminate.
  - unfold tx_insert. rewrite reliable_round_trip by assumption.
    unfold insert_row. cbn [columns].
    destruct (row_of (columns db) p) as [row |] eqn:Hrow.
    + pose proof (held_ID _ _ _ Hrow) as Hid. rewrite Hid.
      destruct (has_id (ID p) (tx_rows tx)) eqn:Hhas.
      * simpl. intros [= <-]. right. split; [reflexivity |].
        intros Hnd. apply has_id_true in Hhas as (row' & Hin & Hid').
        rewrite fmap_app, fmap_cons in Hnd.
        apply NoDup_app in Hnd as (_ & Hnd & _).
        apply (Hnd (ID p)); [| left].
        rewrite <- Hid'. apply list_elem_of_fmap. eauto.
      * intros Hloop.
        destruct (IH _ (mkDB (table db) (faults db) (S (calls db))
                             (columns db)) e Hrel Hloop)
          as [[-> Hno] | [-> Hno]];
          cbn [columns tx_rows] in Hno.
        -- left. split; [reflexivity |].
           intros Hall. apply Hno. now apply Forall_cons in Hall as [_ Hall].
        -- right. split; [reflexivity |].
           intros Hnd. apply Hno.
           rewrite <- app_assoc, !fmap_app, fmap_cons in *. simpl.
           now rewrite Hid.
    + simpl. intros [= <-]. left. split; [reflexivity |].
      intros Hall. apply Forall_cons in Hall as [[row Hp] _]. congruence.
Qed.

(** X29: which batches the persistent [CreateBulk] accepts.  On a
    connection that does not fail and a table with pairwise distinct
    ids, [CreateBulk] succeeds exactly when the columns accept every
    value of the batch and the ids of the batch differ from each other
    and from those of the table.  Any other batch is refused, with the
    driver's error only when a column refuses a value of the batch and
    with the unique-violation error only when an id is taken or comes
    twice; there is no other error. *)
Theorem CreateBulk_accepts_new_ids (db : ProductRepository) (ps : list Product) :
  reliable db -> NoDup (ID <$> table db) ->
  ((CreateBulk db ps).1 = Ok tt <->
   Forall (fun p => is_Some (row_of (columns db) p)) ps /\
   NoDup (ID <$> table db ++ ps)) /\
  ((CreateBulk db ps).1 = Err ErrDriver ->
   ~ Forall (fun p => is_Some (row_of (columns db) p)) ps) /\
  ((CreateBulk db ps).1 = Err ErrUniqueViolation ->
   ~ NoDup (ID <$> table db ++ ps)) /\
  (forall e, (CreateBulk db ps).1 = Err e ->
             e = ErrDriver \/ e = ErrUniqueViolation).
Proof.
  intros Hrel Hnd.
  assert (Herr : forall e,
             (CreateBulk db ps).1 = Err e ->
             (e = ErrDriver /\
              ~ Forall (fun p => is_Some (row_of (columns db) p)) ps) \/
             (e = ErrUniqueViolation /\ ~ NoDup (ID <$> table db ++ ps))).
  { intros e. unfold CreateBulk, BeginTxx.
    rewrite reliable_round_trip by assumption.
    set (db1 := mkDB (table db) (faults db) (S (calls db)) (columns db)).
    pose proof (insert_loop_refusal ps (mkTx (table db1)) db1) as Hloop.
    pose proof (insert_loop_calls ps (mkTx (table db1)) db1) as (_ & _ & Hfaults).
    destruct (insert_loop ps (mkTx (table db1)) db1) as [[[tx1 | e1] tx2] db2];
      cbn [fst snd] in *.
    - unfold Commit, round_trip. rewrite Hfaults. unfold db1. cbn [faults].
      rewrite Hrel. discriminate.
    - intros [= <-]. now apply Hloop. }
  assert (Hok : Forall (fun p => is_Some (row_of (columns db) p)) ps ->
                NoDup (ID <$> table db ++ ps) -> (CreateBulk db ps).1 = Ok tt).
  { intros [rows Hall]%accepted_rows Hids. unfold CreateBulk, BeginTxx.
    rewrite reliable_round_trip by assumption.
    destruct (insert_loop_reliable ps rows (mkTx (table db))
                (mkDB (table db) (faults db) (S (calls db)) (columns db)))
      as [n Hn]; [exact Hrel | exact Hall | |].
    { cbn [tx_rows].
      now rewrite fmap_app, (held_all_ID _ _ _ Hall), <- fmap_app. }
    cbn [table faults] in *. rewrite Hn.
    unfold Commit. now rewrite reliable_round_trip. }
  assert (Hconv : (CreateBulk db ps).1 = Ok tt ->
                  Forall (fun p => is_Some (row_of (columns db) p)) ps /\
                  NoDup (ID <$> table db ++ ps)).
  { intros Hres.
    destruct (CreateBulk_cases db ps)
      as [(_ & (rows & Hall & _) & Hkeep) | (e & He & _)]; [| congruence].
    split; [apply accepted_rows; now exists rows | now apply Hkeep]. }
  split; [split; [exact Hconv | now intros [? ?]; apply Hok] |].
  split; [| split].
  - intros He. now destruct (Herr _ He) as [[_ ?] | [[=] _]].
  - intros He. now destruct (Herr _ He) as [[[=] _] | [_ ?]].
  - intros e He. destruct (Herr _ He) as [[-> _] | [-> _]]; auto.
Qed.

Lemma CreateBulk_accepts_new_ids_witness :
  let db := mkDB [samples.gadget_row] (fun _ => false) 0 samples.server in
  (CreateBulk db [samples.device; samples.late_row]).1 = Ok tt /\
  ~ Forall (fun p => is_Some (row_of samples.server p))
      [samples.device; samples.overpriced] /\
  ~ NoDup (ID <$> [samples.gadget_row; samples.device; samples.device]).
Proof.
  pose proof (fun ps =>
                CreateBulk_accepts_new_ids
                  (mkDB [samples.gadget_row] (fun _ => false) 0 samples.server)
                  ps (fun n => eq_refl) (NoDup_singleton _)) as H.
  split; [| split].
  - apply (proj1 (H [samples.device; samples.late_row])). split.
    + repeat constructor; eexists; reflexivity.
    + simpl. apply (bool_decide_unpack _). vm_compute. exact I.
  - apply (proj1 (proj2 (H [samples.device; samples.overpriced]))).
    reflexivity.
  - apply (proj1 (proj2 (proj2 (H [samples.device; samples.device])))).
    reflexivity.
Defined.

(** A batch that the server takes, one with a price it cannot hold, and
    one with an id twice. *)
Example CreateBulk_three_batches :
  let db := mkDB [samples.gadget_row] (fun _ => false) 0 samples.server in
  CreateBulk db [samples.device]
  = (Ok tt, mkDB [samples.gadget_row; samples.device_row] (fun _ => false) 3
                 samples.server) /\
  (CreateBulk db [samples.device; samples.overpriced]).1 = Err ErrDriver /\
  (CreateBulk db [samples.device; samples.device]).1 = Err ErrUniqueViolation.
Proof. repeat split. Qed.

(** Rounding to whole microseconds keeps the order of two times. *)
Lemma microseconds_monotone (t u t' u' : Time) :
  t' mod 1000 = 0 -> Z.abs (t' - t) <= 500 ->
  u' mod 1000 = 0 -> Z.abs (u' - u) <= 500 ->
  t < u -> t' <= u'.
Proof.
  intros [a ->]%Z.mod_divide Ht [b ->]%Z.mod_divide Hu Hlt; lia.
Qed.



(** The row of a product with a price of an eighth, stamped at 1005 and
    1499 ns. *)
Example row_of_eighth :
  row_of samples.server (mkProduct 9%N "Widget  " "" samples.f64_0_125 1005 1499)
  = Some (mkProduct 9%N "Widget  " "" (cents 13) 1000 1000).
Proof. reflexivity. Qed.
End postgres_calls.

(** ** Bulk generation *)

Module generate_facts.
Import memory utils_facts service service_invariants.
Local Open Scope Z_scope.

(** One record: the id it takes and the world it leaves, whatever the
    random source yields. *)
Lemma GenerateRandomProduct_draws (w : World) :
  utils.ID (utils.GenerateRandomProduct w).1 = uuid_src w (uuid_pos w) /\
  (utils.GenerateRandomProduct w).2 = utils.after_records 1 w.
Proof. split; reflexivity. Qed.

Lemma generate_loop_draws (n : nat) :
  forall w : World,
    length (utils.generate_loop n w).1 = n /\
    (utils.generate_loop n w).2 = utils.after_records n w /\
    (forall i rp, (utils.generate_loop n w).1 !! i = Some rp ->
                  utils.ID rp = uuid_src w (i + uuid_pos w)).
Proof.
  induction n as [| n IH]; intros w; cbn [utils.generate_loop].
  - split; [reflexivity |]. split; [now rewrite after_records_0 |].
    intros i rp Hrp. destruct i; discriminate Hrp.
  - destruct (GenerateRandomProduct_draws w) as [Hid Hw].
    destruct (utils.GenerateRandomProduct w) as [p1 w1]. cbn [fst snd] in Hid, Hw.
    subst w1. destruct (IH (utils.after_records 1 w)) as (Hlen & Hw' & Hids).
    destruct (utils.generate_loop n (utils.after_records 1 w)) as [ps w2].
    cbn [fst snd] in *. split; [simpl; now rewrite Hlen |].
    split; [now rewrite Hw', after_records_S |].
    intros [| i] rp Hrp.
    + now injection Hrp as <-.
    + rewrite (Hids i rp Hrp). cbn [utils.after_records uuid_src uuid_pos].
      f_equal. lia.
Qed.

(** [GenerateRandomProducts] for a count that [make] accepts. *)
Lemma GenerateRandomProducts_loop (count : Z) (w : World) :
  0 <= count -> count * sizeof_Product <= max_alloc ->
  utils.GenerateRandomProducts count w
  = (Return (utils.generate_loop (Z.to_nat count) w).1,
     utils.after_records (Z.to_nat count) w).
Proof.
  intros Hcount Hfits. unfold utils.GenerateRandomProducts.
  destruct (Z.ltb_spec count 0); [lia |].
  destruct (Z.ltb_spec max_alloc (count * utils.sizeof_RandomProduct)) as [Hbig |].
  { unfold utils.sizeof_RandomProduct, sizeof_Product in *. lia. }
  cbn [orb].
  destruct (generate_loop_draws (Z.to_nat count) w) as (_ & Hw & _).
  destruct (utils.generate_loop (Z.to_nat count) w) as [ps w']. simpl in *. now subst w'.
Qed.

(** The loop of the in-memory backend writes slot after slot, and leaves
    the slots before [i] as they were. *)
Lemma convert_loop_fills (now : Time) (rps : list utils.RandomProduct) :
  forall (i : nat) (products : list Product),
    length products = (i + length rps)%nat ->
    memory_generate.convert_loop i rps now products
    = take i products ++
      ((fun rp => mkProduct (utils.ID rp) (utils.Name rp) (utils.Description rp)
                            (utils.Price rp) now now) <$> rps).
Proof.
  induction rps as [| rp rest IH]; intros i products Hlen;
    cbn [memory_generate.convert_loop]; simpl in Hlen.
  - rewrite take_ge by lia. now rewrite app_nil_r.
  - rewrite IH by (rewrite length_insert; lia).
    rewrite (take_S_r _ _ (mkProduct (utils.ID rp) (utils.Name rp)
                                     (utils.Description rp) (utils.Price rp) now now))
      by (apply list_lookup_insert_eq; lia).
    rewrite take_insert_ge by lia. now rewrite fmap_cons, <- app_assoc.
Qed.

(** [GenerateAndSaveBulkProducts] of the in-memory backend, for a count
    that [make] accepts. *)
Lemma memory_GenerateAndSave_eq (r : ProductMemoryRepository) (count : Z)
    (w : World) :
  0 <= count -> count * sizeof_Product <= max_alloc ->
  memory_generate.GenerateAndSaveBulkProducts r count w
  = (Return (Ok tt), utils.after_records (Z.to_nat count) w,
     mkRepo (products r ++
             ((fun rp => mkProduct (utils.ID rp) (utils.Name rp)
                                   (utils.Description rp) (utils.Price rp)
                                   (clock w) (clock w))
                <$> (utils.generate_loop (Z.to_nat count) w).1))).
Proof.
  intros Hcount Hfits. unfold memory_generate.GenerateAndSaveBulkProducts.
  rewrite GenerateRandomProducts_loop by assumption.
  destruct (generate_loop_draws (Z.to_nat count) w) as (Hlen & _ & _).
  rewrite Hlen, Z2Nat.id by lia.
  rewrite memory_list.make_ok; [| lia | now apply Z.leb_le].
  rewrite convert_loop_fills by (rewrite length_replicate; lia).
  reflexivity.
Qed.



(** X16: bulk generation keeps the invariants of the dataset.  When
    every product has [created_at <= updated_at], no id occurs twice and
    no product was created after the present reading of the clock, and
    the ids that [uuid.New] hands out differ from each other and from
    those of the dataset, the same holds after
    [GenerateAndSaveBulkProducts]. *)
Theorem GenerateAndSave_keeps_settled (r : ProductMemoryRepository)
    (count : Z) (w : World) :
  0 <= count -> count * sizeof_Product <= max_alloc ->
  settled w (products r) ->
  (forall i j, (i < Z.to_nat count)%nat -> (j < Z.to_nat count)%nat ->
               uuid_src w (i + uuid_pos w) = uuid_src w (j + uuid_pos w) -> i = j) ->
  (forall i, (i < Z.to_nat count)%nat ->
             uuid_src w (i + uuid_pos w) ∉ ID <$> products r) ->
  settled (memory_generate.GenerateAndSaveBulkProducts r count w).1.2
          (products (memory_generate.GenerateAndSaveBulkProducts r count w).2).
Proof.
  intros Hcount Hfits Hs Hinj Hnew.
  rewrite memory_GenerateAndSave_eq by assumption. cbn [fst snd products].
  destruct (generate_loop_draws (Z.to_nat count) w) as (Hlen & _ & Hids).
  set (rps := (utils.generate_loop (Z.to_nat count) w).1) in *.
  assert (Hw : settled (utils.after_records (Z.to_nat count) w) (products r)).
  { destruct Hs as [Hc Hnow]. split; assumption. }
  apply settled_app.
  - exact Hw.
  - apply Forall_forall. intros p (rp & -> & _)%list_elem_of_fmap.
    cbn [CreatedAt UpdatedAt utils.after_records clock]. lia.
  - apply NoDup_alt. intros i j id Hi Hj.
    rewrite !list_lookup_fmap in Hi, Hj.
    destruct (rps !! i) as [rpi |] eqn:Hrpi; [| discriminate].
    destruct (rps !! j) as [rpj |] eqn:Hrpj; [| discriminate].
    injection Hi as Hi. injection Hj as Hj. cbn [ID] in Hi, Hj.
    apply Hinj.
    + apply lookup_lt_Some in Hrpi. lia.
    + apply lookup_lt_Some in Hrpj. lia.
    + rewrite <- (Hids i rpi Hrpi), <- (Hids j rpj Hrpj). congruence.
  - intros q Hq. apply list_elem_of_lookup in Hq as [i Hq].
    rewrite list_lookup_fmap in Hq.
    destruct (rps !! i) as [rp |] eqn:Hrp; [| discriminate].
    injection Hq as <-. cbn [ID]. rewrite (Hids i rp Hrp).
    apply Hnew. apply lookup_lt_Some in Hrp. lia.
Qed.

Lemma GenerateAndSave_keeps_settled_witness :
  settled
    (memory_generate.GenerateAndSaveBulkProducts (mkRepo [samples.gadget]) 2
       samples.world0).1.2
    (products
       (memory_generate.GenerateAndSaveBulkProducts (mkRepo [samples.gadget]) 2
          samples.world0).2).
Proof.
  apply (GenerateAndSave_keeps_settled (mkRepo [samples.gadget]) 2 samples.world0).
  - lia.
  - vm_compute. discriminate.
  - split; [split |].
    + repeat constructor. simpl. lia.
    + simpl. apply NoDup_singleton.
    + repeat constructor. simpl. lia.
  - simpl. intros i j Hi Hj H. lia.
  - simpl. intros i Hi H%list_elem_of_singleton. lia.
Defined.

(** The loop of the persistent backend: slot after slot, each product
    stamped with two successive readings of a clock that does not run
    backwards. *)
Lemma convert_loop_stamps (ticks : nat -> N) (rps : list utils.RandomProduct) :
  forall (i : nat) (w : World) (products : list Product),
    length products = (i + length rps)%nat ->
    exists new,
      (postgres_generate.convert_loop ticks i rps w products).1
      = take i products ++ new /\
      length new = length rps /\
      clock w <= clock (postgres_generate.convert_loop ticks i rps w products).2 /\
      (forall k p, new !! k = Some p ->
         exists rp,
           rps !! k = Some rp /\
           ID p = utils.ID rp /\ Name p = utils.Name rp /\
           Description p = utils.Description rp /\ Price p = utils.Price rp /\
           clock w <= CreatedAt p <= UpdatedAt p /\
           UpdatedAt p
           <= clock (postgres_generate.convert_loop ticks i rps w products).2).
Proof.
  induction rps as [| rp rest IH]; intros i w products Hlen;
    cbn [postgres_generate.convert_loop]; simpl in Hlen.
  - exists []. rewrite take_ge by lia. rewrite app_nil_r. cbn [fst snd].
    split; [reflexivity |]. split; [reflexivity |]. split; [lia |].
    intros k p Hp. destruct k; discriminate Hp.
  - unfold postgres_generate.time_Now_again, time_Now.
    set (w1 := elapse (ticks (2 * i)%nat) w).
    set (w2 := elapse (ticks (2 * i + 1)%nat) w1).
    set (p0 := mkProduct (utils.ID rp) (utils.Name rp) (utils.Description rp)
                         (utils.Price rp) (clock w1) (clock w2)).
    destruct (IH (S i) w2 (<[i := p0]> products)) as (new & Heq & Hn & Hclock & Hall).
    { rewrite length_insert. lia. }
    assert (H1 : clock w <= clock w1) by (unfold w1; simpl; lia).
    assert (H2 : clock w1 <= clock w2) by (unfold w2; simpl; lia).
    exists (p0 :: new). split; [| split; [| split]].
    + rewrite Heq.
      rewrite (take_S_r _ _ p0) by (apply list_lookup_insert_eq; lia).
      rewrite take_insert_ge by lia. now rewrite <- app_assoc.
    + simpl. now rewrite Hn.
    + lia.
    + intros [| k] p Hp.
      * injection Hp as <-. exists rp.
        assert (Hc0 : CreatedAt p0 = clock w1) by reflexivity.
        assert (Hu0 : UpdatedAt p0 = clock w2) by reflexivity.
        repeat split; try reflexivity; rewrite ?Hc0, ?Hu0; lia.
      * destruct (Hall k p Hp) as (rp' & Hrp' & Hid & Hname & Hdesc & Hprice & Hc & Hu).
        exists rp'. repeat split; try assumption; lia.
Qed.

(** [GenerateAndSaveBulkProducts] of the persistent backend, for a count
    that [make] accepts: the batch it hands to [CreateBulk]. *)
Lemma GenerateAndSave_rows_eq (db : postgres.ProductRepository)
    (count : Z) (ticks : nat -> N) (w : World) :
  0 <= count -> count * sizeof_Product <= max_alloc ->
  exists new w2,
    postgres_generate.GenerateAndSaveBulkProducts db count ticks w
    = (Return (postgres.CreateBulk db new).1, w2, (postgres.CreateBulk db new).2) /\
    Z.of_nat (length new) = count /\
    (forall i p, new !! i = Some p ->
       ID p = uuid_src w (i + uuid_pos w) /\
       clock w <= CreatedAt p <= UpdatedAt p /\ UpdatedAt p <= clock w2).
Proof.
  intros Hcount Hfits. unfold postgres_generate.GenerateAndSaveBulkProducts.
  rewrite GenerateRandomProducts_loop by assumption.
  destruct (generate_loop_draws (Z.to_nat count) w) as (Hlen & _ & Hids).
  set (rps := (utils.generate_loop (Z.to_nat count) w).1) in *.
  rewrite Hlen, Z2Nat.id by lia.
  rewrite memory_list.make_ok; [| lia | now apply Z.leb_le].
  destruct (convert_loop_stamps ticks rps 0 (utils.after_records (Z.to_nat count) w)
              (replicate (Z.to_nat count) zeroProduct))
    as (new & Heq & Hn & Hclock & Hall).
  { rewrite length_replicate. lia. }
  destruct (postgres_generate.convert_loop ticks 0 rps
              (utils.after_records (Z.to_nat count) w)
              (replicate (Z.to_nat count) zeroProduct)) as [products w2].
  cbn [fst snd] in Heq, Hclock, Hall. rewrite take_0 in Heq. simpl in Heq. subst products.
  exists new, w2. split; [now destruct (postgres.CreateBulk db new) |].
  split; [lia |].
  intros i p Hp. destruct (Hall i p Hp) as (rp & Hrp & Hid & _ & _ & _ & Hc & Hu).
  rewrite Hid, (Hids i rp Hrp). cbn [utils.after_records clock] in Hc.
  split; [reflexivity | split; assumption].
Qed.

(** X17: [GenerateAndSaveBulkProducts] of the persistent backend, for a
    count from 0 up to what [make] can allocate, builds [count] products,
    the [i]-th with the [i]-th id drawn from [uuid.New] and two readings
    of the clock with [created_at <= updated_at], neither before the call
    nor after its end; and whatever round trip fails and whatever value a
    column refuses, it either returns no error with exactly the rows of
    these products, in their order, added after those of the table, or
    returns an error with the table as it was. *)
Theorem GenerateAndSave_rows_all_or_nothing (db : postgres.ProductRepository)
    (count : Z) (ticks : nat -> N) (w : World) :
  0 <= count -> count * sizeof_Product <= max_alloc ->
  exists new,
    Z.of_nat (length new) = count /\
    (forall i p, new !! i = Some p ->
       ID p = uuid_src w (i + uuid_pos w) /\
       clock w <= CreatedAt p <= UpdatedAt p /\
       UpdatedAt p
       <= clock (postgres_generate.GenerateAndSaveBulkProducts db count ticks w).1.2)
    /\
    (((postgres_generate.GenerateAndSaveBulkProducts db count ticks w).1.1
      = Return (Ok tt) /\
      exists rows,
        Forall2 (postgres.held (postgres.columns db)) new rows /\
        postgres.table
          (postgres_generate.GenerateAndSaveBulkProducts db count ticks w).2
        = postgres.table db ++ rows)
     \/
     (exists e,
        (postgres_generate.GenerateAndSaveBulkProducts db count ticks w).1.1
        = Return (Err e) /\
        postgres.table (postgres_generate.GenerateAndSaveBulkProducts db count ticks w).2
        = postgres.table db)).
Proof.
  intros Hcount Hfits.
  destruct (GenerateAndSave_rows_eq db count ticks w Hcount Hfits)
    as (new & w2 & -> & Hlen & Hall).
  exists new. cbn [fst snd]. split; [exact Hlen |]. split; [exact Hall |].
  destruct (postgres_rows.CreateBulk_cases db new)
    as [(Hok & Hrows & _) | (e & He & Htab)].
  - left. now rewrite Hok.
  - right. exists e. now rewrite He, Htab.
Qed.

Lemma GenerateAndSave_rows_all_or_nothing_witness :
  let db := postgres.reliable_empty samples.server in
  exists new,
    Z.of_nat (length new) = 2 /\
    (forall i p, new !! i = Some p ->
       ID p = uuid_src samples.world0 (i + uuid_pos samples.world0) /\
       clock samples.world0 <= CreatedAt p <= UpdatedAt p /\
       UpdatedAt p
       <= clock (postgres_generate.GenerateAndSaveBulkProducts
                   db 2 (fun _ => 1000%N) samples.world0).1.2)
    /\
    (((postgres_generate.GenerateAndSaveBulkProducts
         db 2 (fun _ => 1000%N) samples.world0).1.1
      = Return (Ok tt) /\
      exists rows,
        Forall2 (postgres.held samples.server) new rows /\
        postgres.table (postgres_generate.GenerateAndSaveBulkProducts
                          db 2 (fun _ => 1000%N) samples.world0).2
        = postgres.table db ++ rows)
     \/
     (exists e,
        (postgres_generate.GenerateAndSaveBulkProducts
           db 2 (fun _ => 1000%N) samples.world0).1.1
        = Return (Err e) /\
        postgres.table (postgres_generate.GenerateAndSaveBulkProducts
                          db 2 (fun _ => 1000%N) samples.world0).2
        = postgres.table db)).
Proof.
  apply (GenerateAndSave_rows_all_or_nothing
           (postgres.reliable_empty samples.server) 2
           (fun _ => 1000%N) samples.world0).
  - lia.
  - vm_compute. discriminate.
Defined.

(** The two readings of the clock can differ: a row of the persistent
    backend can have [updated_at] after [created_at], which no product
    generated in memory has. *)
Example generated_rows_stamped_twice :
  (fun p => (CreatedAt p, UpdatedAt p))
    <$> postgres.table (postgres_generate.GenerateAndSaveBulkProducts
                          (postgres.reliable_empty samples.server) 2
                          (fun _ => 1000%N) samples.world0).2
  = [(2000, 3000); (4000, 5000)].
Proof. vm_compute. reflexivity. Qed.
End generate_facts.

(** ** The handlers *)

Module handler_facts.
Import GoInt GoIntFacts echo memory_scan outcomes.
Local Open Scope Z_scope.

Lemma page_of_max (c : Context) :
  page_of c = Z.max 1 (atoi_int (QueryParam_page c)).
Proof.
  unfold page_of. destruct (Z.ltb_spec (atoi_int (QueryParam_page c)) 1); lia.
Qed.

Lemma pageSize_of_range (c : Context) :
  1 <= pageSize_of c <= 100 /\
  (1 <= atoi_int (QueryParam_pageSize c) <= 100 ->
   pageSize_of c = atoi_int (QueryParam_pageSize c)) /\
  (atoi_int (QueryParam_pageSize c) < 1 \/ 100 < atoi_int (QueryParam_pageSize c) ->
   pageSize_of c = 10).
Proof.
  unfold pageSize_of.
  destruct (Z.ltb_spec (atoi_int (QueryParam_pageSize c)) 1);
    destruct (Z.ltb_spec 100 (atoi_int (QueryParam_pageSize c))); simpl; lia.
Qed.

Lemma count_of_range (c : Context) :
  1 <= count_of c <= 10000 /\
  (atoi_err (QueryParam_count c) = false ->
   1 <= atoi_int (QueryParam_count c) <= 10000 ->
   count_of c = atoi_int (QueryParam_count c)) /\
  (atoi_err (QueryParam_count c) = true \/
   atoi_int (QueryParam_count c) < 1 \/ 10000 < atoi_int (QueryParam_count c) ->
   count_of c = 1000).
Proof.
  unfold count_of.
  destruct (atoi_err (QueryParam_count c));
    destruct (Z.ltb_spec (atoi_int (QueryParam_count c)) 1);
    destruct (Z.ltb_spec 10000 (atoi_int (QueryParam_count c))); simpl;
    (split; [lia | split; [intros; (discriminate || lia) | intros; lia]]).
Qed.

(** X18: [ListProducts] of the in-memory handler asks for page
    [max(1, page)] and for the page size of the query when that lies in
    [1, 100], for 10 otherwise.  When the page arithmetic stays within
    [int] it answers 200 with that page of the slice, the page and page
    size it used, and the number of products as total count.  It panics
    exactly when the start index wraps to a negative number, and answers
    with no other status than 200. *)
Theorem ListProducts_page (c : Context) (r : memory.ProductMemoryRepository) :
  memory.well_formed r -> is_int (atoi_int (QueryParam_page c)) ->
  page_of c = Z.max 1 (atoi_int (QueryParam_page c)) /\
  (1 <= atoi_int (QueryParam_pageSize c) <= 100 ->
   pageSize_of c = atoi_int (QueryParam_pageSize c)) /\
  (atoi_int (QueryParam_pageSize c) < 1 \/
   100 < atoi_int (QueryParam_pageSize c) ->
   pageSize_of c = 10) /\
  (page_of c * pageSize_of c <= max_int ->
   memory_handler.ListProducts c r
   = Return (mkResponse 200
               (PageJSON (take (Z.to_nat (pageSize_of c))
                               (drop (Z.to_nat ((page_of c - 1) * pageSize_of c))
                                     (memory.products r)))
                         (page_of c) (pageSize_of c) (memory.len r)))) /\
  ((exists p, memory_handler.ListProducts c r = Panic p) <->
   memory.startIndex (page_of c) (pageSize_of c) < 0) /\
  (forall resp, memory_handler.ListProducts c r = Return resp -> Status resp = 200).
Proof.
  intros Hwf Hint.
  pose proof (page_of_max c) as Hpage.
  pose proof (pageSize_of_range c) as (Hsize & Hkeep & Hdefault).
  split; [exact Hpage |]. split; [exact Hkeep |]. split; [exact Hdefault |].
  assert (Hlen : memory.len r + pageSize_of c <= max_int).
  { pose proof (paging_facts.well_formed_len r Hwf). unfold max_int. lia. }
  destruct (memory_pages.List_start_cases r (page_of c) (pageSize_of c) Hwf
              ltac:(lia) Hlen) as [Hok Hpanic].
  unfold memory_handler.ListProducts. split; [| split].
  - intros Hmax.
    rewrite memory_list.List_in_range; try assumption; try lia.
    + reflexivity.
    + rewrite Hpage. unfold is_int, min_int, max_int in *. lia.
  - destruct (Z.lt_ge_cases (memory.startIndex (page_of c) (pageSize_of c)) 0)
      as [Hneg | Hpos].
    + destruct (Hpanic Hneg) as [p ->]. split; [now intros _ | eauto].
    + rewrite (Hok Hpos). split; [intros [p Hp]; discriminate | lia].
  - intros resp.
    destruct (memory.List r (page_of c) (pageSize_of c)) as [[products | e] | p] eqn:Hl.
    + now intros [= <-].
    + now destruct (memory_pages.List_never_errs r (page_of c) (pageSize_of c) e).
    + discriminate.
Qed.

Lemma ListProducts_page_witness :
  let c := mkContext None None (fun _ => None) (mkAtoi 0 true) (mkAtoi 500 false)
                     (mkAtoi 0 true) in
  let r := memory.mkRepo [samples.gadget; samples.device] in
  page_of c = 1 /\
  (1 <= 500 <= 100 -> pageSize_of c = 500) /\
  (500 < 1 \/ 100 < 500 -> pageSize_of c = 10) /\
  (page_of c * pageSize_of c <= max_int ->
   memory_handler.ListProducts c r
   = Return (mkResponse 200
               (PageJSON (take (Z.to_nat (pageSize_of c))
                               (drop (Z.to_nat ((page_of c - 1) * pageSize_of c))
                                     (memory.products r)))
                         (page_of c) (pageSize_of c) (memory.len r)))) /\
  ((exists p, memory_handler.ListProducts c r = Panic p) <->
   memory.startIndex (page_of c) (pageSize_of c) < 0) /\
  (forall resp, memory_handler.ListProducts c r = Return resp -> Status resp = 200).
Proof.
  apply (ListProducts_page
           (mkContext None None (fun _ => None) (mkAtoi 0 true) (mkAtoi 500 false)
                      (mkAtoi 0 true))
           (memory.mkRepo [samples.gadget; samples.device])).
  - reflexivity.
  - unfold is_int, min_int, max_int. simpl. lia.
Defined.

(** A page size of 500 and one of 0 are both answered with pages of
    size 10, a page of 0 with page 1. *)
Example ListProducts_defaults :
  let r := memory.mkRepo [samples.gadget; samples.device] in
  memory_handler.ListProducts
    (mkContext None None (fun _ => None) (mkAtoi 0 true) (mkAtoi 500 false)
               (mkAtoi 0 true)) r
  = Return (mkResponse 200 (PageJSON [samples.gadget; samples.device] 1 10 2)) /\
  memory_handler.ListProducts
    (mkContext None None (fun _ => None) (mkAtoi 0 false) (mkAtoi 0 false)
               (mkAtoi 0 true)) r
  = Return (mkResponse 200 (PageJSON [samples.gadget; samples.device] 1 10 2)).
Proof. split; reflexivity. Qed.

(** The second page of size one of two products. *)
Example ListProducts_second_of_two :
  memory_handler.ListProducts
    (mkContext None None (fun _ => None) (mkAtoi 2 false) (mkAtoi 1 false)
               (mkAtoi 0 true))
    (memory.mkRepo [samples.gadget; samples.device])
  = Return (mkResponse 200 (PageJSON [samples.device] 2 1 2)).
Proof. reflexivity. Qed.

(** X19: [BulkGenerateProducts] of the in-memory handler generates the
    count of the query when that parsed and lies in [1, 10000], and 1000
    products otherwise.  It never panics and never fails: it answers 201
    with that count and with the new number of products, which is the
    old one plus the count, and the repository holds what it held,
    followed by exactly that many new products. *)
Theorem BulkGenerateProducts_adds_count (c : Context) (w : World)
    (r : memory.ProductMemoryRepository) :
  1 <= count_of c <= 10000 /\
  (atoi_err (QueryParam_count c) = false ->
   1 <= atoi_int (QueryParam_count c) <= 10000 ->
   count_of c = atoi_int (QueryParam_count c)) /\
  (atoi_err (QueryParam_count c) = true \/
   atoi_int (QueryParam_count c) < 1 \/ 10000 < atoi_int (QueryParam_count c) ->
   count_of c = 1000) /\
  exists new,
    memory_handler.BulkGenerateProducts c w r
    = (Return (mkResponse 201
                 (GeneratedJSON "Products generated successfully in memory"
                                (count_of c) (memory.len r + count_of c))),
       utils.after_records (Z.to_nat (count_of c)) w,
       memory.mkRepo (memory.products r ++ new)) /\
    Z.of_nat (length new) = count_of c.
Proof.
  destruct (count_of_range c) as (Hrange & Hkeep & Hdefault).
  split; [exact Hrange |]. split; [exact Hkeep |]. split; [exact Hdefault |].
  assert (Hfits : count_of c * memory.sizeof_Product <= memory.max_alloc).
  { unfold memory.sizeof_Product, memory.max_alloc. lia. }
  destruct (generate_facts.generate_loop_draws (Z.to_nat (count_of c)) w)
    as (Hlen & _ & _).
  eexists. split.
  - unfold memory_handler.BulkGenerateProducts.
    rewrite generate_facts.memory_GenerateAndSave_eq by (assumption || lia).
    cbn [memory.Count]. unfold memory.len. cbn [memory.products].
    rewrite length_app, length_fmap, Hlen, Nat2Z.inj_add, Z2Nat.id by lia.
    reflexivity.
  - rewrite length_fmap, Hlen. lia.
Qed.

Lemma BulkGenerateProducts_adds_count_witness :
  let c := mkContext None None (fun _ => None) (mkAtoi 0 true) (mkAtoi 0 true)
                     (mkAtoi 5 false) in
  count_of c = atoi_int (QueryParam_count c).
Proof.
  apply (proj1 (proj2 (BulkGenerateProducts_adds_count
                         (mkContext None None (fun _ => None) (mkAtoi 0 true)
                                    (mkAtoi 0 true) (mkAtoi 5 false))
                         samples.world0 memory.NewProductMemoryRepository))).
  - reflexivity.
  - simpl. lia.
Defined.

(** X20: [UpdateProduct], given an id that parses and a request that
    binds and validates, answers 200 with the updated product when the
    lookup finds a product with the id: in memory the product with the
    values of the request and the reading of the clock, on the table the
    row with these values as the columns hold them.  It answers 500 when
    the lookup finds none: the in-memory handler because [Update] fails,
    the other because [Update] succeeds on no row and the lookup after it
    finds nothing.  The persistent handler answers 500 as well when a
    column refuses a value of the validated request, whether or not a row
    has the id.  Neither answers 404, and with 500 the dataset stays as
    it was.  The connection is one that does not fail. *)
Theorem UpdateProduct_found_or_500 (c : Context) (w : World) (id : uuid)
    (req : ProductRequest) :
  Param_id c = Some id -> Bind c = Some req -> Validate c req = None ->
  (forall r : memory.ProductMemoryRepository,
     match memory.GetByID r id with
     | Ok old =>
         (memory_handler.UpdateProduct c w r).1
         = mkResponse 200 (ProductJSON (memory.overwrite req (time_Now w) old))
     | Err _ =>
         memory_handler.UpdateProduct c w r
         = (mkResponse 500 (ErrorJSON "Failed to update product"), r)
     end)
  /\
  (forall db : postgres.ProductRepository,
     postgres.reliable db ->
     (forall held updated_at,
        postgres.held_request (postgres.columns db) req = Some held ->
        postgres.time_column (postgres.columns db) (time_Now w)
        = Some updated_at ->
        match (postgres.GetByID db id).1 with
        | Ok old =>
            (handler.UpdateProduct c w db).1
            = mkResponse 200
                (ProductJSON (memory.overwrite held updated_at old))
        | Err _ =>
            (handler.UpdateProduct c w db).1
            = mkResponse 500 (ErrorJSON "Failed to retrieve updated product") /\
            postgres.table (handler.UpdateProduct c w db).2 = postgres.table db
        end) /\
     (postgres.held_request (postgres.columns db) req = None \/
      postgres.time_column (postgres.columns db) (time_Now w) = None ->
        (handler.UpdateProduct c w db).1
        = mkResponse 500 (ErrorJSON "Failed to update product") /\
        postgres.table (handler.UpdateProduct c w db).2 = postgres.table db)).
Proof.
  intros Hid Hbind Hvalid. split.
  - intros r. unfold memory_handler.UpdateProduct. rewrite Hid, Hbind, Hvalid.
    pose proof (memory_lookup.Update_GetByID_cases r id req w) as Hcases.
    destruct (memory.GetByID r id) as [old | e].
    + destruct Hcases as (r' & -> & ->). reflexivity.
    + now rewrite Hcases.
  - intros db Hrel. unfold handler.UpdateProduct. rewrite Hid, Hbind, Hvalid.
    rewrite postgres_calls.Update_rows_cases by apply Hrel. split.
    + intros held updated_at Hreq Hnow.
      pose proof (postgres_facts.update_rows_held (postgres.columns db) id req
                    held (time_Now w) updated_at) as Hupd.
      pose proof (postgres_rows.filter_update_rows (postgres.columns db) id id
                    req (time_Now w) (postgres.table db) _
                    (Hupd (postgres.table db) Hreq Hnow)) as Hfilter.
      rewrite (Hupd _ Hreq Hnow) in Hfilter. injection Hfilter as Hfilter.
      pose proof (postgres_facts.update_rows_absent (postgres.columns db) id req
                    held (time_Now w) updated_at (postgres.table db) Hreq Hnow)
        as Hsame.
      rewrite (Hupd (postgres.table db) Hreq Hnow) in Hsame |- *.
      rewrite postgres_calls.GetByID_rows by apply Hrel.
      pose proof (postgres_calls.filter_id_all id (postgres.table db)) as Hall.
      pose proof (postgres_calls.filter_id_nil id (postgres.table db)) as Hnil.
      unfold postgres.GetByID, postgres.round_trip.
      cbn [postgres.table postgres.faults postgres.calls]. rewrite Hrel.
      rewrite <- Hfilter.
      destruct (filter (fun row => ID row = id) (postgres.table db))
        as [| row rest].
      * simpl. split; [reflexivity |].
        specialize (Hsame (Hnil eq_refl)). now injection Hsame.
      * apply Forall_cons in Hall as [Hrow _].
        rewrite fmap_cons. apply N.eqb_eq in Hrow. now rewrite Hrow.
    + intros Hrefused.
      now rewrite (postgres_facts.update_rows_refused _ id req (time_Now w)
                     (postgres.table db) Hrefused).
Qed.

Lemma UpdateProduct_found_or_500_witness :
  let c := mkContext (Some 50%N) (Some samples.eighth) (fun _ => None)
                     (mkAtoi 0 true) (mkAtoi 0 true) (mkAtoi 0 true) in
  let w := elapse 5 samples.world0 in
  let db := postgres.mkDB [samples.gadget_row; samples.late_row]
                          (fun _ => false) 0 samples.server in
  (memory_handler.UpdateProduct c w
     (memory.mkRepo [samples.gadget; samples.device])).1
  = mkResponse 200
      (ProductJSON (mkProduct 50%N "Widget" "" samples.f64_0_125 900 1005))
  /\
  (handler.UpdateProduct c w db).1
  = mkResponse 200
      (ProductJSON (mkProduct 50%N "Widget" "" (postgres.cents 13) 1000 1000)).
Proof.
  split.
  - apply (proj1 (UpdateProduct_found_or_500
                    (mkContext (Some 50%N) (Some samples.eighth) (fun _ => None)
                               (mkAtoi 0 true) (mkAtoi 0 true) (mkAtoi 0 true))
                    (elapse 5 samples.world0) 50%N samples.eighth
                    eq_refl eq_refl eq_refl)
                 (memory.mkRepo [samples.gadget; samples.device])).
  - apply (proj1 (proj2 (UpdateProduct_found_or_500
                           (mkContext (Some 50%N) (Some samples.eighth)
                                      (fun _ => None) (mkAtoi 0 true)
                                      (mkAtoi 0 true) (mkAtoi 0 true))
                           (elapse 5 samples.world0) 50%N samples.eighth
                           eq_refl eq_refl eq_refl)
                        (postgres.mkDB [samples.gadget_row; samples.late_row]
                                       (fun _ => false) 0 samples.server)
                        (fun n => eq_refl))
                 (mkRequest "Widget" "" (postgres.cents 13)) 1000
                 eq_refl eq_refl).
Defined.

(** A validated request under a name of 256 characters: 500, for a row
    that is there. *)
Example UpdateProduct_refused :
  let c := mkContext (Some 50%N) (Some samples.long_named) (fun _ => None)
                     (mkAtoi 0 true) (mkAtoi 0 true) (mkAtoi 0 true) in
  let db := postgres.mkDB [samples.gadget_row] (fun _ => false) 0
                          samples.server in
  handler.UpdateProduct c samples.world0 db
  = (mkResponse 500 (ErrorJSON "Failed to update product"),
     postgres.mkDB [samples.gadget_row] (fun _ => false) 1 samples.server).
Proof. reflexivity. Qed.

(** X21: a handler that answers 400 or 422, because the id does not
    parse or the body does not bind or validate, has not touched the
    dataset: the in-memory repository is the same, and the connection
    has not made a single round trip. *)
Theorem rejected_requests_reach_no_repository (c : Context) (w : World) :
  (forall r : memory.ProductMemoryRepository,
     (rejected (memory_handler.CreateProduct c w r).1.1 ->
      (memory_handler.CreateProduct c w r).1.2 = w /\
      (memory_handler.CreateProduct c w r).2 = r) /\
     (rejected (memory_handler.UpdateProduct c w r).1 ->
      (memory_handler.UpdateProduct c w r).2 = r) /\
     (rejected (memory_handler.DeleteProduct c r).1 ->
      (memory_handler.DeleteProduct c r).2 = r))
  /\
  (forall db : postgres.ProductRepository,
     (rejected (handler.CreateProduct c w db).1.1 ->
      (handler.CreateProduct c w db).1.2 = w /\
      (handler.CreateProduct c w db).2 = db) /\
     (rejected (handler.GetProduct c db).1 -> (handler.GetProduct c db).2 = db) /\
     (rejected (handler.UpdateProduct c w db).1 ->
      (handler.UpdateProduct c w db).2 = db) /\
     (rejected (handler.DeleteProduct c db).1 ->
      (handler.DeleteProduct c db).2 = db)).
Proof.
  assert (Hno : forall (status : Z) (body : Body),
            status = 200 \/ status = 201 \/ status = 404 \/ status = 500 ->
            ~ rejected (mkResponse status body)).
  { intros status body Hs [H | H]; simpl in H;
      unfold StatusBadRequest, StatusUnprocessableEntity in H; lia. }
  split.
  - intros r. split; [| split].
    + unfold memory_handler.CreateProduct.
      destruct (Bind c) as [req |]; [| now split].
      destruct (Validate c req); [now split |].
      destruct (ToProduct req w) as [product w'].
      destruct (memory.Create r product) as [[[] | e] r']; cbn [fst snd];
        intros H; exfalso; revert H; apply Hno; unfold StatusCreated,
          StatusInternalServerError; lia.
    + unfold memory_handler.UpdateProduct.
      destruct (Param_id c) as [id |]; [| reflexivity].
      destruct (Bind c) as [req |]; [| reflexivity].
      destruct (Validate c req); [reflexivity |].
      destruct (memory.Update r id req w) as [[[] | e] r'];
        [destruct (memory.GetByID r' id) |]; cbn [fst snd];
        intros H; exfalso; revert H; apply Hno; unfold StatusOK,
          StatusInternalServerError; lia.
    + unfold memory_handler.DeleteProduct.
      destruct (Param_id c) as [id |]; [| reflexivity].
      destruct (memory.Delete r id) as [[[] | e] r']; cbn [fst snd];
        intros H; exfalso; revert H; apply Hno; unfold StatusOK,
          StatusInternalServerError; lia.
  - intros db. split; [| split; [| split]].
    + unfold handler.CreateProduct.
      destruct (Bind c) as [req |]; [| now split].
      destruct (Validate c req); [now split |].
      destruct (ToProduct req w) as [product w'].
      destruct (postgres.Create db product) as [[[] | e] db']; cbn [fst snd];
        intros H; exfalso; revert H; apply Hno; unfold StatusCreated,
          StatusInternalServerError; lia.
    + unfold handler.GetProduct.
      destruct (Param_id c) as [id |]; [| reflexivity].
      destruct (postgres.GetByID db id) as [[product | e] db']; cbn [fst snd];
        intros H; exfalso; revert H; apply Hno; unfold StatusOK,
          StatusNotFound; lia.
    + unfold handler.UpdateProduct.
      destruct (Param_id c) as [id |]; [| reflexivity].
      destruct (Bind c) as [req |]; [| reflexivity].
      destruct (Validate c req); [reflexivity |].
      destruct (postgres.Update db id req w) as [[[] | e] db1];
        [destruct (postgres.GetByID db1 id) as [[product | e] db2] |];
        cbn [fst snd];
        intros H; exfalso; revert H; apply Hno; unfold StatusOK,
          StatusInternalServerError; lia.
    + unfold handler.DeleteProduct.
      destruct (Param_id c) as [id |]; [| reflexivity].
      destruct (postgres.Delete db id) as [[[] | e] db']; cbn [fst snd];
        intros H; exfalso; revert H; apply Hno; unfold StatusOK,
          StatusInternalServerError; lia.
Qed.

Lemma rejected_requests_reach_no_repository_witness :
  let c := mkContext None None (fun _ => None) (mkAtoi 0 true) (mkAtoi 0 true)
                     (mkAtoi 0 true) in
  (handler.DeleteProduct c (postgres.reliable_empty samples.server)).2
  = postgres.reliable_empty samples.server.
Proof.
  apply (proj2 (rejected_requests_reach_no_repository
                  (mkContext None None (fun _ => None) (mkAtoi 0 true)
                             (mkAtoi 0 true) (mkAtoi 0 true))
                  samples.world0)
               (postgres.reliable_empty samples.server)).
  left. reflexivity.
Defined.

(** X22: [GetAllProducts] of the persistent handler does not call
    [GetAll] but asks [List] for page 1 of size 100000.  When the round
    trip fails it answers 500; otherwise it answers 200 with rows of the
    table, newest first: all of them when the table holds at most 100000
    rows, and only 100000 of them when it holds more. *)
Theorem GetAllProducts_at_most_100000 (db : postgres.ProductRepository) :
  (postgres.faults db (postgres.calls db) = true ->
   (handler.GetAllProducts db).1
   = mkResponse 500 (ErrorJSON "Failed to retrieve products"))
  /\
  (postgres.faults db (postgres.calls db) = false ->
   exists products,
     (handler.GetAllProducts db).1 = mkResponse 200 (ProductsJSON products) /\
     Z.of_nat (length products)
     = Z.min (Z.of_nat (length (postgres.table db))) 100000 /\
     newest_first products /\
     (forall row, row ∈ products -> row ∈ postgres.table db) /\
     (Z.of_nat (length (postgres.table db)) <= 100000 ->
      products ≡ₚ postgres.table db)).
Proof.
  unfold handler.GetAllProducts, postgres.List, postgres.round_trip.
  change (int_mul (int_sub 1 1) 100000) with 0.
  split; intros ->; [reflexivity |].
  unfold postgres.limit_offset.
  change ((100000 <? 0) || (0 <? 0)) with false. cbn [postgres.table fst].
  change (Z.to_nat 0) with 0%nat. rewrite drop_0.
  set (sorted := postgres.order_by_created_at_desc (postgres.table db)).
  assert (Hperm : sorted ≡ₚ postgres.table db)
    by apply postgres_facts.order_by_Permutation.
  exists (take (Z.to_nat 100000) sorted). split; [reflexivity |].
  split; [| split; [| split]].
  - rewrite length_take, <- Hperm. lia.
  - rewrite <- (drop_0 sorted).
    apply postgres_calls.newest_first_take_drop,
      postgres_calls.order_by_newest_first.
  - intros row Hrow. rewrite <- Hperm.
    eapply elem_of_sublist; [exact Hrow | apply sublist_take].
  - intros Hsmall. rewrite take_ge; [exact Hperm |]. rewrite Hperm. lia.
Qed.

Lemma GetAllProducts_at_most_100000_witness :
  let db := postgres.mkDB [samples.gadget_row; samples.late_row]
                          (fun _ => false) 0 samples.server in
  exists products,
    (handler.GetAllProducts db).1 = mkResponse 200 (ProductsJSON products) /\
    Z.of_nat (length products)
    = Z.min (Z.of_nat (length (postgres.table db))) 100000 /\
    newest_first products /\
    (forall row, row ∈ products -> row ∈ postgres.table db) /\
    (Z.of_nat (length (postgres.table db)) <= 100000 ->
     products ≡ₚ postgres.table db).
Proof.
  apply (proj2 (GetAllProducts_at_most_100000
                  (postgres.mkDB [samples.gadget_row; samples.late_row]
                                 (fun _ => false) 0 samples.server))).
  reflexivity.
Defined.



(** X24: [DeleteProduct], given an id that parses, answers 500 and not
    404 when no product has the id, on both backends, and the dataset is
    unchanged; it answers 200 when a product has it; and either way
    [GetProduct] of the same id then answers 404.  The in-memory dataset
    is one with pairwise distinct ids, the connection one that does not
    fail. *)
Theorem DeleteProduct_then_GetProduct (c : Context) (id : uuid) :
  Param_id c = Some id ->
  (forall r : memory.ProductMemoryRepository,
     NoDup (ID <$> memory.products r) ->
     (Forall (memory.other_id id) (memory.products r) ->
      memory_handler.DeleteProduct c r
      = (mkResponse 500 (ErrorJSON "Failed to delete product"), r)) /\
     ((exists p, p ∈ memory.products r /\ ID p = id) ->
      (memory_handler.DeleteProduct c r).1
      = mkResponse 200 (MessageJSON "Product deleted successfully from memory")) /\
     memory_handler.GetProduct c (memory_handler.DeleteProduct c r).2
     = mkResponse 404 (ErrorJSON "Product not found"))
  /\
  (forall db : postgres.ProductRepository,
     postgres.reliable db ->
     (Forall (memory.other_id id) (postgres.table db) ->
      (handler.DeleteProduct c db).1
      = mkResponse 500 (ErrorJSON "Failed to delete product") /\
      postgres.table (handler.DeleteProduct c db).2 = postgres.table db) /\
     ((exists row, row ∈ postgres.table db /\ ID row = id) ->
      (handler.DeleteProduct c db).1
      = mkResponse 200 (MessageJSON "Product deleted successfully")) /\
     (handler.GetProduct c (handler.DeleteProduct c db).2).1
     = mkResponse 404 (ErrorJSON "Product not found")).
Proof.
  intros Hid. split.
  - intros r Hnd.
    unfold memory_handler.DeleteProduct, memory_handler.GetProduct.
    rewrite Hid. unfold memory.Delete, memory.GetByID.
    destruct (scan_cases id (memory.products r))
      as [(l1 & p & l2 & Hps & Hl1 & Hp) | Hall].
    + rewrite Hps in *. rewrite scan_found by assumption. cbn [fst snd memory.products].
      pose proof (memory_delete.swap_with_last l1 l2 p) as Hperm. cbn zeta in Hperm.
      apply distinct_ids_split in Hnd as [_ Hl2]. rewrite Hp in Hl2.
      split; [| split; [reflexivity |]].
      * intros Hall. apply Forall_app in Hall as [_ Hall].
        apply Forall_cons in Hall as [Hne _]. now destruct Hne.
      * rewrite GetByID_loop_absent; [reflexivity |].
        rewrite Hperm. now apply Forall_app.
    + rewrite scan_absent by assumption. cbn [fst snd].
      rewrite GetByID_loop_absent by assumption.
      split; [reflexivity |]. split; [| reflexivity].
      intros (p & Hin & Hp). rewrite Forall_forall in Hall. now destruct (Hall p Hin).
  - intros db Hrel. unfold handler.DeleteProduct, handler.GetProduct. rewrite Hid.
    assert (Hget : forall rows n,
               Forall (memory.other_id id) rows ->
               postgres.GetByID
                 (postgres.mkDB rows (postgres.faults db) n (postgres.columns db))
                 id
               = (Err ErrNoRows,
                  postgres.mkDB rows (postgres.faults db) (S n)
                                (postgres.columns db))).
    { intros rows n Hrows. unfold postgres.GetByID, postgres.round_trip.
      cbn [postgres.table postgres.faults postgres.calls]. rewrite Hrel.
      now destruct (postgres_facts.filter_id_absent id rows Hrows) as [-> _]. }
    destruct (postgres_calls.Delete_rows_cases db id (Hrel _))
      as [[Hall ->] | [Hex ->]]; cbn [fst snd postgres.table].
    + rewrite Hget by assumption. cbn [fst].
      split; [now split |]. split; [| reflexivity].
      intros (row & Hin & Hrow). rewrite Forall_forall in Hall.
      now destruct (Hall row Hin).
    + rewrite Hget
        by (apply Forall_forall; now intros row [Hne _]%list_elem_of_filter).
      cbn [fst]. split; [| now split].
      intros Hall. destruct Hex as (row & Hin & Hrow).
      rewrite Forall_forall in Hall. now destruct (Hall row Hin).
Qed.

Lemma DeleteProduct_then_GetProduct_witness :
  let c := mkContext (Some 50%N) None (fun _ => None) (mkAtoi 0 true)
                     (mkAtoi 0 true) (mkAtoi 0 true) in
  memory_handler.GetProduct c
    (memory_handler.DeleteProduct c
       (memory.mkRepo [samples.gadget; samples.device])).2
  = mkResponse 404 (ErrorJSON "Product not found").
Proof.
  apply (proj1 (DeleteProduct_then_GetProduct
                  (mkContext (Some 50%N) None (fun _ => None) (mkAtoi 0 true)
                             (mkAtoi 0 true) (mkAtoi 0 true))
                  50%N eq_refl)
               (memory.mkRepo [samples.gadget; samples.device])).
  simpl. apply NoDup_cons. split; [| apply NoDup_singleton].
  intros H%list_elem_of_singleton. discriminate.
Defined.

(** X25: [BulkGenerateProducts] of the persistent handler never panics.
    It generates the clamped count of products and either answers 201
    with a row for each of them added to the table, or answers 500 with
    the table as it was.  The total it reports with 201 is the new number
    of rows, unless the round trip of the count that follows fails: then
    it still answers 201, with a total of 0, although the rows are in the
    table. *)
Theorem BulkGenerateProducts_rows (c : Context) (ticks : nat -> N) (w : World)
    (db : postgres.ProductRepository) :
  exists new,
    Z.of_nat (length new) = count_of c /\
    (((handler.BulkGenerateProducts c ticks w db).1.1
      = Return (mkResponse 201
                  (GeneratedJSON "Products generated successfully" (count_of c)
                     (if postgres.faults db
                           (postgres.calls db + Z.to_nat (count_of c) + 2)
                      then 0
                      else Z.of_nat (length (postgres.table db)) + count_of c))) /\
      exists rows,
        Forall2 (postgres.held (postgres.columns db)) new rows /\
        postgres.table (handler.BulkGenerateProducts c ticks w db).2
        = postgres.table db ++ rows)
     \/
     ((handler.BulkGenerateProducts c ticks w db).1.1
      = Return (mkResponse 500 (ErrorJSON "Failed to generate products")) /\
      postgres.table (handler.BulkGenerateProducts c ticks w db).2
      = postgres.table db)).
Proof.
  destruct (count_of_range c) as (Hrange & _ & _).
  assert (Hfits : count_of c * memory.sizeof_Product <= memory.max_alloc).
  { unfold memory.sizeof_Product, memory.max_alloc. lia. }
  destruct (generate_facts.GenerateAndSave_rows_eq db (count_of c) ticks w
              ltac:(lia) Hfits) as (new & w2 & Heq & Hlen & _).
  exists new. split; [exact Hlen |].
  unfold handler.BulkGenerateProducts. rewrite Heq.
  destruct (postgres_calls.CreateBulk_connection db new) as (_ & Hcalls & Hfaults).
  destruct (postgres_rows.CreateBulk_cases db new)
    as [(Hok & (rows & Hall & Htab) & _) | (e & He & Htab)].
  - left. specialize (Hcalls Hok).
    pose proof (Forall2_length _ _ _ Hall) as Hrows.
    destruct (postgres.CreateBulk db new) as [res db1]. cbn [fst snd] in *.
    subst res. unfold postgres.Count, postgres.round_trip.
    rewrite Hfaults, Hcalls.
    replace (length new) with (Z.to_nat (count_of c)) by lia.
    destruct (postgres.faults db (postgres.calls db + Z.to_nat (count_of c) + 2));
      cbn [fst snd postgres.table].
    + split; [reflexivity | now exists rows].
    + rewrite Htab, length_app, Nat2Z.inj_add, <- Hrows, Hlen.
      split; [reflexivity | now exists rows].
  - right. destruct (postgres.CreateBulk db new) as [res db1]. cbn [fst snd] in *.
    subst res. now split.
Qed.

(** A count that fails after the rows went in: 201 with a total of 0. *)
Example BulkGenerateProducts_total_0 :
  let c := mkContext None None (fun _ => None) (mkAtoi 0 true) (mkAtoi 0 true)
                     (mkAtoi 2 false) in
  let db := postgres.mkDB [] (fun n => Nat.eqb n 4) 0 samples.server in
  (handler.BulkGenerateProducts c (fun _ => 0%N) samples.world0 db).1.1
  = Return (mkResponse 201 (GeneratedJSON "Products generated successfully" 2 0)) /\
  length (postgres.table
            (handler.BulkGenerateProducts c (fun _ => 0%N) samples.world0 db).2)
  = 2%nat.
Proof. vm_compute. split; reflexivity. Qed.

(** X26: [CreateProduct] answers 201 with the product that [ToProduct]
    built, which carries the name, description and price of the request,
    when the id that [uuid.New] drew is new to the dataset.  In memory
    [GetProduct] then answers 200 with that very product under its id.
    On the table it answers 200 with the row of that product: the same
    id, and the other values as the columns hold them, so that the body
    of the 201 and the body of the 200 after it can differ.  The
    persistent handler answers 500 when a row has the id already and when
    a column refuses a value of the validated request, and the table is
    then unchanged.  The connection is one that does not fail. *)
Theorem CreateProduct_then_GetProduct (c c' : Context) (w : World)
    (req : ProductRequest) :
  Bind c = Some req -> Validate c req = None ->
  Param_id c' = Some (ID (ToProduct req w).1) ->
  Name (ToProduct req w).1 = ReqName req /\
  Description (ToProduct req w).1 = ReqDescription req /\
  Price (ToProduct req w).1 = ReqPrice req /\
  (forall r : memory.ProductMemoryRepository,
     Forall (memory.other_id (ID (ToProduct req w).1)) (memory.products r) ->
     (memory_handler.CreateProduct c w r).1.1
     = mkResponse 201 (ProductJSON (ToProduct req w).1) /\
     memory_handler.GetProduct c' (memory_handler.CreateProduct c w r).2
     = mkResponse 200 (ProductJSON (ToProduct req w).1))
  /\
  (forall db : postgres.ProductRepository,
     postgres.reliable db ->
     (forall row,
        postgres.held (postgres.columns db) (ToProduct req w).1 row ->
        (Forall (memory.other_id (ID (ToProduct req w).1)) (postgres.table db) ->
         (handler.CreateProduct c w db).1.1
         = mkResponse 201 (ProductJSON (ToProduct req w).1) /\
         (handler.GetProduct c' (handler.CreateProduct c w db).2).1
         = mkResponse 200 (ProductJSON row) /\
         ID row = ID (ToProduct req w).1) /\
        ((exists row', row' ∈ postgres.table db /\
                       ID row' = ID (ToProduct req w).1) ->
         (handler.CreateProduct c w db).1.1
         = mkResponse 500 (ErrorJSON "Failed to create product") /\
         postgres.table (handler.CreateProduct c w db).2 = postgres.table db)) /\
     (postgres.row_of (postgres.columns db) (ToProduct req w).1 = None ->
        (handler.CreateProduct c w db).1.1
        = mkResponse 500 (ErrorJSON "Failed to create product") /\
        postgres.table (handler.CreateProduct c w db).2 = postgres.table db)).
Proof.
  intros Hbind Hvalid Hid.
  split; [reflexivity |]. split; [reflexivity |]. split; [reflexivity |].
  split.
  - intros r Hnew. unfold memory_handler.CreateProduct, memory_handler.GetProduct.
    rewrite Hbind, Hvalid, Hid.
    destruct (ToProduct req w) as [product w'] eqn:Hp. cbn [fst snd] in *.
    unfold memory.Create, memory.GetByID. cbn [fst snd memory.products].
    split; [reflexivity |]. now rewrite GetByID_loop_found.
  - intros db Hrel. unfold handler.CreateProduct, handler.GetProduct.
    rewrite Hbind, Hvalid, Hid.
    destruct (ToProduct req w) as [product w'] eqn:Hp. cbn [fst snd] in *.
    rewrite postgres_calls.Create_rows_cases by apply Hrel.
    split.
    + intros row Hrow. pose proof (postgres_facts.held_ID _ _ _ Hrow) as Hrowid.
      unfold postgres.held in Hrow. rewrite Hrow. split.
      * intros Hnew. rewrite postgres_facts.has_id_absent by assumption.
        cbn [fst snd]. split; [reflexivity |].
        rewrite <- Hrowid in Hnew |- *.
        pose proof (postgres_calls.GetByID_appended db row
                      (S (postgres.calls db)) Hrel Hnew) as Hget.
        destruct (postgres.GetByID _ (ID row)) as [got db2].
        cbn [fst] in *. subst got. now split.
      * intros (row' & Hin & Hrow').
        destruct (postgres.has_id (ID product) (postgres.table db)) eqn:Hhas;
          [now split |].
        apply postgres_rows.has_id_false in Hhas. rewrite Forall_forall in Hhas.
        now destruct (Hhas row' Hin).
    + now intros ->.
Qed.

Lemma CreateProduct_then_GetProduct_witness :
  let c := mkContext None (Some samples.eighth) (fun _ => None) (mkAtoi 0 true)
                     (mkAtoi 0 true) (mkAtoi 0 true) in
  let c' := mkContext (Some 1%N) None (fun _ => None) (mkAtoi 0 true)
                      (mkAtoi 0 true) (mkAtoi 0 true) in
  let w := elapse 5 samples.world0 in
  let db := postgres.mkDB [samples.gadget_row] (fun _ => false) 0
                          samples.server in
  (memory_handler.CreateProduct c w (memory.mkRepo [samples.gadget])).1.1
  = mkResponse 201
      (ProductJSON (mkProduct 1%N "Widget" "" samples.f64_0_125 1005 1005)) /\
  memory_handler.GetProduct c'
    (memory_handler.CreateProduct c w (memory.mkRepo [samples.gadget])).2
  = mkResponse 200
      (ProductJSON (mkProduct 1%N "Widget" "" samples.f64_0_125 1005 1005)) /\
  (handler.CreateProduct c w db).1.1
  = mkResponse 201
      (ProductJSON (mkProduct 1%N "Widget" "" samples.f64_0_125 1005 1005)) /\
  (handler.GetProduct c' (handler.CreateProduct c w db).2).1
  = mkResponse 200
      (ProductJSON (mkProduct 1%N "Widget" "" (postgres.cents 13) 1000 1000)).
Proof.
  pose proof (CreateProduct_then_GetProduct
                (mkContext None (Some samples.eighth) (fun _ => None)
                           (mkAtoi 0 true) (mkAtoi 0 true) (mkAtoi 0 true))
                (mkContext (Some 1%N) None (fun _ => None) (mkAtoi 0 true)
                           (mkAtoi 0 true) (mkAtoi 0 true))
                (elapse 5 samples.world0) samples.eighth
                eq_refl eq_refl eq_refl) as (_ & _ & _ & Hmemory & Htable).
  destruct (Hmemory (memory.mkRepo [samples.gadget])) as (H201 & H200).
  { repeat constructor. discriminate. }
  destruct (proj1 (proj1 (Htable
                            (postgres.mkDB [samples.gadget_row] (fun _ => false)
                                           0 samples.server)
                            (fun n => eq_refl))
                     (mkProduct 1%N "Widget" "" (postgres.cents 13) 1000 1000)
                     eq_refl))
    as (H201' & H200' & _).
  { repeat constructor. discriminate. }
  exact (conj H201 (conj H200 (conj H201' H200'))).
Defined.
End handler_facts.

(** ** Connecting to the database *)

Module database_facts.
Import database.
Local Open Scope Z_scope.

(** Attempts that fail are slept through, five seconds each. *)
Lemma retry_loop_skip (dial : nat -> Attempt) (k : nat) :
  forall (remaining i : nat) (slept : Z),
    (forall j, (i <= j < i + k)%nat ->
               opened (dial j) && pinged (dial j) = false) ->
    retry_loop dial (k + remaining) i slept
    = retry_loop dial remaining (i + k) (slept + 5 * Z.of_nat k).
Proof.
  induction k as [| k IH]; intros remaining i slept Hfail.
  - simpl. f_equal; lia.
  - cbn [Nat.add retry_loop].
    assert (Hi : opened (dial i) && pinged (dial i) = false) by (apply Hfail; lia).
    assert (Hnext : retry_loop dial (k + remaining) (S i) (slept + 5)
                    = retry_loop dial remaining (i + S k)
                                 (slept + 5 * Z.of_nat (S k))).
    { rewrite IH by (intros j Hj; apply Hfail; lia). f_equal; lia. }
    destruct (opened (dial i)); cbn [negb]; [| exact Hnext].
    destruct (pinged (dial i)); [discriminate | exact Hnext].
Qed.

(** X27: [NewConnection] tries at most ten times.  It returns the
    connection of the first attempt at which [sqlx.Open] and [db.Ping]
    both succeed, after five seconds of sleep for each attempt before
    it; when none of the ten succeeds it ends in [log.Fatalf], after
    fifty seconds of sleep. *)
Theorem NewConnection_first_success (os_Getenv : string -> string)
    (dial : string -> nat -> Attempt) :
  let attempt := dial (connStr (config_of os_Getenv)) in
  (forall k,
     (k < 10)%nat ->
     opened (attempt k) && pinged (attempt k) = true ->
     (forall j, (j < k)%nat -> opened (attempt j) && pinged (attempt j) = false) ->
     NewConnection os_Getenv dial = (Connected k, 5 * Z.of_nat k))
  /\
  ((forall j, (j < 10)%nat -> opened (attempt j) && pinged (attempt j) = false) ->
   NewConnection os_Getenv dial = (Fatal, 50)).
Proof.
  intros attempt. unfold NewConnection, maxRetries. fold attempt. split.
  - intros k Hk Hok Hfail.
    replace 10%nat with (k + S (9 - k))%nat by lia.
    rewrite retry_loop_skip by (intros j Hj; apply Hfail; lia).
    cbn [retry_loop Nat.add].
    apply andb_true_iff in Hok as [-> ->]. reflexivity.
  - intros Hfail.
    replace 10%nat with (10 + 0)%nat at 1 by lia.
    rewrite retry_loop_skip by (intros j Hj; apply Hfail; lia).
    reflexivity.
Qed.

Lemma NewConnection_first_success_witness :
  NewConnection (fun _ => "")
                (fun _ n => mkAttempt true (Nat.leb 3 n))
  = (Connected 3, 5 * Z.of_nat 3).
Proof.
  apply (proj1 (NewConnection_first_success (fun _ => "")
                  (fun _ n => mkAttempt true (Nat.leb 3 n))) 3%nat).
  - lia.
  - reflexivity.
  - intros j Hj. cbn [opened pinged andb]. apply Nat.leb_gt. lia.
Defined.

(** With nothing set in the environment the connection string is the
    default one; a variable set to the empty string counts as not set. *)
Example connStr_default :
  connStr (config_of (fun _ => ""))
  = "host=localhost port=5432 user=productuser password=productpass dbname=productdb sslmode=disable".
Proof. reflexivity. Qed.
End database_facts.
